(** * The client-side navigation engine (shared/lib/router/router.ts)

    A shallow embedding of the router: the data-fetch layer ([fetchRetry],
    [fetchNextData]), route resolution ([resolveDynamicRoute],
    [interpolateAs]), the middleware effect ([getMiddlewareData]) and the
    navigation state machine ([change], [getRouteInfo], [changeState],
    [onPopState]).

    JavaScript promises are modelled in two ways.  The data-fetch layer
    keeps an explicit table of promises, because callers share them.  The
    navigation state machine is written in a resumption monad: code between
    two [await]s runs atomically on the router, an [await] suspends the
    procedure with its continuation, and another navigation can run on the
    same router before the first one is resumed. *)

From Stdlib Require Import ZArith String Ascii List Lia Bool.
From stdpp Require Import base option gmap strings list fin_maps.

Set Warnings "-register-all".

Local Open Scope string_scope.
Local Open Scope list_scope.
Local Open Scope Z_scope.

(** ** Errors and settled promises *)

(** A JavaScript [Error] with the two marks the router looks at:
    [cancelled] (set by [buildCancellationError] and by the cancel
    handlers) and the asset-error mark of [markAssetError]. *)
Record Error := mkError {
  message : string;
  cancelled : bool;
  assetError : bool;
}.

Definition plainError (msg : string) : Error :=
  {| message := msg; cancelled := false; assetError := false |}.

(** [buildCancellationError] *)
Definition buildCancellationError : Error :=
  {| message := "Route Cancelled"; cancelled := true; assetError := false |}.

(** [markAssetError(err)] *)
Definition markAssetError (e : Error) : Error :=
  {| message := message e; cancelled := cancelled e; assetError := true |}.

(** The outcome of a promise once it has settled. *)
Inductive Settled (A : Type) : Type :=
| Fulfilled (a : A)
| Rejected (e : Error).
Arguments Fulfilled {A} a.
Arguments Rejected {A} e.

(** ** Requests and responses *)

Record Request := mkRequest {
  req_url : string;
  req_method : string;
  req_credentials : string;
  req_headers : gmap string string;
}.

Record Response := mkResponse {
  status : Z;
  resp_headers : gmap string string;
  resp_text : Settled string;
}.

(** [response.ok] of the Fetch API: the status is in the range 200-299. *)
Definition ok (r : Response) : bool :=
  (200 <=? status r) && (status r <=? 299).

(** [response.headers.get(name)] *)
Definition header (r : Response) (name : string) : option string :=
  resp_headers r !! name.

(** The network: the [n]-th request issued gets the outcome [serve n]
    (a response, or a rejection of [fetch] itself); [issued] logs the
    requests in the order they were made. *)
Record Network := mkNetwork {
  serve : nat -> Settled Response;
  issued : list Request;
}.

Definition fetch (rq : Request) (net : Network) : Network * Settled Response :=
  ({| serve := serve net; issued := issued net ++ [rq] |},
   serve net (length (issued net))).

(** ** fetchRetry *)

Record FetchOptions := mkFetchOptions {
  opt_method : option string;
  opt_headers : gmap string string;
}.

(** JavaScript's [a || b] on an optional string: the empty string is
    falsy. *)
Definition truthy (s : option string) : bool :=
  match s with
  | Some s => negb (String.eqb s "")
  | None => false
  end.

Definition or_string (a : option string) (b : string) : string :=
  match a with
  | Some s => if String.eqb s "" then b else s
  | None => b
  end.

Definition fetchRetry_request (url : string) (options : FetchOptions) : Request :=
  {| req_url := url;
     req_method := or_string (opt_method options) "GET";
     req_credentials := "same-origin";
     req_headers := <["x-nextjs-data" := "1"]> (opt_headers options) |}.

(** The recursion of [fetchRetry] is on [attempts - 1] under the guard
    [attempts > 1]; [fuel] bounds the unfolding and [None] is the model
    running out of it (see [fetchRetry_total]). *)
Fixpoint fetchRetry_fuel (fuel : nat) (url : string) (attempts : Z)
    (options : FetchOptions) (net : Network) : Network * option (Settled Response) :=
  match fuel with
  | O => (net, None)
  | S fuel' =>
      match fetch (fetchRetry_request url options) net with
      | (net1, Rejected e) => (net1, Some (Rejected e))
      | (net1, Fulfilled response) =>
          if negb (ok response) && (1 <? attempts) && (500 <=? status response)
          then fetchRetry_fuel fuel' url (attempts - 1) options net1
          else (net1, Some (Fulfilled response))
      end
  end.

Definition fetchRetry (url : string) (attempts : Z) (options : FetchOptions)
    (net : Network) : Network * option (Settled Response) :=
  fetchRetry_fuel (S (Z.to_nat attempts)) url attempts options net.

(** Number of requests a call has issued. *)
Definition issued_by (before after : Network) : Z :=
  Z.of_nat (length (issued after)) - Z.of_nat (length (issued before)).

(** A response on which [fetchRetry] asks again (when attempts remain). *)
Definition retryable (o : Settled Response) : Prop :=
  exists resp, o = Fulfilled resp /\ ok resp = false /\ 500 <= status resp.

(** ** JavaScript values *)

(** The values carried by page data and props: JSON values, [undefined]
    and symbols (the router marks a data 404 with the symbol
    [SSG_DATA_NOT_FOUND]). *)
Inductive Value : Type :=
| VUndefined
| VNull
| VBool (b : bool)
| VNum (n : Z)
| VStr (s : string)
| VSymbol (name : string)
| VArr (items : list Value)
| VObj (fields : list (string * Value)).

Fixpoint assoc {A : Type} (k : string) (l : list (string * A)) : option A :=
  match l with
  | [] => None
  | (k', v) :: l' => if String.eqb k k' then Some v else assoc k l'
  end.

(** [v.name], and [v?.name] on [null] and [undefined]. *)
Definition getProp (v : Value) (name : string) : Value :=
  match v with
  | VObj fields => default VUndefined (assoc name fields)
  | _ => VUndefined
  end.

(** JavaScript truthiness. *)
Definition truthyV (v : Value) : bool :=
  match v with
  | VUndefined | VNull => false
  | VBool b => b
  | VNum n => negb (n =? 0)
  | VStr s => negb (String.eqb s "")
  | VSymbol _ | VArr _ | VObj _ => true
  end.

Definition SSG_DATA_NOT_FOUND : Value := VSymbol "SSG_DATA_NOT_FOUND".

(** [a === SSG_DATA_NOT_FOUND] *)
Definition is_SSG_DATA_NOT_FOUND (v : Value) : bool :=
  match v with
  | VSymbol name => String.eqb name "SSG_DATA_NOT_FOUND"
  | _ => false
  end.

(** ** The build environment

    What the router reads from [process.env] and the two browser built-ins
    of the data layer.  They are not defined in router.ts and are taken as
    parameters. *)
Class BuildEnv := {
  NODE_ENV : string;
  NEXT_I18N_SUPPORT : bool;          (* process.env.__NEXT_I18N_SUPPORT *)
  NEXT_HAS_REWRITES : bool;          (* process.env.__NEXT_HAS_REWRITES *)
  NEXT_TRAILING_SLASH : bool;        (* process.env.__NEXT_TRAILING_SLASH *)
  (** [JSON.parse(text)]; [None] when it throws. *)
  JSON_parse : string -> option Value;
  (** [new URL(href, window.location.href).href] *)
  absoluteHref : string -> string;
}.

(** ** fetchNextData *)

Section FetchNextData.
Context `{BuildEnv}.

Record FetchDataOutput := mkFetchDataOutput {
  out_dataHref : string;
  out_json : Value;                  (* [null] is [VNull] *)
  out_response : Response;
  out_text : string;
}.

Record FetchNextDataParams := mkFetchNextDataParams {
  dataHref : string;
  isServerRender : bool;
  parseJSON : option bool;
  hasMiddleware : option bool;
  persistCache : bool;
  isPrefetch : bool;
  isBackground : option bool;
  unstable_skipClientCache : option bool;
}.

(** An optional boolean used as a condition: [undefined] is falsy. *)
Definition is_true (b : option bool) : bool := default false b.

(** [tryToParseAsJSON] *)
Definition tryToParseAsJSON (text : string) : Value :=
  match JSON_parse text with
  | Some v => v
  | None => VNull
  end.

Definition is_redirect_status (s : Z) : bool :=
  bool_decide (s ∈ [301; 302; 307; 308]).

(** The first [.then] of [getData]: what the response of [fetchRetry]
    becomes.  [method] is [params?.method]. *)
Definition getData_response (p : FetchNextDataParams) (method : option string)
    (response : Response) : Settled FetchDataOutput :=
  if ok response && bool_decide (method = Some "HEAD") then
    Fulfilled {| out_dataHref := dataHref p; out_response := response;
                 out_text := ""; out_json := VObj [] |}
  else
    match resp_text response with
    | Rejected e => Rejected e
    | Fulfilled text =>
        if negb (ok response) then
          if is_true (hasMiddleware p) && is_redirect_status (status response) then
            Fulfilled {| out_dataHref := dataHref p; out_response := response;
                         out_text := text; out_json := VObj [] |}
          else if negb (is_true (hasMiddleware p)) && (status response =? 404)
                  && truthyV (getProp (tryToParseAsJSON text) "notFound") then
            Fulfilled {| out_dataHref := dataHref p;
                         out_json := VObj [("notFound", SSG_DATA_NOT_FOUND)];
                         out_response := response; out_text := text |}
          else
            let error := plainError "Failed to load static props" in
            Rejected (if negb (isServerRender p) then markAssetError error else error)
        else
          Fulfilled {| out_dataHref := dataHref p;
                       out_json := if is_true (parseJSON p)
                                   then tryToParseAsJSON text else VNull;
                       out_response := response; out_text := text |}
    end.

(** The two objects passed as [inflightCache]: the router's [sdc] and the
    module-level [backgroundCache]. *)
Inductive CacheRef := SdcCache | BackgroundCache.

(** A pending [getData] run: the parameters its callbacks close over.
    [job_store] marks the run started for a caller that skips the client
    cache, whose extra [.then] stores the result. *)
Record GetDataJob := mkGetDataJob {
  job_params : FetchNextDataParams;
  job_cache : CacheRef;
  job_key : string;
  job_method : option string;
  job_store : bool;
}.

Inductive PromiseState : Type :=
| Pending (job : GetDataJob)
| Done (result : Settled FetchDataOutput).

(** The call [fetchRetry(url, attempts, options)] a [getData] run makes. *)
Record FetchRetryCall := mkFetchRetryCall {
  call_url : string;
  call_attempts : Z;
  call_options : FetchOptions;
}.

(** The state of the data layer: both caches map a cache key to a promise,
    promises are numbered by their position in [promises], and [fetches]
    logs the [fetchRetry] calls in order. *)
Record DataLayer := mkDataLayer {
  sdc : gmap string nat;
  backgroundCache : gmap string nat;
  promises : list PromiseState;
  fetches : list FetchRetryCall;
}.

Definition cache_of (c : CacheRef) (w : DataLayer) : gmap string nat :=
  match c with
  | SdcCache => sdc w
  | BackgroundCache => backgroundCache w
  end.

Definition set_cache (c : CacheRef) (m : gmap string nat) (w : DataLayer) : DataLayer :=
  match c with
  | SdcCache => {| sdc := m; backgroundCache := backgroundCache w;
                   promises := promises w; fetches := fetches w |}
  | BackgroundCache => {| sdc := sdc w; backgroundCache := m;
                          promises := promises w; fetches := fetches w |}
  end.

Definition getData_call (p : FetchNextDataParams) (method : option string) : FetchRetryCall :=
  {| call_url := dataHref p;
     call_attempts := if isServerRender p then 3 else 1;
     call_options :=
       {| opt_headers := if isPrefetch p then {["purpose" := "prefetch"]} else ∅;
          opt_method := Some (default "GET" method) |} |}.

(** [getData(params)]: calls [fetchRetry] and returns a new pending
    promise. *)
Definition getData (p : FetchNextDataParams) (c : CacheRef) (method : option string)
    (store : bool) (w : DataLayer) : DataLayer * nat :=
  ({| sdc := sdc w; backgroundCache := backgroundCache w;
      promises := promises w ++ [Pending {| job_params := p; job_cache := c;
                                            job_key := absoluteHref (dataHref p);
                                            job_method := method; job_store := store |}];
      fetches := fetches w ++ [getData_call p method] |},
   length (promises w)).

(** [fetchNextData]: the synchronous part, which returns a promise. *)
Definition fetchNextData (p : FetchNextDataParams) (c : CacheRef) (w : DataLayer)
    : DataLayer * nat :=
  let cacheKey := absoluteHref (dataHref p) in
  if is_true (unstable_skipClientCache p) && persistCache p then
    getData p c None true w
  else
    match cache_of c w !! cacheKey with
    | Some promise => (w, promise)
    | None =>
        let '(w1, promise) :=
          getData p c (if is_true (isBackground p) then Some "HEAD" else None) false w in
        (set_cache c (<[cacheKey := promise]> (cache_of c w1)) w1, promise)
    end.

Definition set_promise (i : nat) (s : PromiseState) (w : DataLayer) : DataLayer :=
  {| sdc := sdc w; backgroundCache := backgroundCache w;
     promises := <[i := s]> (promises w); fetches := fetches w |}.

Definition new_promise (s : PromiseState) (w : DataLayer) : DataLayer * nat :=
  ({| sdc := sdc w; backgroundCache := backgroundCache w;
      promises := promises w ++ [s]; fetches := fetches w |},
   length (promises w)).

(** The callbacks of a pending promise, run when its [fetchRetry] call
    settles with [outcome]: the response handling, the [.then] that
    deletes the cache entry unless it may persist, the [.catch] that
    deletes it, and for a caller that skipped the cache the [.then] that
    stores a resolved promise. *)
Definition settle (promise : nat) (outcome : Settled Response) (w : DataLayer) : DataLayer :=
  match promises w !! promise with
  | Some (Pending job) =>
      let p := job_params job in
      let c := job_cache job in
      let result :=
        match outcome with
        | Fulfilled response => getData_response p (job_method job) response
        | Rejected e => Rejected e
        end in
      match result with
      | Fulfilled data =>
          let w1 :=
            if negb (persistCache p)
               || negb (String.eqb NODE_ENV "production")
               || bool_decide (header (out_response data) "x-middleware-cache" = Some "no-cache")
            then set_cache c (delete (job_key job) (cache_of c w)) w
            else w in
          let w2 :=
            if job_store job then
              let '(w', resolved) := new_promise (Done (Fulfilled data)) w1 in
              set_cache c (<[job_key job := resolved]> (cache_of c w')) w'
            else w1 in
          set_promise promise (Done (Fulfilled data)) w2
      | Rejected err =>
          set_promise promise (Done (Rejected err))
            (set_cache c (delete (job_key job) (cache_of c w)) w)
      end
  | _ => w
  end.

(** The caller skips the client cache: the guard of the first branch of
    [fetchNextData]. *)
Definition skips_cache (p : FetchNextDataParams) : bool :=
  is_true (unstable_skipClientCache p) && persistCache p.

(** What [getData] makes of the outcome of its [fetchRetry] call. *)
Definition getData_result (p : FetchNextDataParams) (method : option string)
    (outcome : Settled Response) : Settled FetchDataOutput :=
  match outcome with
  | Fulfilled response => getData_response p method response
  | Rejected e => Rejected e
  end.

(** Callers that call [fetchNextData] one after the other before anything
    settles; the result lists the promise each one received. *)
Fixpoint fetchNextData_all (callers : list FetchNextDataParams) (c : CacheRef)
    (w : DataLayer) : DataLayer * list nat :=
  match callers with
  | [] => (w, [])
  | p :: rest =>
      let '(w1, promise) := fetchNextData p c w in
      let '(w2, promises) := fetchNextData_all rest c w1 in
      (w2, promise :: promises)
  end.

End FetchNextData.

(** The double-quote character, as a string. *)
Definition dquote_string : string := String (Ascii.ascii_of_nat 34) EmptyString.

(** ** Queries and route patterns *)

(** A value of a [ParsedUrlQuery]: a string or an array of strings. *)
Inductive QVal : Type :=
| QStr (s : string)
| QArr (l : list string).

#[global] Instance QVal_eq_dec : EqDecision QVal.
Proof. solve_decision. Defined.

Notation Query := (gmap string QVal).

(** One entry of [getRouteRegex(route).groups]. *)
Record Group := mkGroup {
  pos : nat;
  repeat : bool;
  optional : bool;
}.

(** The result of [getRouteRegex]: [re_exec] is [re.exec], which returns
    the captures of the groups 1, 2, ... ([None] for a group that took no
    part in the match) or fails; [groups] lists the entries in the order
    of [Object.keys]. *)
Record RouteRegex := mkRouteRegex {
  re_exec : string -> option (list (option string));
  groups : list (string * Group);
}.

(** [re.test(s)] *)
Definition re_test (re : RouteRegex) (s : string) : bool :=
  bool_decide (is_Some (re_exec re s)).

(** The helpers that router.ts imports from other modules and that route
    resolution uses.  They are parameters of the model. *)
Class RouteUtils := {
  removeTrailingSlash : string -> string;
  denormalizePagePath : string -> string;
  isDynamicRoute : string -> bool;
  getRouteRegex : string -> RouteRegex;
  (** [getRouteMatcher(regex)(pathname)]; [None] is the result [false]. *)
  getRouteMatcher : RouteRegex -> string -> option Query;
}.

(** ** String primitives of JavaScript *)

(** [s.startsWith(p)] *)
Definition startsWith (s p : string) : bool := String.prefix p s.

Fixpoint drop_string (n : nat) (s : string) : string :=
  match n, s with
  | O, _ => s
  | S n', String _ s' => drop_string n' s'
  | S _, EmptyString => EmptyString
  end.

(** [s.split(sep)] for a separator of one character *)
Fixpoint split_on (sep : ascii) (s : string) : list string :=
  match s with
  | EmptyString => [EmptyString]
  | String c s' =>
      if Ascii.eqb c sep then EmptyString :: split_on sep s'
      else match split_on sep s' with
           | first :: rest => String c first :: rest
           | [] => [String c EmptyString]
           end
  end.

(** [s.includes(sub)] *)
Fixpoint includes_string (s sub : string) : bool :=
  String.prefix sub s ||
  match s with
  | EmptyString => false
  | String _ s' => includes_string s' sub
  end.

(** [s.replace(pattern, replacement)] with a string pattern: the first
    occurrence is replaced.  The replacements the router passes are
    percent-encoded and hold no [$], so no replacement pattern applies. *)
Fixpoint replace_first (s pattern replacement : string) : string :=
  if String.prefix pattern s then
    replacement +:+ drop_string (String.length pattern) s
  else
    match s with
    | EmptyString => EmptyString
    | String c s' => String c (replace_first s' pattern replacement)
    end.

(** [l.join(sep)] *)
Fixpoint join (sep : string) (l : list string) : string :=
  match l with
  | [] => ""
  | [x] => x
  | x :: rest => x +:+ sep +:+ join sep rest
  end.

(** [encodeURIComponent] on a string of UTF-8 bytes: the unreserved
    characters [A-Z a-z 0-9 - _ . ! ~ * ' ( )] stay, every other byte
    becomes [%XX]. *)
Definition is_unreserved (c : ascii) : bool :=
  let n := nat_of_ascii c in
  ((65 <=? n) && (n <=? 90) || (97 <=? n) && (n <=? 122) || (48 <=? n) && (n <=? 57)
   || bool_decide (n ∈ [45; 95; 46; 33; 126; 42; 39; 40; 41]))%nat.

Definition hex_digit (n : nat) : ascii :=
  ascii_of_nat (if (n <? 10)%nat then 48 + n else 55 + n).

Fixpoint encodeURIComponent (s : string) : string :=
  match s with
  | EmptyString => EmptyString
  | String c s' =>
      if is_unreserved c then String c (encodeURIComponent s')
      else String "%" (String (hex_digit (nat_of_ascii c / 16))
             (String (hex_digit (nat_of_ascii c mod 16)) (encodeURIComponent s')))
  end.

Section Routes.
Context `{RouteUtils}.

(** ** resolveDynamicRoute *)

Definition matches_dynamic (cleanPathname page : string) : bool :=
  isDynamicRoute page && re_test (getRouteRegex page) cleanPathname.

Definition resolveDynamicRoute (pathname : string) (pages : list string) : string :=
  let cleanPathname := removeTrailingSlash (denormalizePagePath pathname) in
  if String.eqb cleanPathname "/404" || String.eqb cleanPathname "/_error" then
    pathname
  else
    let pathname :=
      if negb (bool_decide (cleanPathname ∈ pages)) then
        (* pages.some(...) assigns at the first page that matches *)
        match List.find (matches_dynamic cleanPathname) pages with
        | Some page => page
        | None => pathname
        end
      else pathname in
    removeTrailingSlash pathname.

(** ** interpolateAs *)

(** [String(value)] of a query value (an array is joined with commas). *)
Definition qval_to_string (v : QVal) : string :=
  match v with
  | QStr s => s
  | QArr l => join "," l
  end.

(** One call of the callback of [params.every]: [None] when the callback
    returns false, else the new [interpolatedRoute]. *)
Definition interpolate_param (dynamicMatches : Query) (interpolatedRoute : string)
    (param : string) (g : Group) : option string :=
  (* value = dynamicMatches[param] || '' *)
  let value :=
    match dynamicMatches !! param with
    | Some (QStr s) => QStr s
    | Some (QArr l) => QArr l
    | None => QStr ""
    end in
  let falsy := bool_decide (value = QStr "") in
  let replaced := "[" +:+ (if repeat g then "..." else "") +:+ param +:+ "]" in
  let replaced :=
    if optional g then (if falsy then "/" else "") +:+ "[" +:+ replaced +:+ "]"
    else replaced in
  if optional g || bool_decide (is_Some (dynamicMatches !! param)) then
    let replacement :=
      if repeat g then
        (* if (repeat && !Array.isArray(value)) value = [value] *)
        let segments := match value with QArr l => l | QStr s => [s] end in
        join "/" (map encodeURIComponent segments)
      else encodeURIComponent (qval_to_string value) in
    let r := replace_first interpolatedRoute replaced replacement in
    Some (if String.eqb r "" then "/" else r)
  else None.

Fixpoint interpolate_every (dynamicMatches : Query) (interpolatedRoute : string)
    (params : list (string * Group)) : option string :=
  match params with
  | [] => Some interpolatedRoute
  | (param, g) :: rest =>
      match interpolate_param dynamicMatches interpolatedRoute param g with
      | Some r => interpolate_every dynamicMatches r rest
      | None => None
      end
  end.

Record Interpolated := mkInterpolated {
  params : list string;
  result : string;
}.

Definition interpolateAs (route asPathname : string) (query : Query) : Interpolated :=
  let dynamicRegex := getRouteRegex route in
  let dynamicGroups := groups dynamicRegex in
  let dynamicMatches :=
    match (if negb (String.eqb asPathname route)
           then getRouteMatcher dynamicRegex asPathname else None) with
    | Some matched => matched
    | None => query
    end in
  {| params := map fst dynamicGroups;
     result := match interpolate_every dynamicMatches route dynamicGroups with
               | Some interpolatedRoute => interpolatedRoute
               | None => ""   (* did not satisfy all requirements *)
               end |}.

End Routes.

(** ** The route helpers, modelled

    utils/remove-trailing-slash, page-path/denormalize-page-path,
    utils/is-dynamic, utils/route-regex and utils/route-matcher are
    modules of the repository that router.ts imports.  The definitions
    below model them; they instantiate [RouteUtils] for the statements
    that need to match a pathname against a route. *)

(** Modelled from the spec: removeTrailingSlash, which strips the trailing
    slash of a route and keeps the root [/]. *)
Fixpoint strip_last_slash (s : string) : string :=
  match s with
  | EmptyString => EmptyString
  | String c EmptyString => if Ascii.eqb c "/" then EmptyString else s
  | String c s' => String c (strip_last_slash s')
  end.

Definition removeTrailingSlash_model (route : string) : string :=
  let r := strip_last_slash route in
  if String.eqb r "" then "/" else r.

(** A placeholder segment of a route: its name, whether it repeats
    ([[...name]]) and whether it is optional ([[[...name]]]). *)
Inductive Segment : Type :=
| Static (text : string)
| Dynamic (name : string) (repeat_ optional_ : bool).

Fixpoint ends_with (s : string) (c : ascii) : bool :=
  match s with
  | EmptyString => false
  | String c' EmptyString => Ascii.eqb c' c
  | String _ s' => ends_with s' c
  end.

Fixpoint drop_last (s : string) : string :=
  match s with
  | EmptyString => EmptyString
  | String _ EmptyString => EmptyString
  | String c s' => String c (drop_last s')
  end.

Definition bracketed (s : string) : bool := startsWith s "[" && ends_with s "]".

(** [s.slice(1, -1)] *)
Definition strip_brackets (s : string) : string := drop_last (drop_string 1 s).

Definition parse_segment (segment : string) : Segment :=
  if bracketed segment then
    let param := strip_brackets segment in
    let optional_ := bracketed param in
    let param := if optional_ then strip_brackets param else param in
    let repeat_ := startsWith param "..." in
    let param := if repeat_ then drop_string 3 param else param in
    Dynamic param repeat_ optional_
  else Static segment.

Definition route_segments (route : string) : list Segment :=
  map parse_segment (split_on "/" (drop_string 1 (removeTrailingSlash_model route))).

(** Modelled from the spec: isDynamicRoute, true of a route with a
    placeholder segment. *)
Definition isDynamicRoute_model (route : string) : bool :=
  existsb (fun segment => bracketed segment && (2 <? String.length segment)%nat)
    (tail (split_on "/" route)).

(** Modelled from the spec: denormalizePagePath, which maps the page
    [/index] to [/] and [/index/x] to [/x]. *)
Definition denormalizePagePath_model (page : string) : string :=
  if startsWith page "/index/" && negb (isDynamicRoute_model page) then drop_string 6 page
  else if String.eqb page "/index" then "/" else page.

(** [groups[key] = { pos, repeat, optional }] for each placeholder, in the
    order of the segments; a repeated name keeps its place in
    [Object.keys] and takes the later entry. *)
Fixpoint groups_from (groupIndex : nat) (segments : list Segment)
    (acc : list (string * Group)) : list (string * Group) :=
  match segments with
  | [] => acc
  | Static _ :: rest => groups_from groupIndex rest acc
  | Dynamic name repeat_ optional_ :: rest =>
      let g := {| pos := groupIndex; repeat := repeat_; optional := optional_ |} in
      groups_from (S groupIndex) rest
        (if bool_decide (is_Some (assoc name acc))
         then map (fun kg => if String.eqb kg.1 name then (name, g) else kg) acc
         else acc ++ [(name, g)])
  end.

(** The parts of a pathname: the text between its slashes, where one
    trailing slash is allowed; [None] when it does not start with a slash. *)
Definition path_parts (pathname : string) : option (list string) :=
  match pathname with
  | String c rest =>
      if Ascii.eqb c "/" then
        let parts := split_on "/" rest in
        Some (if String.eqb (List.last parts "x") "" then removelast parts else parts)
      else None
  | EmptyString => None
  end.

(** The captures of a match of the segments against the parts of a
    pathname: a static segment matches its own text, a placeholder one
    part that is not empty, a repeated placeholder (in last position) all
    the remaining parts, at least one unless it is optional. *)
Fixpoint exec_segments (segments : list Segment) (parts : list string)
    : option (list (option string)) :=
  match segments with
  | [] => match parts with [] => Some [] | _ => None end
  | Static text :: rest =>
      match parts with
      | p :: parts' => if String.eqb text p then exec_segments rest parts' else None
      | [] => None
      end
  | Dynamic _ false _ :: rest =>
      match parts with
      | p :: parts' =>
          if String.eqb p "" then None
          else captures ← exec_segments rest parts'; Some (Some p :: captures)
      | [] => None
      end
  | Dynamic _ true optional_ :: rest =>
      match rest with
      | [] =>
          match parts with
          | [] => if optional_ then Some [None] else None
          | _ => if String.eqb (join "/" parts) "" then None
                 else Some [Some (join "/" parts)]
          end
      | _ => None
      end
  end.

(** Modelled from the spec: getRouteRegex, which compiles a route pattern
    to its regex and its groups. *)
Definition getRouteRegex_model (normalizedRoute : string) : RouteRegex :=
  let segments := route_segments normalizedRoute in
  {| re_exec := fun pathname => parts ← path_parts pathname; exec_segments segments parts;
     groups := groups_from 1 segments [] |}.

Definition hex_value (c : ascii) : option nat :=
  let n := nat_of_ascii c in
  if (48 <=? n)%nat && (n <=? 57)%nat then Some (n - 48)%nat
  else if (65 <=? n)%nat && (n <=? 70)%nat then Some (n - 55)%nat
  else if (97 <=? n)%nat && (n <=? 102)%nat then Some (n - 87)%nat
  else None.

(** [decodeURIComponent] on a string of UTF-8 bytes; [None] when it
    throws. *)
Fixpoint decodeURIComponent (s : string) : option string :=
  match s with
  | EmptyString => Some EmptyString
  | String c rest =>
      if Ascii.eqb c "%" then
        match rest with
        | String a (String b rest') =>
            x ← hex_value a; y ← hex_value b;
            d ← decodeURIComponent rest';
            Some (String (ascii_of_nat (16 * x + y)) d)
        | _ => None
        end
      else d ← decodeURIComponent rest; Some (String c d)
  end.

(** The value the matcher stores for a capture [m] of a group. *)
Definition matched_value (g : Group) (m : string) : option QVal :=
  if includes_string m "/" then QArr <$> mapM decodeURIComponent (split_on "/" m)
  else if repeat g then d ← decodeURIComponent m; Some (QArr [d])
  else QStr <$> decodeURIComponent m.

Fixpoint matched_params (routeMatch : list (option string))
    (groups_ : list (string * Group)) : option Query :=
  match groups_ with
  | [] => Some ∅
  | (slugName, g) :: rest =>
      params_ ← matched_params routeMatch rest;
      match routeMatch !! (pos g - 1)%nat with
      | Some (Some m) => v ← matched_value g m; Some (<[slugName := v]> params_)
      | _ => Some params_
      end
  end.

(** Modelled from the spec: getRouteMatcher, which matches a pathname
    against the regex of a route and returns the decoded values of its
    placeholders, or fails ([None]: the result [false], or the error of a
    value that cannot be decoded). *)
Definition getRouteMatcher_model (re : RouteRegex) (pathname : string) : option Query :=
  routeMatch ← re_exec re pathname;
  matched_params routeMatch (groups re).

Definition route_utils_model : RouteUtils := {|
  removeTrailingSlash := removeTrailingSlash_model;
  denormalizePagePath := denormalizePagePath_model;
  isDynamicRoute := isDynamicRoute_model;
  getRouteRegex := getRouteRegex_model;
  getRouteMatcher := getRouteMatcher_model;
|}.

(** ** Routes and values of a regular shape

    The routes for which interpolation and matching are inverse to each
    other are described by their segments. *)

Fixpoint all_chars (f : ascii -> bool) (s : string) : bool :=
  match s with
  | EmptyString => true
  | String c s' => f c && all_chars f s'
  end.

(** Neither a slash nor an opening bracket. *)
Definition plain_char (c : ascii) : bool :=
  negb (Ascii.eqb c "/") && negb (Ascii.eqb c "[").

(** The text of a static segment. *)
Definition static_ok (text : string) : bool :=
  negb (String.eqb text "") && all_chars plain_char text.

(** The name of a placeholder. *)
Definition name_ok (name : string) : bool :=
  negb (String.eqb name "") && all_chars plain_char name && negb (startsWith name "...").

Definition brackets (s : string) : string := "[" +:+ s +:+ "]".

(** The text of a segment in a route: [text], [[name]], [[...name]] or
    [[[...name]]]. *)
Definition render_segment (segment : Segment) : string :=
  match segment with
  | Static text => text
  | Dynamic name repeat_ optional_ =>
      let param := brackets ((if repeat_ then "..." else "") +:+ name) in
      if optional_ then brackets param else param
  end.

(** Every part with a slash before it. *)
Fixpoint slashed (parts : list string) : string :=
  match parts with
  | [] => ""
  | part :: rest => "/" +:+ part +:+ slashed rest
  end.

Definition render_route (segments : list Segment) : string :=
  slashed (map render_segment segments).

(** A regular segment: a static text or a name that is plain, and an
    optional placeholder is a catch-all. *)
Definition segment_regular (segment : Segment) : bool :=
  match segment with
  | Static text => static_ok text
  | Dynamic name repeat_ optional_ => name_ok name && (repeat_ || negb optional_)
  end.

Definition is_catch_all (segment : Segment) : bool :=
  match segment with
  | Static _ => false
  | Dynamic _ repeat_ _ => repeat_
  end.

(** The segments are regular, and a catch-all is the last segment. *)
Fixpoint segments_ok (segments : list Segment) : bool :=
  match segments with
  | [] => true
  | segment :: rest =>
      segment_regular segment
      && (negb (is_catch_all segment) || match rest with [] => true | _ => false end)
      && segments_ok rest
  end.

Fixpoint segment_names (segments : list Segment) : list string :=
  match segments with
  | [] => []
  | Static _ :: rest => segment_names rest
  | Dynamic name _ _ :: rest => name :: segment_names rest
  end.

(** A value of the shape the matcher returns for a placeholder: a string
    that is not empty, and for a catch-all an array, not empty, of such
    strings. *)
Definition value_ok (repeat_ : bool) (v : QVal) : bool :=
  match repeat_, v with
  | false, QStr s => negb (String.eqb s "")
  | true, QArr l =>
      negb (bool_decide (l = [])) && forallb (fun s => negb (String.eqb s "")) l
  | _, _ => false
  end.

(** The query supplies the placeholder of the segment: a value of the
    right shape, or for an optional placeholder no value. *)
Definition supplied (query : Query) (segment : Segment) : Prop :=
  match segment with
  | Static _ => True
  | Dynamic name repeat_ optional_ =>
      match query !! name with
      | Some v => value_ok repeat_ v = true
      | None => optional_ = true
      end
  end.

(** The parts of the path that interpolation makes of the segments. *)
Definition filled_segment (query : Query) (segment : Segment) : list string :=
  match segment with
  | Static text => [text]
  | Dynamic name _ _ =>
      match query !! name with
      | Some (QStr s) => [encodeURIComponent s]
      | Some (QArr l) => map encodeURIComponent l
      | None => []
      end
  end.

Definition filled (query : Query) (segments : list Segment) : list string :=
  flat_map (filled_segment query) segments.

(** The groups of the segments, numbered from [groupIndex]. *)
Fixpoint groups_of (groupIndex : nat) (segments : list Segment) : list (string * Group) :=
  match segments with
  | [] => []
  | Static _ :: rest => groups_of groupIndex rest
  | Dynamic name repeat_ optional_ :: rest =>
      (name, {| pos := groupIndex; repeat := repeat_; optional := optional_ |})
      :: groups_of (S groupIndex) rest
  end.

(** The captures of the match of the interpolated path. *)
Fixpoint captures_of (query : Query) (segments : list Segment) : list (option string) :=
  match segments with
  | [] => []
  | Static _ :: rest => captures_of query rest
  | Dynamic name _ _ :: rest =>
      match filled_segment query (Dynamic name false false) with
      | [] => None
      | parts => Some (join "/" parts)
      end :: captures_of query rest
  end.

(** The route [/posts/[id]/[[...rest]]] and a query for it. *)
Definition posts_route : list Segment :=
  [Static "posts"; Dynamic "id" false false; Dynamic "rest" true true].

Definition posts_query : Query :=
  {["id" := QStr "a b"; "rest" := QArr ["x"; "y/z"]]}.

(** ** The router and the browser *)

(** [TransitionOptions.locale]: a locale, [false], or not given. *)
Inductive LocaleOption : Type :=
| LocaleUndefined
| LocaleFalse
| LocaleName (l : string).

#[global] Instance LocaleOption_eq_dec : EqDecision LocaleOption.
Proof. solve_decision. Defined.

(** [TransitionOptions], with the two internal options [_h] and
    [_shouldResolveHref]. *)
Record TransitionOptions := mkTransitionOptions {
  shallow : option bool;
  locale : LocaleOption;
  scroll : option bool;
  skipClientCache : option bool;      (* unstable_skipClientCache *)
  _h : option Z;
  _shouldResolveHref : option bool;
}.

Definition default_options : TransitionOptions :=
  {| shallow := None; locale := LocaleUndefined; scroll := None;
     skipClientCache := None; _h := None; _shouldResolveHref := None |}.

(** Truthiness of the number [_h]. *)
Definition truthy_num (n : option Z) : bool :=
  match n with
  | Some n => negb (n =? 0)
  | None => false
  end.

(** [HistoryState]: [null], an entry of the app router ([__NA]), an entry
    without the marker [__N], or an entry of this router. *)
Inductive HistoryState : Type :=
| HistoryNull
| HistoryNA
| HistoryNotN
| HistoryN (url as_ : string) (options : TransitionOptions) (key : string).

Record HistoryEntry := mkHistoryEntry {
  entry_state : HistoryState;
  entry_url : string;
}.

Inductive HistoryMethod : Type := replaceState | pushState.

#[global] Instance HistoryMethod_eq_dec : EqDecision HistoryMethod.
Proof. solve_decision. Defined.

(** The router state snapshot. *)
Record RouterState := mkRouterState {
  st_route : string;
  st_pathname : string;
  st_query : Query;
  st_asPath : string;
  st_locale : option string;
  st_isFallback : bool;
  st_isPreview : bool;
}.

(** A page component: its name and the scripts of
    [unstable_scriptLoader], when it has one. *)
Record Component := mkComponent {
  comp_name : string;
  unstable_scriptLoader : option (list Value);
}.

(** [PrivateRouteInfo]; [initial] marks the variant seeded by the
    constructor. *)
Record RouteInfo := mkRouteInfo {
  ri_Component : Component;
  ri_styleSheets : list string;
  ri_initial : bool;
  ri_N_SSG : option bool;
  ri_N_SSP : option bool;
  ri_N_RSC : option bool;
  ri_props : option Value;
  ri_err : option Error;
  ri_error : option Error;
  ri_route : option string;
  ri_resolvedAs : option string;
  ri_query : option Query;
}.

(** What [pageLoader.loadPage] resolves to. *)
Record PageResult := mkPageResult {
  page : Component;
  page_styleSheets : list string;
  mod_N_SSG : option bool;
  mod_N_SSP : option bool;
  mod_next_rsc : option bool;
}.

(** A parsed URL ([parseRelativeUrl], [parsePath]). *)
Record ParsedUrl := mkParsedUrl {
  u_pathname : string;
  u_query : Query;
  u_search : string;
  u_hash : string;
}.

(** [getNextPathnameInfo] *)
Record PathnameInfo := mkPathnameInfo {
  info_pathname : string;
  info_locale : option string;
  info_basePath : option string;
  info_buildId : option string;
}.

(** The result of [resolveRewrites]. *)
Record RewritesResult := mkRewritesResult {
  rw_matchedPage : bool;
  rw_parsedAs : ParsedUrl;
  rw_asPath : string;
  rw_resolvedHref : option string;
  rw_externalDest : bool;
}.

(** [detectDomainLocale] *)
Record DomainLocale := mkDomainLocale {
  dl_domain : string;
  dl_defaultLocale : string;
  dl_http : bool;
}.

(** The events emitted on [Router.events]. *)
Inductive RouterEvent : Type :=
| routeChangeStart (as_ : string) (shallow : bool)
| routeChangeComplete (as_ : string) (shallow : bool)
| routeChangeError (err : Error) (as_ : string) (shallow : bool)
| beforeHistoryChange (as_ : string) (shallow : bool)
| hashChangeStart (as_ : string) (shallow : bool)
| hashChangeComplete (as_ : string) (shallow : bool).

(** One call of the subscription [sub(data, App, resetScroll)]; [data] is
    [undefined] when the route has no entry in [components]. *)
Record Published := mkPublished {
  pub_data : option RouteInfo;
  pub_App : Component;
  pub_resetScroll : option (Z * Z);
}.

(** The router object together with what it touches in the browser.

    [clc] holds the current cancel closure; a closure is the index of its
    [cancelled] flag in [cancelFlags].  [history] is the session history
    (oldest entry first) and [historyIndex] the position of the current
    entry.  [location] is [getURL()].
    [hardNavigations] logs the assignments to [window.location.href],
    [reloads] counts [window.location.reload()].  [keys] is the sequence
    [Math.random] makes [createKey] return and [keysUsed] how many were
    taken.  [data] is the data layer ([sdc] and [backgroundCache]). *)
Record Router := mkRouter {
  basePath : string;
  components : gmap string RouteInfo;
  data : DataLayer;
  clc : option nat;
  cancelFlags : list bool;
  _bps : option (HistoryState -> bool);
  events : list RouterEvent;
  isSsr : bool;
  _inFlightRoute : option string;
  _shallow : option bool;
  locales : option (list string);
  defaultLocale : option string;
  domainLocales : list DomainLocale;
  isReady : bool;
  isLocaleDomain : bool;
  isFirstPopStateEvent : bool;
  state : RouterState;
  _key : string;
  (* the browser *)
  history : list HistoryEntry;
  historyIndex : nat;
  location : string;
  hostname : string;
  hardNavigations : list string;
  reloads : nat;
  scrollStorage : gmap string (Z * Z);
  pageOffset : Z * Z;
  scrolledTo : list string;
  documentLang : option string;
  scriptsLoaded : list Value;
  published : list Published;
  keys : nat -> string;
  keysUsed : nat;
}.

(** Field updates of the router record. *)
Definition set_components (v : gmap string RouteInfo) (r : Router) : Router :=
  {| basePath := basePath r; components := v; data := data r; clc := clc r;
     cancelFlags := cancelFlags r; _bps := _bps r; events := events r;
     isSsr := isSsr r; _inFlightRoute := _inFlightRoute r;
     _shallow := _shallow r; locales := locales r;
     defaultLocale := defaultLocale r; domainLocales := domainLocales r;
     isReady := isReady r; isLocaleDomain := isLocaleDomain r;
     isFirstPopStateEvent := isFirstPopStateEvent r; state := state r;
     _key := _key r; history := history r; historyIndex := historyIndex r;
     location := location r; hostname := hostname r;
     hardNavigations := hardNavigations r; reloads := reloads r;
     scrollStorage := scrollStorage r; pageOffset := pageOffset r;
     scrolledTo := scrolledTo r; documentLang := documentLang r;
     scriptsLoaded := scriptsLoaded r; published := published r;
     keys := keys r; keysUsed := keysUsed r |}.
Definition set_data (v : DataLayer) (r : Router) : Router :=
  {| basePath := basePath r; components := components r; data := v;
     clc := clc r; cancelFlags := cancelFlags r; _bps := _bps r;
     events := events r; isSsr := isSsr r;
     _inFlightRoute := _inFlightRoute r; _shallow := _shallow r;
     locales := locales r; defaultLocale := defaultLocale r;
     domainLocales := domainLocales r; isReady := isReady r;
     isLocaleDomain := isLocaleDomain r;
     isFirstPopStateEvent := isFirstPopStateEvent r; state := state r;
     _key := _key r; history := history r; historyIndex := historyIndex r;
     location := location r; hostname := hostname r;
     hardNavigations := hardNavigations r; reloads := reloads r;
     scrollStorage := scrollStorage r; pageOffset := pageOffset r;
     scrolledTo := scrolledTo r; documentLang := documentLang r;
     scriptsLoaded := scriptsLoaded r; published := published r;
     keys := keys r; keysUsed := keysUsed r |}.
Definition set_clc (v : option nat) (r : Router) : Router :=
  {| basePath := basePath r; components := components r; data := data r;
     clc := v; cancelFlags := cancelFlags r; _bps := _bps r;
     events := events r; isSsr := isSsr r;
     _inFlightRoute := _inFlightRoute r; _shallow := _shallow r;
     locales := locales r; defaultLocale := defaultLocale r;
     domainLocales := domainLocales r; isReady := isReady r;
     isLocaleDomain := isLocaleDomain r;
     isFirstPopStateEvent := isFirstPopStateEvent r; state := state r;
     _key := _key r; history := history r; historyIndex := historyIndex r;
     location := location r; hostname := hostname r;
     hardNavigations := hardNavigations r; reloads := reloads r;
     scrollStorage := scrollStorage r; pageOffset := pageOffset r;
     scrolledTo := scrolledTo r; documentLang := documentLang r;
     scriptsLoaded := scriptsLoaded r; published := published r;
     keys := keys r; keysUsed := keysUsed r |}.
Definition set_cancelFlags (v : list bool) (r : Router) : Router :=
  {| basePath := basePath r; components := components r; data := data r;
     clc := clc r; cancelFlags := v; _bps := _bps r; events := events r;
     isSsr := isSsr r; _inFlightRoute := _inFlightRoute r;
     _shallow := _shallow r; locales := locales r;
     defaultLocale := defaultLocale r; domainLocales := domainLocales r;
     isReady := isReady r; isLocaleDomain := isLocaleDomain r;
     isFirstPopStateEvent := isFirstPopStateEvent r; state := state r;
     _key := _key r; history := history r; historyIndex := historyIndex r;
     location := location r; hostname := hostname r;
     hardNavigations := hardNavigations r; reloads := reloads r;
     scrollStorage := scrollStorage r; pageOffset := pageOffset r;
     scrolledTo := scrolledTo r; documentLang := documentLang r;
     scriptsLoaded := scriptsLoaded r; published := published r;
     keys := keys r; keysUsed := keysUsed r |}.
Definition set_bps (v : option (HistoryState -> bool)) (r : Router) : Router :=
  {| basePath := basePath r; components := components r; data := data r;
     clc := clc r; cancelFlags := cancelFlags r; _bps := v;
     events := events r; isSsr := isSsr r;
     _inFlightRoute := _inFlightRoute r; _shallow := _shallow r;
     locales := locales r; defaultLocale := defaultLocale r;
     domainLocales := domainLocales r; isReady := isReady r;
     isLocaleDomain := isLocaleDomain r;
     isFirstPopStateEvent := isFirstPopStateEvent r; state := state r;
     _key := _key r; history := history r; historyIndex := historyIndex r;
     location := location r; hostname := hostname r;
     hardNavigations := hardNavigations r; reloads := reloads r;
     scrollStorage := scrollStorage r; pageOffset := pageOffset r;
     scrolledTo := scrolledTo r; documentLang := documentLang r;
     scriptsLoaded := scriptsLoaded r; published := published r;
     keys := keys r; keysUsed := keysUsed r |}.
Definition set_events (v : list RouterEvent) (r : Router) : Router :=
  {| basePath := basePath r; components := components r; data := data r;
     clc := clc r; cancelFlags := cancelFlags r; _bps := _bps r; events := v;
     isSsr := isSsr r; _inFlightRoute := _inFlightRoute r;
     _shallow := _shallow r; locales := locales r;
     defaultLocale := defaultLocale r; domainLocales := domainLocales r;
     isReady := isReady r; isLocaleDomain := isLocaleDomain r;
     isFirstPopStateEvent := isFirstPopStateEvent r; state := state r;
     _key := _key r; history := history r; historyIndex := historyIndex r;
     location := location r; hostname := hostname r;
     hardNavigations := hardNavigations r; reloads := reloads r;
     scrollStorage := scrollStorage r; pageOffset := pageOffset r;
     scrolledTo := scrolledTo r; documentLang := documentLang r;
     scriptsLoaded := scriptsLoaded r; published := published r;
     keys := keys r; keysUsed := keysUsed r |}.
Definition set_isSsr (v : bool) (r : Router) : Router :=
  {| basePath := basePath r; components := components r; data := data r;
     clc := clc r; cancelFlags := cancelFlags r; _bps := _bps r;
     events := events r; isSsr := v; _inFlightRoute := _inFlightRoute r;
     _shallow := _shallow r; locales := locales r;
     defaultLocale := defaultLocale r; domainLocales := domainLocales r;
     isReady := isReady r; isLocaleDomain := isLocaleDomain r;
     isFirstPopStateEvent := isFirstPopStateEvent r; state := state r;
     _key := _key r; history := history r; historyIndex := historyIndex r;
     location := location r; hostname := hostname r;
     hardNavigations := hardNavigations r; reloads := reloads r;
     scrollStorage := scrollStorage r; pageOffset := pageOffset r;
     scrolledTo := scrolledTo r; documentLang := documentLang r;
     scriptsLoaded := scriptsLoaded r; published := published r;
     keys := keys r; keysUsed := keysUsed r |}.
Definition set_inFlightRoute (v : option string) (r : Router) : Router :=
  {| basePath := basePath r; components := components r; data := data r;
     clc := clc r; cancelFlags := cancelFlags r; _bps := _bps r;
     events := events r; isSsr := isSsr r; _inFlightRoute := v;
     _shallow := _shallow r; locales := locales r;
     defaultLocale := defaultLocale r; domainLocales := domainLocales r;
     isReady := isReady r; isLocaleDomain := isLocaleDomain r;
     isFirstPopStateEvent := isFirstPopStateEvent r; state := state r;
     _key := _key r; history := history r; historyIndex := historyIndex r;
     location := location r; hostname := hostname r;
     hardNavigations := hardNavigations r; reloads := reloads r;
     scrollStorage := scrollStorage r; pageOffset := pageOffset r;
     scrolledTo := scrolledTo r; documentLang := documentLang r;
     scriptsLoaded := scriptsLoaded r; published := published r;
     keys := keys r; keysUsed := keysUsed r |}.
Definition set_shallow (v : option bool) (r : Router) : Router :=
  {| basePath := basePath r; components := components r; data := data r;
     clc := clc r; cancelFlags := cancelFlags r; _bps := _bps r;
     events := events r; isSsr := isSsr r;
     _inFlightRoute := _inFlightRoute r; _shallow := v; locales := locales r;
     defaultLocale := defaultLocale r; domainLocales := domainLocales r;
     isReady := isReady r; isLocaleDomain := isLocaleDomain r;
     isFirstPopStateEvent := isFirstPopStateEvent r; state := state r;
     _key := _key r; history := history r; historyIndex := historyIndex r;
     location := location r; hostname := hostname r;
     hardNavigations := hardNavigations r; reloads := reloads r;
     scrollStorage := scrollStorage r; pageOffset := pageOffset r;
     scrolledTo := scrolledTo r; documentLang := documentLang r;
     scriptsLoaded := scriptsLoaded r; published := published r;
     keys := keys r; keysUsed := keysUsed r |}.
Definition set_isReady (v : bool) (r : Router) : Router :=
  {| basePath := basePath r; components := components r; data := data r;
     clc := clc r; cancelFlags := cancelFlags r; _bps := _bps r;
     events := events r; isSsr := isSsr r;
     _inFlightRoute := _inFlightRoute r; _shallow := _shallow r;
     locales := locales r; defaultLocale := defaultLocale r;
     domainLocales := domainLocales r; isReady := v;
     isLocaleDomain := isLocaleDomain r;
     isFirstPopStateEvent := isFirstPopStateEvent r; state := state r;
     _key := _key r; history := history r; historyIndex := historyIndex r;
     location := location r; hostname := hostname r;
     hardNavigations := hardNavigations r; reloads := reloads r;
     scrollStorage := scrollStorage r; pageOffset := pageOffset r;
     scrolledTo := scrolledTo r; documentLang := documentLang r;
     scriptsLoaded := scriptsLoaded r; published := published r;
     keys := keys r; keysUsed := keysUsed r |}.
Definition set_isFirstPopStateEvent (v : bool) (r : Router) : Router :=
  {| basePath := basePath r; components := components r; data := data r;
     clc := clc r; cancelFlags := cancelFlags r; _bps := _bps r;
     events := events r; isSsr := isSsr r;
     _inFlightRoute := _inFlightRoute r; _shallow := _shallow r;
     locales := locales r; defaultLocale := defaultLocale r;
     domainLocales := domainLocales r; isReady := isReady r;
     isLocaleDomain := isLocaleDomain r; isFirstPopStateEvent := v;
     state := state r; _key := _key r; history := history r;
     historyIndex := historyIndex r; location := location r;
     hostname := hostname r; hardNavigations := hardNavigations r;
     reloads := reloads r; scrollStorage := scrollStorage r;
     pageOffset := pageOffset r; scrolledTo := scrolledTo r;
     documentLang := documentLang r; scriptsLoaded := scriptsLoaded r;
     published := published r; keys := keys r; keysUsed := keysUsed r |}.
Definition set_state (v : RouterState) (r : Router) : Router :=
  {| basePath := basePath r; components := components r; data := data r;
     clc := clc r; cancelFlags := cancelFlags r; _bps := _bps r;
     events := events r; isSsr := isSsr r;
     _inFlightRoute := _inFlightRoute r; _shallow := _shallow r;
     locales := locales r; defaultLocale := defaultLocale r;
     domainLocales := domainLocales r; isReady := isReady r;
     isLocaleDomain := isLocaleDomain r;
     isFirstPopStateEvent := isFirstPopStateEvent r; state := v;
     _key := _key r; history := history r; historyIndex := historyIndex r;
     location := location r; hostname := hostname r;
     hardNavigations := hardNavigations r; reloads := reloads r;
     scrollStorage := scrollStorage r; pageOffset := pageOffset r;
     scrolledTo := scrolledTo r; documentLang := documentLang r;
     scriptsLoaded := scriptsLoaded r; published := published r;
     keys := keys r; keysUsed := keysUsed r |}.
Definition set_key (v : string) (r : Router) : Router :=
  {| basePath := basePath r; components := components r; data := data r;
     clc := clc r; cancelFlags := cancelFlags r; _bps := _bps r;
     events := events r; isSsr := isSsr r;
     _inFlightRoute := _inFlightRoute r; _shallow := _shallow r;
     locales := locales r; defaultLocale := defaultLocale r;
     domainLocales := domainLocales r; isReady := isReady r;
     isLocaleDomain := isLocaleDomain r;
     isFirstPopStateEvent := isFirstPopStateEvent r; state := state r;
     _key := v; history := history r; historyIndex := historyIndex r;
     location := location r; hostname := hostname r;
     hardNavigations := hardNavigations r; reloads := reloads r;
     scrollStorage := scrollStorage r; pageOffset := pageOffset r;
     scrolledTo := scrolledTo r; documentLang := documentLang r;
     scriptsLoaded := scriptsLoaded r; published := published r;
     keys := keys r; keysUsed := keysUsed r |}.
Definition set_history (v : list HistoryEntry) (r : Router) : Router :=
  {| basePath := basePath r; components := components r; data := data r;
     clc := clc r; cancelFlags := cancelFlags r; _bps := _bps r;
     events := events r; isSsr := isSsr r;
     _inFlightRoute := _inFlightRoute r; _shallow := _shallow r;
     locales := locales r; defaultLocale := defaultLocale r;
     domainLocales := domainLocales r; isReady := isReady r;
     isLocaleDomain := isLocaleDomain r;
     isFirstPopStateEvent := isFirstPopStateEvent r; state := state r;
     _key := _key r; history := v; historyIndex := historyIndex r;
     location := location r; hostname := hostname r;
     hardNavigations := hardNavigations r; reloads := reloads r;
     scrollStorage := scrollStorage r; pageOffset := pageOffset r;
     scrolledTo := scrolledTo r; documentLang := documentLang r;
     scriptsLoaded := scriptsLoaded r; published := published r;
     keys := keys r; keysUsed := keysUsed r |}.
Definition set_historyIndex (v : nat) (r : Router) : Router :=
  {| basePath := basePath r; components := components r; data := data r;
     clc := clc r; cancelFlags := cancelFlags r; _bps := _bps r;
     events := events r; isSsr := isSsr r;
     _inFlightRoute := _inFlightRoute r; _shallow := _shallow r;
     locales := locales r; defaultLocale := defaultLocale r;
     domainLocales := domainLocales r; isReady := isReady r;
     isLocaleDomain := isLocaleDomain r;
     isFirstPopStateEvent := isFirstPopStateEvent r; state := state r;
     _key := _key r; history := history r; historyIndex := v;
     location := location r; hostname := hostname r;
     hardNavigations := hardNavigations r; reloads := reloads r;
     scrollStorage := scrollStorage r; pageOffset := pageOffset r;
     scrolledTo := scrolledTo r; documentLang := documentLang r;
     scriptsLoaded := scriptsLoaded r; published := published r;
     keys := keys r; keysUsed := keysUsed r |}.
Definition set_location (v : string) (r : Router) : Router :=
  {| basePath := basePath r; components := components r; data := data r;
     clc := clc r; cancelFlags := cancelFlags r; _bps := _bps r;
     events := events r; isSsr := isSsr r;
     _inFlightRoute := _inFlightRoute r; _shallow := _shallow r;
     locales := locales r; defaultLocale := defaultLocale r;
     domainLocales := domainLocales r; isReady := isReady r;
     isLocaleDomain := isLocaleDomain r;
     isFirstPopStateEvent := isFirstPopStateEvent r; state := state r;
     _key := _key r; history := history r; historyIndex := historyIndex r;
     location := v; hostname := hostname r;
     hardNavigations := hardNavigations r; reloads := reloads r;
     scrollStorage := scrollStorage r; pageOffset := pageOffset r;
     scrolledTo := scrolledTo r; documentLang := documentLang r;
     scriptsLoaded := scriptsLoaded r; published := published r;
     keys := keys r; keysUsed := keysUsed r |}.
Definition set_hardNavigations (v : list string) (r : Router) : Router :=
  {| basePath := basePath r; components := components r; data := data r;
     clc := clc r; cancelFlags := cancelFlags r; _bps := _bps r;
     events := events r; isSsr := isSsr r;
     _inFlightRoute := _inFlightRoute r; _shallow := _shallow r;
     locales := locales r; defaultLocale := defaultLocale r;
     domainLocales := domainLocales r; isReady := isReady r;
     isLocaleDomain := isLocaleDomain r;
     isFirstPopStateEvent := isFirstPopStateEvent r; state := state r;
     _key := _key r; history := history r; historyIndex := historyIndex r;
     location := location r; hostname := hostname r; hardNavigations := v;
     reloads := reloads r; scrollStorage := scrollStorage r;
     pageOffset := pageOffset r; scrolledTo := scrolledTo r;
     documentLang := documentLang r; scriptsLoaded := scriptsLoaded r;
     published := published r; keys := keys r; keysUsed := keysUsed r |}.
Definition set_reloads (v : nat) (r : Router) : Router :=
  {| basePath := basePath r; components := components r; data := data r;
     clc := clc r; cancelFlags := cancelFlags r; _bps := _bps r;
     events := events r; isSsr := isSsr r;
     _inFlightRoute := _inFlightRoute r; _shallow := _shallow r;
     locales := locales r; defaultLocale := defaultLocale r;
     domainLocales := domainLocales r; isReady := isReady r;
     isLocaleDomain := isLocaleDomain r;
     isFirstPopStateEvent := isFirstPopStateEvent r; state := state r;
     _key := _key r; history := history r; historyIndex := historyIndex r;
     location := location r; hostname := hostname r;
     hardNavigations := hardNavigations r; reloads := v;
     scrollStorage := scrollStorage r; pageOffset := pageOffset r;
     scrolledTo := scrolledTo r; documentLang := documentLang r;
     scriptsLoaded := scriptsLoaded r; published := published r;
     keys := keys r; keysUsed := keysUsed r |}.
Definition set_scrollStorage (v : gmap string (Z * Z)) (r : Router) : Router :=
  {| basePath := basePath r; components := components r; data := data r;
     clc := clc r; cancelFlags := cancelFlags r; _bps := _bps r;
     events := events r; isSsr := isSsr r;
     _inFlightRoute := _inFlightRoute r; _shallow := _shallow r;
     locales := locales r; defaultLocale := defaultLocale r;
     domainLocales := domainLocales r; isReady := isReady r;
     isLocaleDomain := isLocaleDomain r;
     isFirstPopStateEvent := isFirstPopStateEvent r; state := state r;
     _key := _key r; history := history r; historyIndex := historyIndex r;
     location := location r; hostname := hostname r;
     hardNavigations := hardNavigations r; reloads := reloads r;
     scrollStorage := v; pageOffset := pageOffset r;
     scrolledTo := scrolledTo r; documentLang := documentLang r;
     scriptsLoaded := scriptsLoaded r; published := published r;
     keys := keys r; keysUsed := keysUsed r |}.
Definition set_scrolledTo (v : list string) (r : Router) : Router :=
  {| basePath := basePath r; components := components r; data := data r;
     clc := clc r; cancelFlags := cancelFlags r; _bps := _bps r;
     events := events r; isSsr := isSsr r;
     _inFlightRoute := _inFlightRoute r; _shallow := _shallow r;
     locales := locales r; defaultLocale := defaultLocale r;
     domainLocales := domainLocales r; isReady := isReady r;
     isLocaleDomain := isLocaleDomain r;
     isFirstPopStateEvent := isFirstPopStateEvent r; state := state r;
     _key := _key r; history := history r; historyIndex := historyIndex r;
     location := location r; hostname := hostname r;
     hardNavigations := hardNavigations r; reloads := reloads r;
     scrollStorage := scrollStorage r; pageOffset := pageOffset r;
     scrolledTo := v; documentLang := documentLang r;
     scriptsLoaded := scriptsLoaded r; published := published r;
     keys := keys r; keysUsed := keysUsed r |}.
Definition set_documentLang (v : option string) (r : Router) : Router :=
  {| basePath := basePath r; components := components r; data := data r;
     clc := clc r; cancelFlags := cancelFlags r; _bps := _bps r;
     events := events r; isSsr := isSsr r;
     _inFlightRoute := _inFlightRoute r; _shallow := _shallow r;
     locales := locales r; defaultLocale := defaultLocale r;
     domainLocales := domainLocales r; isReady := isReady r;
     isLocaleDomain := isLocaleDomain r;
     isFirstPopStateEvent := isFirstPopStateEvent r; state := state r;
     _key := _key r; history := history r; historyIndex := historyIndex r;
     location := location r; hostname := hostname r;
     hardNavigations := hardNavigations r; reloads := reloads r;
     scrollStorage := scrollStorage r; pageOffset := pageOffset r;
     scrolledTo := scrolledTo r; documentLang := v;
     scriptsLoaded := scriptsLoaded r; published := published r;
     keys := keys r; keysUsed := keysUsed r |}.
Definition set_scriptsLoaded (v : list Value) (r : Router) : Router :=
  {| basePath := basePath r; components := components r; data := data r;
     clc := clc r; cancelFlags := cancelFlags r; _bps := _bps r;
     events := events r; isSsr := isSsr r;
     _inFlightRoute := _inFlightRoute r; _shallow := _shallow r;
     locales := locales r; defaultLocale := defaultLocale r;
     domainLocales := domainLocales r; isReady := isReady r;
     isLocaleDomain := isLocaleDomain r;
     isFirstPopStateEvent := isFirstPopStateEvent r; state := state r;
     _key := _key r; history := history r; historyIndex := historyIndex r;
     location := location r; hostname := hostname r;
     hardNavigations := hardNavigations r; reloads := reloads r;
     scrollStorage := scrollStorage r; pageOffset := pageOffset r;
     scrolledTo := scrolledTo r; documentLang := documentLang r;
     scriptsLoaded := v; published := published r; keys := keys r;
     keysUsed := keysUsed r |}.
Definition set_published (v : list Published) (r : Router) : Router :=
  {| basePath := basePath r; components := components r; data := data r;
     clc := clc r; cancelFlags := cancelFlags r; _bps := _bps r;
     events := events r; isSsr := isSsr r;
     _inFlightRoute := _inFlightRoute r; _shallow := _shallow r;
     locales := locales r; defaultLocale := defaultLocale r;
     domainLocales := domainLocales r; isReady := isReady r;
     isLocaleDomain := isLocaleDomain r;
     isFirstPopStateEvent := isFirstPopStateEvent r; state := state r;
     _key := _key r; history := history r; historyIndex := historyIndex r;
     location := location r; hostname := hostname r;
     hardNavigations := hardNavigations r; reloads := reloads r;
     scrollStorage := scrollStorage r; pageOffset := pageOffset r;
     scrolledTo := scrolledTo r; documentLang := documentLang r;
     scriptsLoaded := scriptsLoaded r; published := v; keys := keys r;
     keysUsed := keysUsed r |}.
Definition set_keysUsed (v : nat) (r : Router) : Router :=
  {| basePath := basePath r; components := components r; data := data r;
     clc := clc r; cancelFlags := cancelFlags r; _bps := _bps r;
     events := events r; isSsr := isSsr r;
     _inFlightRoute := _inFlightRoute r; _shallow := _shallow r;
     locales := locales r; defaultLocale := defaultLocale r;
     domainLocales := domainLocales r; isReady := isReady r;
     isLocaleDomain := isLocaleDomain r;
     isFirstPopStateEvent := isFirstPopStateEvent r; state := state r;
     _key := _key r; history := history r; historyIndex := historyIndex r;
     location := location r; hostname := hostname r;
     hardNavigations := hardNavigations r; reloads := reloads r;
     scrollStorage := scrollStorage r; pageOffset := pageOffset r;
     scrolledTo := scrolledTo r; documentLang := documentLang r;
     scriptsLoaded := scriptsLoaded r; published := published r;
     keys := keys r; keysUsed := v |}.

(** ** The imported helpers

    The URL helpers that router.ts imports (client/add-base-path,
    client/add-locale, utils/parse-path, utils/format-url, ...), the
    synchronous part of the page loader and the page data of the window.
    They are parameters of the model. *)

Record URLParts := mkURLParts {
  url_origin : string;
  url_pathname : string;
  url_href : string;
}.

Record NextConfig := mkNextConfig {
  cfg_basePath : string;
  cfg_locales : option (list string);
  cfg_trailingSlash : bool;
}.

Record LocalePathResult := mkLocalePathResult {
  detectedLocale : option string;
  lp_pathname : string;
}.

Class UrlUtils := {
  Rewrites : Type;
  isAbsoluteUrl : string -> bool;
  (** [getLocationOrigin()] *)
  locationOrigin : string;
  (** [new URL(url, base)]; [None] when it throws. *)
  newURL : string -> string -> option URLParts;
  hasBasePath : string -> bool;
  removeBasePath : string -> string;
  (** [addBasePath(path, required)] *)
  addBasePath : string -> bool -> string;
  (** [addLocale(path, locale, defaultLocale)] *)
  addLocale : string -> LocaleOption -> option string -> string;
  removeLocale : string -> option string -> string;
  parsePath : string -> ParsedUrl;
  (** [parseRelativeUrl(url)]; [None] when it throws. *)
  parseRelativeUrl : string -> option ParsedUrl;
  formatWithValidation : ParsedUrl -> string;
  normalizeLocalePath : string -> option (list string) -> LocalePathResult;
  (** [detectDomainLocale(domainLocales, hostname, detectedLocale)] *)
  detectDomainLocale :
    list DomainLocale -> option string -> option string -> option DomainLocale;
  (** [resolveRewrites(asPath, pages, rewrites, query, resolveHref, locales)] *)
  resolveRewrites :
    string -> list string -> Rewrites -> Query -> (string -> string) ->
    option (list string) -> RewritesResult;
  (** [getNextPathnameInfo(pathname, { nextConfig, parseData: true })] *)
  getNextPathnameInfo : string -> option NextConfig -> PathnameInfo;
  (** [formatNextPathnameInfo({ ...info, defaultLocale })] *)
  formatNextPathnameInfo : PathnameInfo -> option string -> string;
  compareRouterStates : RouterState -> RouterState -> bool;
  (** [prepareUrlAs(router, url, as)], which reads the [pathname] and the
      [asPath] of the router; it returns [url] and [as].  The function and
      [resolveHref] under it are not embedded. *)
  prepareUrlAs : RouterState -> string -> option string -> string * string;
  (** [new RegExp(source).test(s)] *)
  regexp_test : string -> string -> bool;
  (** [pageLoader.getDataHref({ href, skipInterpolation, asPath, locale })] *)
  getDataHref : string -> bool -> string -> option string -> string;
  (** [isValidElementType] of react-is *)
  isValidElementType : Component -> bool;
  (** [self.__NEXT_DATA__.props] *)
  NEXT_DATA_props : Value;
  (** [process.env.__NEXT_SCROLL_RESTORATION] and the rest of the
      condition of [manualScrollRestoration] *)
  manualScrollRestoration : bool;
}.

(** ** Asynchronous procedures

    What a procedure can wait for; the index is the type of the answer. *)
Inductive Wait `{UrlUtils} : Type -> Type :=
(** [Promise.all([getPageList(), getClientBuildManifest(), ...])]: the
    page list and the rewrites of the build manifest *)
| GetPageList : Wait (Settled (list string * Rewrites))
(** [pageLoader.getMiddleware()]: the sources of the matchers *)
| GetMiddleware : Wait (Settled (option (list string)))
(** a promise of the data layer *)
| DataPromise (promise : nat) : Wait (Settled FetchDataOutput)
(** [pageLoader.loadPage(route)] *)
| LoadPage (route : string) : Wait (Settled PageResult)
(** [loadGetInitialProps(App, { Component, ctx })]; the context is
    [pathname], [query], [asPath] and the error *)
| LoadGetInitialProps (c : Component) (pathname : string) (query : Query)
    (asPath : option string) (err : option Error) : Wait (Settled Value)
(** the promise returned by the subscription [sub] *)
| Subscription (call : Published) : Wait (Settled ()).

(** A procedure runs on the router until it returns, throws, waits, or
    returns a promise that never settles ([new Promise(() => {})]). *)
Inductive Proc `{UrlUtils} (A : Type) : Type :=
| Ret (a : A)
| Throw (e : Error)
| Never
| GetRouter (k : Router -> Proc A)
| PutRouter (r : Router) (k : Proc A)
| Await {X : Type} (w : Wait X) (k : X -> Proc A).

Arguments Ret {_ A} a.
Arguments Throw {_ A} e.
Arguments Never {_ A}.
Arguments GetRouter {_ A} k.
Arguments PutRouter {_ A} r k.
Arguments Await {_ A X} w k.

(** Where a procedure stands after running as far as it can. *)
Inductive Status `{UrlUtils} (A : Type) : Type :=
| Returned (a : A)
| Threw (e : Error)
| Hangs
| Waiting {X : Type} (w : Wait X) (k : X -> Proc A).

Arguments Returned {_ A} a.
Arguments Threw {_ A} e.
Arguments Hangs {_ A}.
Arguments Waiting {_ A X} w k.

Section Procedures.
Context `{BuildEnv} `{RouteUtils} `{UrlUtils}.

Fixpoint bind {A B : Type} (p : Proc A) (f : A -> Proc B) : Proc B :=
  match p with
  | Ret a => f a
  | Throw e => Throw e
  | Never => Never
  | GetRouter k => GetRouter (fun r => bind (k r) f)
  | PutRouter r k => PutRouter r (bind k f)
  | Await w k => Await w (fun x => bind (k x) f)
  end.

(** [try { p } catch (e) { handler(e) }] *)
Fixpoint try_catch {A : Type} (p : Proc A) (handler : Error -> Proc A) : Proc A :=
  match p with
  | Ret a => Ret a
  | Throw e => handler e
  | Never => Never
  | GetRouter k => GetRouter (fun r => try_catch (k r) handler)
  | PutRouter r k => PutRouter r (try_catch k handler)
  | Await w k => Await w (fun x => try_catch (k x) handler)
  end.

(** The settled value of a procedure, for [.then] and [.catch] chains. *)
Definition settled {A : Type} (p : Proc A) : Proc (Settled A) :=
  try_catch (bind p (fun a => Ret (Fulfilled a))) (fun e => Ret (Rejected e)).

Definition gets {A : Type} (f : Router -> A) : Proc A :=
  GetRouter (fun r => Ret (f r)).

Definition modify (f : Router -> Router) : Proc () :=
  GetRouter (fun r => PutRouter (f r) (Ret ())).

(** [await w]: a rejection is thrown at the point of the [await]. *)
Definition await {A : Type} (w : Wait (Settled A)) : Proc A :=
  Await w (fun x => match x with Fulfilled a => Ret a | Rejected e => Throw e end).

(** Runs a procedure on the router up to its next [await]. *)
Fixpoint run {A : Type} (p : Proc A) (r : Router) : Router * Status A :=
  match p with
  | Ret a => (r, Returned a)
  | Throw e => (r, Threw e)
  | Never => (r, Hangs)
  | GetRouter k => run (k r) r
  | PutRouter r' k => run k r'
  | Await w k => (r, Waiting w k)
  end.

End Procedures.

Declare Scope proc_scope.
Delimit Scope proc_scope with proc.
Notation "x <- p ;; q" := (bind p (fun x => q))
  (at level 100, p at level 99, q at level 200, right associativity, only parsing)
  : proc_scope.
Notation "' pat <- p ;; q" := (bind p (fun x => match x with pat => q end))
  (at level 100, pat pattern, p at level 99, q at level 200, right associativity,
   only parsing) : proc_scope.
Notation "p ;; q" := (bind p (fun _ => q))
  (at level 100, q at level 200, right associativity, only parsing) : proc_scope.

Section RouterBasics.
Context `{BuildEnv} `{RouteUtils} `{UrlUtils}.
Local Open Scope proc_scope.

(** ** Small helpers of router.ts *)

(** [omit(object, keys)] *)
Definition omit (object : Query) (keys : list string) : Query :=
  filter (fun kv => kv.1 ∉ keys) object.

(** [Object.assign(target, source)]: the entries of [source] win. *)
Definition assign (target source : Query) : Query := source ∪ target.

(** [isLocalURL] *)
Definition isLocalURL (url : string) : bool :=
  if negb (isAbsoluteUrl url) then true
  else
    match newURL url locationOrigin with
    | Some resolved =>
        String.eqb (url_origin resolved) locationOrigin
        && hasBasePath (url_pathname resolved)
    | None => false
    end.

Definition locale_option (l : option string) : LocaleOption :=
  match l with
  | Some l => LocaleName l
  | None => LocaleUndefined
  end.

(** [createKey]: the next value of [Math.random().toString(36).slice(2, 10)] *)
Definition createKey : Proc string :=
  r <- gets (fun r => r) ;;
  modify (set_keysUsed (S (keysUsed r))) ;;
  Ret (keys r (keysUsed r)).

Definition emit (e : RouterEvent) : Proc () :=
  modify (fun r => set_events (events r ++ [e]) r).

(** [handleHardNavigation] *)
Definition handleHardNavigation (url : string) : Proc () :=
  r <- gets (fun r => r) ;;
  if String.eqb url
       (addBasePath (addLocale (st_asPath (state r)) (locale_option (st_locale (state r)))
                       None) false)
  then Throw (plainError
         ("Invariant: attempted to hard navigate to the same URL " +:+ url +:+ " "
          +:+ locationOrigin +:+ location r))
  else modify (fun r => set_hardNavigations (hardNavigations r ++ [url]) r).

(** ** Cancellation

    [getCancelledHandler] creates a closure with its own [cancelled]
    flag, stores it in [router.clc] and returns [handleCancelled].  In the
    model the closure is the index of a fresh flag, and [handleCancelled]
    takes that index. *)
Definition getCancelledHandler : Proc nat :=
  r <- gets (fun r => r) ;;
  let cancel := length (cancelFlags r) in
  modify (fun r => set_clc (Some cancel) (set_cancelFlags (cancelFlags r ++ [false]) r)) ;;
  Ret cancel.

(** [router.clc()] for the closure [cancel] *)
Definition call_cancel (cancel : nat) : Proc () :=
  modify (fun r => set_cancelFlags (<[cancel := true]> (cancelFlags r)) r).

Definition is_cancelled (cancel : nat) (r : Router) : bool :=
  default false (cancelFlags r !! cancel).

Definition handleCancelled (route : string) (cancel : nat) : Proc () :=
  r <- gets (fun r => r) ;;
  if is_cancelled cancel r then
    Throw {| message := "Abort fetching component for route: " +:+ dquote_string
                        +:+ route +:+ dquote_string;
             cancelled := true; assetError := false |}
  else if bool_decide (clc r = Some cancel) then modify (set_clc None)
  else Ret ().

(** ** History *)

(** [window.history[method](state, '', as)]: [pushState] drops the entries
    after the current one and adds an entry, which becomes the current
    one; [replaceState] overwrites the current entry. *)
Definition history_write (method : HistoryMethod) (st : HistoryState) (as_ : string)
    (r : Router) : Router :=
  let entry := {| entry_state := st; entry_url := as_ |} in
  set_location as_
    match method with
    | pushState =>
        set_historyIndex (length (take (S (historyIndex r)) (history r)))
          (set_history (take (S (historyIndex r)) (history r) ++ [entry]) r)
    | replaceState =>
        set_history (<[historyIndex r := entry]> (history r)) r
    end.

(** [changeState].  The browser always has [window.history] and both
    methods, so the two checks made outside production pass. *)
Definition changeState (method : HistoryMethod) (url as_ : string)
    (options : TransitionOptions) : Proc () :=
  r <- gets (fun r => r) ;;
  if negb (bool_decide (method = pushState)) || negb (String.eqb (location r) as_) then
    modify (set_shallow (shallow options)) ;;
    key <- (if negb (bool_decide (method = pushState)) then gets _key else createKey) ;;
    modify (set_key key) ;;
    modify (history_write method (HistoryN url as_ options key) as_)
  else Ret ().

(** ** Hash changes *)

(** [const [a, b] = s.split('#')] *)
Definition split_hash (s : string) : string * option string :=
  match split_on "#" s with
  | a :: b :: _ => (a, Some b)
  | a :: [] => (a, None)
  | [] => ("", None)
  end.

(** [onlyAHashChange] *)
Definition onlyAHashChange (as_ : string) (r : Router) : bool :=
  if String.eqb (st_asPath (state r)) "" then false
  else
    let '(oldUrlNoHash, oldHash) := split_hash (st_asPath (state r)) in
    let '(newUrlNoHash, newHash) := split_hash as_ in
    if truthy newHash && String.eqb oldUrlNoHash newUrlNoHash
       && bool_decide (oldHash = newHash) then true
    else if negb (String.eqb oldUrlNoHash newUrlNoHash) then false
    else negb (bool_decide (oldHash = newHash)).

(** [scrollToHash]: only what it was asked to scroll to is recorded. *)
Definition scrollToHash (as_ : string) : Proc () :=
  modify (fun r => set_scrolledTo (scrolledTo r ++ [as_]) r).

(** [urlIsNew] *)
Definition urlIsNew (asPath : string) (r : Router) : bool :=
  negb (String.eqb (st_asPath (state r)) asPath).

(** [set]: the state is assigned, then the subscription is called. *)
Definition set (st : RouterState) (data_ : option RouteInfo) (resetScroll : option (Z * Z))
    : Proc () :=
  modify (set_state st) ;;
  r <- gets (fun r => r) ;;
  match components r !! "/_app" with
  | Some app =>
      let call := {| pub_data := data_; pub_App := ri_Component app;
                     pub_resetScroll := resetScroll |} in
      modify (fun r => set_published (published r ++ [call]) r) ;;
      await (Subscription call)
  | None => Throw (plainError "Cannot read properties of undefined (reading 'Component')")
  end.

End RouterBasics.

Section Middleware.
Context `{BuildEnv} `{RouteUtils} `{UrlUtils}.
Local Open Scope proc_scope.

(** ** The middleware effect *)

Inductive MiddlewareEffect : Type :=
| EffectRewrite (parsedAs : ParsedUrl) (resolvedHref : string)
| EffectRedirectInternal (newAs newUrl : string)
| EffectRedirectExternal (destination : string)
| EffectNext.

(** The [type] field of an effect. *)
Definition effect_type (e : MiddlewareEffect) : string :=
  match e with
  | EffectRewrite _ _ => "rewrite"
  | EffectRedirectInternal _ _ => "redirect-internal"
  | EffectRedirectExternal _ => "redirect-external"
  | EffectNext => "next"
  end.

(** [matchesMiddleware] *)
Definition matchesMiddleware (asPath : string) (locale_ : option string) : Proc bool :=
  matchers <- await GetMiddleware ;;
  match matchers with
  | None => Ret false
  | Some matchers =>
      let asPathname := u_pathname (parsePath asPath) in
      let cleanedAs :=
        if hasBasePath asPathname then removeBasePath asPathname else asPathname in
      let asWithBasePathAndLocale :=
        addBasePath (addLocale cleanedAs (locale_option locale_) None) false in
      Ret (existsb (fun m => regexp_test m asWithBasePathAndLocale) matchers)
  end.

(** [a || b] on two optional strings *)
Definition or_else (a b : option string) : option string :=
  if truthy a then a else b.

(** The rewrite target that [getMiddlewareData] reads from the headers:
    [x-nextjs-rewrite], else [x-nextjs-matched-path], else [x-matched-path]
    unless it names the data catch-all, the error page or the 404 page. *)
Definition rewriteTarget_of (response : Response) : option string :=
  let rewriteHeader := header response "x-nextjs-rewrite" in
  let rewriteTarget := or_else rewriteHeader (header response "x-nextjs-matched-path") in
  let matchedPath := header response "x-matched-path" in
  if truthy matchedPath && negb (truthy rewriteTarget)
     && negb (includes_string (default "" matchedPath) "__next_data_catchall")
     && negb (includes_string (default "" matchedPath) "/_error")
     && negb (includes_string (default "" matchedPath) "/404")
  then matchedPath
  else rewriteTarget.

Definition set_u_pathname (p : string) (u : ParsedUrl) : ParsedUrl :=
  {| u_pathname := p; u_query := u_query u; u_search := u_search u; u_hash := u_hash u |}.

Definition set_u_query (q : Query) (u : ParsedUrl) : ParsedUrl :=
  {| u_pathname := u_pathname u; u_query := q; u_search := u_search u; u_hash := u_hash u |}.

(** [parseRelativeUrl(url)] where a failure is thrown *)
Definition parseRelativeUrl_or_throw (url : string) : Proc ParsedUrl :=
  match parseRelativeUrl url with
  | Some parsed => Ret parsed
  | None => Throw (plainError "invariant: invalid relative URL")
  end.

(** The callback of [Promise.all([getPageList(), getClientBuildManifest()])]
    in the rewrite branch of [getMiddlewareData]. *)
Definition rewrite_effect (source : string) (rewriteHeader : option string)
    (parsedRewriteTarget : ParsedUrl) (pathnameInfo : PathnameInfo)
    (fsPathname : string) (router_locales : option (list string))
    (pages : list string) (rewrites : Rewrites) : Proc MiddlewareEffect :=
  let as_ := addLocale (info_pathname pathnameInfo)
               (locale_option (info_locale pathnameInfo)) None in
  '(as_, parsedRewriteTarget) <-
    (if isDynamicRoute as_
        || (negb (truthy rewriteHeader)
            && bool_decide (lp_pathname (normalizeLocalePath (removeBasePath as_)
                                           router_locales) ∈ pages))
     then
       parsedSource0 <- parseRelativeUrl_or_throw source ;;
       let parsedSource := getNextPathnameInfo (u_pathname parsedSource0) None in
       let as_ := addBasePath (info_pathname parsedSource) false in
       Ret (as_, set_u_pathname as_ parsedRewriteTarget)
     else Ret (as_, parsedRewriteTarget)) ;;
  let '(as_, parsedRewriteTarget, fsPathname) :=
    if NEXT_HAS_REWRITES then
      let result := resolveRewrites as_ pages rewrites (u_query parsedRewriteTarget)
                      (fun path => resolveDynamicRoute path pages) router_locales in
      if rw_matchedPage result then
        (u_pathname (rw_parsedAs result),
         set_u_query (assign (u_query parsedRewriteTarget) (u_query (rw_parsedAs result)))
           (set_u_pathname (u_pathname (rw_parsedAs result)) parsedRewriteTarget),
         fsPathname)
      else (as_, parsedRewriteTarget, fsPathname)
    else if negb (bool_decide (fsPathname ∈ pages)) then
      (as_, parsedRewriteTarget, resolveDynamicRoute fsPathname pages)
    else (as_, parsedRewriteTarget, fsPathname) in
  let resolvedHref :=
    if negb (bool_decide (fsPathname ∈ pages)) then
      resolveDynamicRoute
        (lp_pathname (normalizeLocalePath (removeBasePath (u_pathname parsedRewriteTarget))
                        router_locales)) pages
    else fsPathname in
  let parsedRewriteTarget :=
    if isDynamicRoute resolvedHref then
      set_u_query (assign (u_query parsedRewriteTarget)
                     (default ∅ (getRouteMatcher (getRouteRegex resolvedHref) as_)))
        parsedRewriteTarget
    else parsedRewriteTarget in
  Ret (EffectRewrite parsedRewriteTarget resolvedHref).

(** [getMiddlewareData].  [parsePath] returns the search string in the
    field the source calls [query]; it is [u_search] here. *)
Definition getMiddlewareData (source : string) (response : Response) : Proc MiddlewareEffect :=
  r <- gets (fun r => r) ;;
  let nextConfig := {| cfg_basePath := basePath r; cfg_locales := locales r;
                       cfg_trailingSlash := NEXT_TRAILING_SLASH |} in
  let rewriteHeader := header response "x-nextjs-rewrite" in
  let rewriteTarget := rewriteTarget_of response in
  if truthy rewriteTarget then
    let rewriteTarget := default "" rewriteTarget in
    if startsWith rewriteTarget "/" then
      parsedRewriteTarget <- parseRelativeUrl_or_throw rewriteTarget ;;
      let pathnameInfo :=
        getNextPathnameInfo (u_pathname parsedRewriteTarget) (Some nextConfig) in
      let fsPathname := removeTrailingSlash (info_pathname pathnameInfo) in
      '(pages, rewrites) <- await GetPageList ;;
      rewrite_effect source rewriteHeader parsedRewriteTarget pathnameInfo fsPathname
        (locales r) pages rewrites
    else
      let src := parsePath source in
      let info := getNextPathnameInfo (u_pathname src) (Some nextConfig) in
      let pathname := formatNextPathnameInfo
        {| info_pathname := info_pathname info; info_locale := info_locale info;
           info_basePath := info_basePath info; info_buildId := Some "" |}
        (defaultLocale r) in
      Ret (EffectRedirectExternal (pathname +:+ u_search src +:+ u_hash src))
  else
    let redirectTarget := header response "x-nextjs-redirect" in
    if truthy redirectTarget then
      let redirectTarget := default "" redirectTarget in
      if startsWith redirectTarget "/" then
        let src := parsePath redirectTarget in
        let info := getNextPathnameInfo (u_pathname src) (Some nextConfig) in
        let pathname := formatNextPathnameInfo
          {| info_pathname := info_pathname info; info_locale := info_locale info;
             info_basePath := info_basePath info; info_buildId := Some "" |}
          (defaultLocale r) in
        Ret (EffectRedirectInternal (pathname +:+ u_search src +:+ u_hash src)
               (pathname +:+ u_search src +:+ u_hash src))
      else Ret (EffectRedirectExternal redirectTarget)
    else Ret EffectNext.

(** What [withMiddlewareEffects] resolves to when a matcher matches. *)
Record MiddlewareData := mkMiddlewareData {
  md_dataHref : string;
  md_json : Value;
  md_response : Response;
  md_text : string;
  md_effect : MiddlewareEffect;
}.

(** The call [fetchNextData(params)] made on the router's data layer, and
    the [await] of the promise it returns. *)
Definition fetchNextData_call (p : FetchNextDataParams) (c : CacheRef) : Proc nat :=
  r <- gets (fun r => r) ;;
  let '(w, promise) := fetchNextData p c (data r) in
  modify (set_data w) ;;
  Ret promise.

Definition await_fetchNextData (p : FetchNextDataParams) (c : CacheRef)
    : Proc FetchDataOutput :=
  promise <- fetchNextData_call p c ;;
  await (DataPromise promise).

(** [withMiddlewareEffects]; [fetchData] is [() => fetchNextData(p)]. *)
Definition withMiddlewareEffects (fetchData : option FetchNextDataParams)
    (asPath : string) (locale_ : option string) : Proc (option MiddlewareData) :=
  matches <- matchesMiddleware asPath locale_ ;;
  match matches, fetchData with
  | true, Some p =>
      try_catch
        (data_ <- await_fetchNextData p SdcCache ;;
         effect <- getMiddlewareData (out_dataHref data_) (out_response data_) ;;
         Ret (Some {| md_dataHref := out_dataHref data_; md_json := out_json data_;
                      md_response := out_response data_; md_text := out_text data_;
                      md_effect := effect |}))
        (fun _err => Ret None)
  | _, _ => Ret None
  end.

End Middleware.

Section Results.
Context `{BuildEnv} `{RouteUtils} `{UrlUtils}.

(** Every value a procedure can return, whatever the router holds and
    whatever the answers to its [await]s are, satisfies [P]. *)
Fixpoint all_results {A : Type} (P : A -> Prop) (p : Proc A) : Prop :=
  match p with
  | Ret a => P a
  | Throw _ => True
  | Never => True
  | GetRouter k => forall r, all_results P (k r)
  | PutRouter _ k => all_results P k
  | Await w k => forall x, all_results P (k x)
  end.

(** A response with the header [name] set to [v], or removed. *)
Definition with_header (name : string) (v : option string) (response : Response)
    : Response :=
  {| status := status response;
     resp_headers := partial_alter (fun _ => v) name (resp_headers response);
     resp_text := resp_text response |}.

(** The value of [x-matched-path] names the data catch-all, the error page
    or the 404 page. *)
Definition is_sentinel (matchedPath : string) : bool :=
  includes_string matchedPath "__next_data_catchall"
  || includes_string matchedPath "/_error"
  || includes_string matchedPath "/404".

(** The response carries a rewrite: the header [x-nextjs-rewrite], or
    without it the header [x-nextjs-matched-path], or without both the
    header [x-matched-path] when its value is not a sentinel. *)
Definition carries_rewrite (response : Response) : bool :=
  truthy (header response "x-nextjs-rewrite")
  || truthy (header response "x-nextjs-matched-path")
  || (truthy (header response "x-matched-path")
      && negb (is_sentinel (default "" (header response "x-matched-path")))).

End Results.

Section RouteInfoResolution.
Context `{BuildEnv} `{RouteUtils} `{UrlUtils}.
Local Open Scope proc_scope.

(** ** Objects *)

(** [Object.assign({}, a, b)] on values: a value that is not an object
    contributes nothing. *)
Definition fields_of (v : Value) : list (string * Value) :=
  match v with
  | VObj fields => fields
  | _ => []
  end.

Definition set_field (name : string) (v : Value) (fields : list (string * Value))
    : list (string * Value) :=
  if bool_decide (is_Some (assoc name fields))
  then map (fun kv => if String.eqb kv.1 name then (name, v) else kv) fields
  else fields ++ [(name, v)].

Definition obj_assign (a b : Value) : Value :=
  VObj (fold_left (fun acc kv => set_field kv.1 kv.2 acc) (fields_of b) (fields_of a)).

(** [o.name = v]; on [null] and [undefined], and in strict mode on every
    value that is not an object, the assignment throws. *)
Definition set_prop (o : Value) (name : string) (v : Value) : Proc Value :=
  match o with
  | VObj fields => Ret (VObj (set_field name v fields))
  | _ => Throw (plainError "TypeError: Cannot create property")
  end.

(** ** Component and data loading *)

(** [_getData(fn)] *)
Definition _getData {A : Type} (fn : Proc A) : Proc A :=
  r <- gets (fun r => r) ;;
  let cancel := length (cancelFlags r) in
  modify (fun r => set_clc (Some cancel) (set_cancelFlags (cancelFlags r ++ [false]) r)) ;;
  data_ <- fn ;;
  r <- gets (fun r => r) ;;
  (if bool_decide (clc r = Some cancel) then modify (set_clc None) else Ret ()) ;;
  if is_cancelled cancel r then
    Throw {| message := "Loading initial props cancelled"; cancelled := true;
             assetError := false |}
  else Ret data_.

(** [fetchComponent] *)
Definition fetchComponent (route : string) : Proc PageResult :=
  cancel <- getCancelledHandler ;;
  try_catch
    (componentResult <- await (LoadPage route) ;;
     handleCancelled route cancel ;;
     Ret componentResult)
    (fun err => handleCancelled route cancel ;; Throw err).

(** [getInitialProps(Component, ctx)] *)
Definition getInitialProps (c : Component) (pathname : string) (query : Query)
    (asPath : option string) (err : option Error) : Proc Value :=
  r <- gets (fun r => r) ;;
  match components r !! "/_app" with
  | Some _ => await (LoadGetInitialProps c pathname query asPath err)
  | None => Throw (plainError "TypeError: Cannot destructure property 'Component'")
  end.

(** [_getFlightData] *)
Definition _getFlightData (dataHref_ : string) : Proc string :=
  out <- await_fetchNextData
    {| dataHref := dataHref_; isServerRender := true; parseJSON := Some false;
       hasMiddleware := None; persistCache := false; isPrefetch := false;
       isBackground := None; unstable_skipClientCache := None |} SdcCache ;;
  Ret (out_text out).

(** ** handleRouteInfoError

    The function calls itself once, with [loadErrorFail] set, and that
    call throws before it can recurse; [fuel] counts the calls left. *)
Fixpoint handleRouteInfoError_fuel (fuel : nat) (err : Error) (pathname : string)
    (query : Query) (as_ : string) (routeProps_shallow : bool) (loadErrorFail : bool)
    : Proc RouteInfo :=
  if cancelled err then Throw err   (* bubble up cancellation errors *)
  else if assetError err || loadErrorFail then
    emit (routeChangeError err as_ routeProps_shallow) ;;
    handleHardNavigation as_ ;;
    Throw buildCancellationError
  else
    match fuel with
    | O => Never
    | S fuel' =>
        try_catch
          (res <- fetchComponent "/_error" ;;
           props <- try_catch
                      (getInitialProps (page res) pathname query None (Some err))
                      (fun gipErr => Ret (VObj [])) ;;
           Ret {| ri_Component := page res; ri_styleSheets := page_styleSheets res;
                  ri_initial := false; ri_N_SSG := None; ri_N_SSP := None;
                  ri_N_RSC := None; ri_props := Some props; ri_err := Some err;
                  ri_error := Some err; ri_route := None; ri_resolvedAs := None;
                  ri_query := None |})
          (fun routeInfoErr =>
             handleRouteInfoError_fuel fuel' routeInfoErr pathname query as_
               routeProps_shallow true)
    end.

Definition handleRouteInfoError (err : Error) (pathname : string) (query : Query)
    (as_ : string) (routeProps_shallow : bool) : Proc RouteInfo :=
  handleRouteInfoError_fuel 1 err pathname query as_ routeProps_shallow false.

End RouteInfoResolution.

Section GetRouteInfo.
Context `{BuildEnv} `{RouteUtils} `{UrlUtils}.
Local Open Scope proc_scope.

(** ** getRouteInfo *)

(** What [getRouteInfo] returns: a route info, or one of the two redirect
    effects of the middleware (the source tells them apart with
    ['type' in routeInfo]). *)
Inductive RouteInfoResult : Type :=
| InfoResult (info : RouteInfo)
| RedirectInternalResult (newAs newUrl : string)
| RedirectExternalResult (destination : string).

Record GetRouteInfoArgs := mkGetRouteInfoArgs {
  arg_route : string;
  arg_pathname : string;
  arg_query : Query;
  arg_as : string;
  arg_resolvedAs : string;
  arg_shallow : bool;                    (* routeProps.shallow *)
  arg_locale : option string;
  arg_hasMiddleware : option bool;
  arg_isPreview : bool;
  arg_skipClientCache : option bool;     (* unstable_skipClientCache *)
}.

(** The local variables of [getRouteInfo] once the middleware effect has
    been applied. *)
Record RouteInfoVars := mkRouteInfoVars {
  var_route : string;
  var_pathname : string;
  var_query : Query;
  var_resolvedAs : string;
  var_data : option MiddlewareData;
  var_cachedRouteInfo : option RouteInfo;
  var_fetchNextDataParams : FetchNextDataParams;
}.

Inductive RouteInfoStep : Type :=
| StepReturn (result : RouteInfoResult)
| StepContinue (vars : RouteInfoVars).

Definition set_ri_route (route : string) (i : RouteInfo) : RouteInfo :=
  {| ri_Component := ri_Component i; ri_styleSheets := ri_styleSheets i;
     ri_initial := ri_initial i; ri_N_SSG := ri_N_SSG i; ri_N_SSP := ri_N_SSP i;
     ri_N_RSC := ri_N_RSC i; ri_props := ri_props i; ri_err := ri_err i;
     ri_error := ri_error i; ri_route := Some route;
     ri_resolvedAs := ri_resolvedAs i; ri_query := ri_query i |}.

Definition path_query (pathname : string) (query : Query) : ParsedUrl :=
  {| u_pathname := pathname; u_query := query; u_search := ""; u_hash := "" |}.

(** The first part of the [try] block: up to the point where the rewrite
    of the middleware has been applied to the local variables. *)
Definition getRouteInfo_start (a : GetRouteInfoArgs) : Proc RouteInfoStep :=
  let route := arg_route a in
  cancel <- getCancelledHandler ;;
  r <- gets (fun r => r) ;;
  let existingInfo := components r !! route in
  (* routeProps.shallow && existingInfo && this.route === route *)
  match (if arg_shallow a && String.eqb (st_route (state r)) route
         then existingInfo else None) with
  | Some info => Ret (StepReturn (InfoResult info))
  | None =>
      let existingInfo := if is_true (arg_hasMiddleware a) then None else existingInfo in
      let cachedRouteInfo :=
        match existingInfo with
        | Some info => if negb (ri_initial info)
                          && negb (String.eqb NODE_ENV "development")
                       then Some info else None
        | None => None
        end in
      let fetchNextDataParams :=
        {| dataHref := getDataHref
                         (formatWithValidation (path_query (arg_pathname a) (arg_query a)))
                         true (arg_resolvedAs a) (arg_locale a);
           hasMiddleware := Some true;
           isServerRender := isSsr r;
           parseJSON := Some true;
           persistCache := negb (arg_isPreview a);
           isPrefetch := false;
           isBackground := None;
           unstable_skipClientCache := arg_skipClientCache a |} in
      data_ <- withMiddlewareEffects (Some fetchNextDataParams) (arg_resolvedAs a)
                 (arg_locale a) ;;
      handleCancelled route cancel ;;
      let continue_ (route pathname : string) (query : Query) (resolvedAs : string) :=
        StepContinue {| var_route := route; var_pathname := pathname; var_query := query;
                        var_resolvedAs := resolvedAs; var_data := data_;
                        var_cachedRouteInfo := cachedRouteInfo;
                        var_fetchNextDataParams := fetchNextDataParams |} in
      match md_effect <$> data_ with
      | Some (EffectRedirectInternal newAs newUrl) =>
          Ret (StepReturn (RedirectInternalResult newAs newUrl))
      | Some (EffectRedirectExternal destination) =>
          Ret (StepReturn (RedirectExternalResult destination))
      | Some (EffectRewrite parsedAs resolvedHref) =>
          r <- gets (fun r => r) ;;
          let route := removeTrailingSlash resolvedHref in
          let pathname := resolvedHref in
          let query := assign (arg_query a) (u_query parsedAs) in
          let resolvedAs :=
            removeBasePath (lp_pathname (normalizeLocalePath (u_pathname parsedAs)
                                           (locales r))) in
          (* Check again the cache with the new destination. *)
          match components r !! route with
          | Some info =>
              if arg_shallow a && String.eqb (st_route (state r)) route
                 && negb (is_true (arg_hasMiddleware a))
              then Ret (StepReturn (InfoResult (set_ri_route route info)))
              else Ret (continue_ route pathname query resolvedAs)
          | None => Ret (continue_ route pathname query resolvedAs)
          end
      | Some EffectNext | None =>
          Ret (continue_ route (arg_pathname a) (arg_query a) (arg_resolvedAs a))
      end
  end.

Definition set_ri_resolved (props : Value) (route : string) (query : Query)
    (resolvedAs : string) (i : RouteInfo) : RouteInfo :=
  {| ri_Component := ri_Component i; ri_styleSheets := ri_styleSheets i;
     ri_initial := ri_initial i; ri_N_SSG := ri_N_SSG i; ri_N_SSP := ri_N_SSP i;
     ri_N_RSC := ri_N_RSC i; ri_props := Some props; ri_err := ri_err i;
     ri_error := ri_error i; ri_route := Some route;
     ri_resolvedAs := Some resolvedAs; ri_query := Some query |}.

Definition delete_sdc (cacheKey : string) (r : Router) : Router :=
  set_data (set_cache SdcCache (delete cacheKey (sdc (data r))) (data r)) r.

(** The callback passed to the first [_getData]: the page data, or the
    initial props. *)
Definition getRouteInfo_props (a : GetRouteInfoArgs) (v : RouteInfoVars)
    (routeInfo : RouteInfo) (shouldFetchData useStreamedFlightData : bool) : Proc Value :=
  if shouldFetchData && negb useStreamedFlightData then
    json <-
      (match var_data v with
       | Some d => if truthyV (md_json d) then Ret (Some (md_json d)) else Ret None
       | None => Ret None
       end) ;;
    json <-
      (match json with
       | Some json => Ret json
       | None =>
           r <- gets (fun r => r) ;;
           out <- await_fetchNextData
             {| dataHref := getDataHref
                              (formatWithValidation
                                 (path_query (var_pathname v) (var_query v)))
                              false (var_resolvedAs v) (arg_locale a);
                isServerRender := isSsr r;
                parseJSON := Some true;
                hasMiddleware := None;
                persistCache := negb (arg_isPreview a);
                isPrefetch := false;
                isBackground := None;
                unstable_skipClientCache := arg_skipClientCache a |} SdcCache ;;
           Ret (out_json out)
       end) ;;
    Ret (if truthyV json then json else VObj [])
  else
    getInitialProps (ri_Component routeInfo) (var_pathname v) (var_query v)
      (Some (arg_as a)) None.

(** The rest of the [try] block. *)
Definition getRouteInfo_finish (a : GetRouteInfoArgs) (v : RouteInfoVars)
    : Proc RouteInfoResult :=
  let route := var_route v in
  if String.eqb route "/api" || startsWith route "/api/" then
    handleHardNavigation (arg_as a) ;;
    Never
  else
    routeInfo <-
      (match var_cachedRouteInfo v with
       | Some info => Ret info
       | None =>
           res <- fetchComponent route ;;
           Ret {| ri_Component := page res; ri_styleSheets := page_styleSheets res;
                  ri_initial := false; ri_N_SSG := mod_N_SSG res;
                  ri_N_SSP := mod_N_SSP res;
                  ri_N_RSC := Some (is_true (mod_next_rsc res));
                  ri_props := None; ri_err := None; ri_error := None;
                  ri_route := None; ri_resolvedAs := None; ri_query := None |}
       end) ;;
    (if negb (String.eqb NODE_ENV "production")
        && negb (isValidElementType (ri_Component routeInfo))
     then Throw (plainError ("The default export is not a React Component in page: "
                             +:+ dquote_string +:+ var_pathname v +:+ dquote_string))
     else Ret ()) ;;
    let useStreamedFlightData :=
      is_true (ri_N_RSC routeInfo)
      && (negb (String.eqb NODE_ENV "production") || is_true (ri_N_SSP routeInfo)) in
    let shouldFetchData :=
      is_true (ri_N_SSG routeInfo) || is_true (ri_N_SSP routeInfo)
      || is_true (ri_N_RSC routeInfo) in
    props <- _getData (getRouteInfo_props a v routeInfo shouldFetchData
                         useStreamedFlightData) ;;
    (* Only bust the data cache for SSP routes *)
    (if is_true (ri_N_SSP routeInfo)
        && negb (String.eqb (dataHref (var_fetchNextDataParams v)) "")
     then modify (delete_sdc (absoluteHref (dataHref (var_fetchNextDataParams v))))
     else Ret ()) ;;
    (* the HEAD request in the background; its failure is ignored *)
    r <- gets (fun r => r) ;;
    (if negb (st_isPreview (state r)) && is_true (ri_N_SSG routeInfo)
        && negb (String.eqb NODE_ENV "development")
     then
       let p := var_fetchNextDataParams v in
       fetchNextData_call
         {| dataHref := dataHref p; isServerRender := isServerRender p;
            parseJSON := parseJSON p; hasMiddleware := hasMiddleware p;
            persistCache := false; isPrefetch := isPrefetch p;
            isBackground := Some true;
            unstable_skipClientCache := unstable_skipClientCache p |} BackgroundCache ;;
       Ret ()
     else Ret ()) ;;
    flightInfo <-
      (if is_true (ri_N_RSC routeInfo) then
         if useStreamedFlightData then
           flightPathname <-
             (if isDynamicRoute route then
                parsedAs <- parseRelativeUrl_or_throw (var_resolvedAs v) ;;
                Ret (result (interpolateAs (var_pathname v) (u_pathname parsedAs)
                               (var_query v)))
              else Ret (var_pathname v)) ;;
           flight <- _getData (_getFlightData
             (formatWithValidation
                (path_query flightPathname (<["__flight__" := QStr "1"]> (var_query v))))) ;;
           Ret (VObj [("__flight__", VStr flight)])
         else Ret (VObj [("__flight__", getProp props "__flight__")])
       else Ret VUndefined) ;;
    props <- set_prop props "pageProps" (obj_assign (getProp props "pageProps") flightInfo) ;;
    let routeInfo :=
      set_ri_resolved props route (var_query v) (var_resolvedAs v) routeInfo in
    modify (fun r => set_components (<[route := routeInfo]> (components r)) r) ;;
    Ret (InfoResult routeInfo).

(** [getRouteInfo]: the [catch] clause sees the local variables as the
    [try] block left them. *)
Definition getRouteInfo (a : GetRouteInfoArgs) : Proc RouteInfoResult :=
  started <- settled (getRouteInfo_start a) ;;
  match started with
  | Rejected err =>
      info <- handleRouteInfoError err (arg_pathname a) (arg_query a) (arg_as a)
                (arg_shallow a) ;;
      Ret (InfoResult info)
  | Fulfilled (StepReturn result_) => Ret result_
  | Fulfilled (StepContinue v) =>
      try_catch (getRouteInfo_finish a v)
        (fun err =>
           info <- handleRouteInfoError err (var_pathname v) (var_query v) (arg_as a)
                     (arg_shallow a) ;;
           Ret (InfoResult info))
  end.

End GetRouteInfo.

Section Change.
Context `{BuildEnv} `{RouteUtils} `{UrlUtils}.
Local Open Scope proc_scope.

(** ** change *)

Definition set_st_locale (l : option string) (s : RouterState) : RouterState :=
  {| st_route := st_route s; st_pathname := st_pathname s; st_query := st_query s;
     st_asPath := st_asPath s; st_locale := l; st_isFallback := st_isFallback s;
     st_isPreview := st_isPreview s |}.

Definition set_st_asPath (asPath : string) (s : RouterState) : RouterState :=
  {| st_route := st_route s; st_pathname := st_pathname s; st_query := st_query s;
     st_asPath := asPath; st_locale := st_locale s; st_isFallback := st_isFallback s;
     st_isPreview := st_isPreview s |}.

Definition set_st_isPreview (b : bool) (s : RouterState) : RouterState :=
  {| st_route := st_route s; st_pathname := st_pathname s; st_query := st_query s;
     st_asPath := st_asPath s; st_locale := st_locale s; st_isFallback := st_isFallback s;
     st_isPreview := b |}.

Definition set_opt_locale (l : LocaleOption) (o : TransitionOptions) : TransitionOptions :=
  {| shallow := shallow o; locale := l; scroll := scroll o;
     skipClientCache := skipClientCache o; _h := _h o;
     _shouldResolveHref := _shouldResolveHref o |}.

Definition set_opt_scroll (s : option bool) (o : TransitionOptions) : TransitionOptions :=
  {| shallow := shallow o; locale := locale o; scroll := s;
     skipClientCache := skipClientCache o; _h := _h o;
     _shouldResolveHref := _shouldResolveHref o |}.

Definition set_opt_shouldResolveHref (b : option bool) (o : TransitionOptions)
    : TransitionOptions :=
  {| shallow := shallow o; locale := locale o; scroll := scroll o;
     skipClientCache := skipClientCache o; _h := _h o; _shouldResolveHref := b |}.

(** [a || b] where [a] is the locale option and [b] a locale *)
Definition locale_or (a : LocaleOption) (b : option string) : option string :=
  match a with
  | LocaleName l => if String.eqb l "" then b else Some l
  | _ => b
  end.

Definition strip_basePath (path : string) : string :=
  if hasBasePath path then removeBasePath path else path.

(** What the locale block of [change] leaves in the local variables;
    [None] when it has started a hard navigation ([didNavigate]). *)
Record LocaleVars := mkLocaleVars {
  lv_nextState : RouterState;
  lv_options : TransitionOptions;
  lv_url : string;
  lv_as : string;
}.

(** The block of [change] under [process.env.__NEXT_I18N_SUPPORT]. *)
Definition change_locale (nextState : RouterState) (options : TransitionOptions)
    (url as_ : string) : Proc (option LocaleVars) :=
  r <- gets (fun r => r) ;;
  let nextState :=
    set_st_locale
      (match locale options with
       | LocaleFalse => defaultLocale r
       | l => locale_or l (st_locale nextState)
       end) nextState in
  let options :=
    match locale options with
    | LocaleUndefined => set_opt_locale (locale_option (st_locale nextState)) options
    | _ => options
    end in
  parsedAs <- parseRelativeUrl_or_throw (strip_basePath as_) ;;
  let localePathResult := normalizeLocalePath (u_pathname parsedAs) (locales r) in
  let '(nextState, parsedAs, as_, url) :=
    if truthy (detectedLocale localePathResult) then
      let parsedAs := set_u_pathname (addBasePath (u_pathname parsedAs) false) parsedAs in
      (set_st_locale (detectedLocale localePathResult) nextState, parsedAs,
       formatWithValidation parsedAs,
       addBasePath (lp_pathname (normalizeLocalePath (strip_basePath url) (locales r)))
         false)
    else (nextState, parsedAs, as_, url) in
  (* if the locale isn't configured hard navigate to show 404 page *)
  didNavigate <-
    (if negb (match locales r, st_locale nextState with
              | Some ls, Some l => bool_decide (l ∈ ls)
              | _, _ => false
              end)
     then
       let parsedAs :=
         set_u_pathname (addLocale (u_pathname parsedAs)
                           (locale_option (st_locale nextState)) None) parsedAs in
       handleHardNavigation (formatWithValidation parsedAs) ;;
       Ret true
     else Ret false) ;;
  let detectedDomain := detectDomainLocale (domainLocales r) None (st_locale nextState) in
  didNavigate <-
    (match detectedDomain with
     | Some domain =>
         if negb didNavigate && isLocaleDomain r
            && negb (String.eqb (hostname r) (dl_domain domain))
         then
           let asNoBasePath := removeBasePath as_ in
           let path :=
             (if bool_decide (st_locale nextState = Some (dl_defaultLocale domain))
              then "" else "/" +:+ default "undefined" (st_locale nextState))
             +:+ (if String.eqb asNoBasePath "/" then "" else asNoBasePath) in
           handleHardNavigation
             ("http" +:+ (if dl_http domain then "" else "s") +:+ "://"
              +:+ dl_domain domain
              +:+ addBasePath (if String.eqb path "" then "/" else path) false) ;;
           Ret true
         else Ret didNavigate
     | None => Ret didNavigate
     end) ;;
  if didNavigate then Ret None
  else Ret (Some {| lv_nextState := nextState; lv_options := options;
                    lv_url := url; lv_as := as_ |}).

(** The cancellation of the transition in flight, at the start of a new
    one; [isSsr] is the value the router had when [change] was called. *)
Definition cancel_in_flight (isSsr_ : bool) (routeProps_shallow : bool) : Proc () :=
  r <- gets (fun r => r) ;;
  match clc r with
  | Some cancel =>
      if truthy (_inFlightRoute r) then
        (if negb isSsr_ then
           emit (routeChangeError buildCancellationError
                   (default "" (_inFlightRoute r)) routeProps_shallow)
         else Ret ()) ;;
        call_cancel cancel ;;
        modify (set_clc None)
      else Ret ()
  | None => Ret ()
  end.

(** The branch of [change] for a change of the hash only. *)
Definition change_hash (method : HistoryMethod) (url as_ cleanedAs : string)
    (options : TransitionOptions) (nextState : RouterState) (routeProps_shallow : bool)
    (scroll_ : bool) : Proc bool :=
  let nextState := set_st_asPath cleanedAs nextState in
  emit (hashChangeStart as_ routeProps_shallow) ;;
  changeState method url as_ (set_opt_scroll (Some false) options) ;;
  (if scroll_ then scrollToHash cleanedAs else Ret ()) ;;
  r <- gets (fun r => r) ;;
  try_catch (set nextState (components r !! st_route nextState) None)
    (fun err =>
       (if cancelled err
        then emit (routeChangeError err cleanedAs routeProps_shallow) else Ret ()) ;;
       Throw err) ;;
  emit (hashChangeComplete as_ routeProps_shallow) ;;
  Ret true.

(** The local variables of [change] that the later blocks read and
    assign. *)
Record ChangeVars := mkChangeVars {
  cv_method : HistoryMethod;
  cv_url : string;
  cv_as : string;
  cv_options : TransitionOptions;
  cv_nextState : RouterState;
  cv_pathname : string;
  cv_query : Query;
  cv_parsed : ParsedUrl;
  cv_resolvedAs : string;
  cv_route : string;
  cv_routeMatch : option Query;
}.

Definition with_url (url : string) (v : ChangeVars) : ChangeVars :=
  {| cv_method := cv_method v; cv_url := url; cv_as := cv_as v;
     cv_options := cv_options v; cv_nextState := cv_nextState v;
     cv_pathname := cv_pathname v; cv_query := cv_query v; cv_parsed := cv_parsed v;
     cv_resolvedAs := cv_resolvedAs v; cv_route := cv_route v;
     cv_routeMatch := cv_routeMatch v |}.

Definition with_as (as_ : string) (v : ChangeVars) : ChangeVars :=
  {| cv_method := cv_method v; cv_url := cv_url v; cv_as := as_;
     cv_options := cv_options v; cv_nextState := cv_nextState v;
     cv_pathname := cv_pathname v; cv_query := cv_query v; cv_parsed := cv_parsed v;
     cv_resolvedAs := cv_resolvedAs v; cv_route := cv_route v;
     cv_routeMatch := cv_routeMatch v |}.

Definition with_options (o : TransitionOptions) (v : ChangeVars) : ChangeVars :=
  {| cv_method := cv_method v; cv_url := cv_url v; cv_as := cv_as v;
     cv_options := o; cv_nextState := cv_nextState v;
     cv_pathname := cv_pathname v; cv_query := cv_query v; cv_parsed := cv_parsed v;
     cv_resolvedAs := cv_resolvedAs v; cv_route := cv_route v;
     cv_routeMatch := cv_routeMatch v |}.

Definition with_nextState (s : RouterState) (v : ChangeVars) : ChangeVars :=
  {| cv_method := cv_method v; cv_url := cv_url v; cv_as := cv_as v;
     cv_options := cv_options v; cv_nextState := s;
     cv_pathname := cv_pathname v; cv_query := cv_query v; cv_parsed := cv_parsed v;
     cv_resolvedAs := cv_resolvedAs v; cv_route := cv_route v;
     cv_routeMatch := cv_routeMatch v |}.

(** [pathname] (and with it [parsed.pathname], when given) *)
Definition with_pathname (pathname : string) (parsed : option string) (v : ChangeVars)
    : ChangeVars :=
  {| cv_method := cv_method v; cv_url := cv_url v; cv_as := cv_as v;
     cv_options := cv_options v; cv_nextState := cv_nextState v;
     cv_pathname := pathname; cv_query := cv_query v;
     cv_parsed := match parsed with
                  | Some p => set_u_pathname p (cv_parsed v)
                  | None => cv_parsed v
                  end;
     cv_resolvedAs := cv_resolvedAs v; cv_route := cv_route v;
     cv_routeMatch := cv_routeMatch v |}.

Definition with_query (q : Query) (v : ChangeVars) : ChangeVars :=
  {| cv_method := cv_method v; cv_url := cv_url v; cv_as := cv_as v;
     cv_options := cv_options v; cv_nextState := cv_nextState v;
     cv_pathname := cv_pathname v; cv_query := q; cv_parsed := cv_parsed v;
     cv_resolvedAs := cv_resolvedAs v; cv_route := cv_route v;
     cv_routeMatch := cv_routeMatch v |}.

Definition with_resolvedAs (resolvedAs : string) (v : ChangeVars) : ChangeVars :=
  {| cv_method := cv_method v; cv_url := cv_url v; cv_as := cv_as v;
     cv_options := cv_options v; cv_nextState := cv_nextState v;
     cv_pathname := cv_pathname v; cv_query := cv_query v; cv_parsed := cv_parsed v;
     cv_resolvedAs := resolvedAs; cv_route := cv_route v;
     cv_routeMatch := cv_routeMatch v |}.

Definition with_route (route : string) (routeMatch : option Query) (v : ChangeVars)
    : ChangeVars :=
  {| cv_method := cv_method v; cv_url := cv_url v; cv_as := cv_as v;
     cv_options := cv_options v; cv_nextState := cv_nextState v;
     cv_pathname := cv_pathname v; cv_query := cv_query v; cv_parsed := cv_parsed v;
     cv_resolvedAs := cv_resolvedAs v; cv_route := route;
     cv_routeMatch := routeMatch |}.

(** What one pass of [change] ends with: the value it resolves to, or the
    call [return this.change(method, url, as, options)] of a redirect. *)
Inductive ChangeOutcome : Type :=
| Completed (b : bool)
| Again (method : HistoryMethod) (url as_ : string) (options : TransitionOptions).

(** A block of [change] either goes on with the local variables or makes
    [change] return. *)
Inductive Flow : Type :=
| GoOn (v : ChangeVars)
| Return_ (o : ChangeOutcome).

(** The block under [if (shouldResolveHref && pathname !== '/_error')]. *)
Definition change_resolve (cleanedAs : string) (isMiddlewareMatch : bool)
    (pages : list string) (rewrites : Rewrites) (v : ChangeVars) : Proc Flow :=
  r <- gets (fun r => r) ;;
  let v := with_options (set_opt_shouldResolveHref (Some true) (cv_options v)) v in
  if NEXT_HAS_REWRITES && startsWith (cv_as v) "/" then
    let rewritesResult :=
      resolveRewrites
        (addBasePath (addLocale cleanedAs (locale_option (st_locale (cv_nextState v)))
                        None) true)
        pages rewrites (cv_query v) (fun p => resolveDynamicRoute p pages) (locales r) in
    if rw_externalDest rewritesResult then
      handleHardNavigation (cv_as v) ;;
      Ret (Return_ (Completed true))
    else
      let v := if negb isMiddlewareMatch
               then with_resolvedAs (rw_asPath rewritesResult) v else v in
      match rw_resolvedHref rewritesResult with
      | Some resolvedHref =>
          if rw_matchedPage rewritesResult && negb (String.eqb resolvedHref "") then
            let v := with_pathname resolvedHref (Some (addBasePath resolvedHref false)) v in
            Ret (GoOn (if negb isMiddlewareMatch
                       then with_url (formatWithValidation (cv_parsed v)) v else v))
          else Ret (GoOn v)
      | None => Ret (GoOn v)
      end
  else
    let resolved := resolveDynamicRoute (cv_pathname v) pages in
    if negb (String.eqb resolved (cv_pathname v)) then
      let v := with_pathname resolved (Some (addBasePath resolved false)) v in
      Ret (GoOn (if negb isMiddlewareMatch
                 then with_url (formatWithValidation (cv_parsed v)) v else v))
    else Ret (GoOn (with_pathname (cv_pathname v) (Some resolved) v)).

(** [!query[param]] *)
Definition query_falsy (query : Query) (param : string) : bool :=
  match query !! param with
  | Some (QStr s) => String.eqb s ""
  | Some (QArr _) => false
  | None => true
  end.

(** The block under [if (isDynamicRoute(route))]: the match of the route
    against [resolvedAs]. *)
Definition change_match (isMiddlewareMatch : bool) (v : ChangeVars) : Proc ChangeVars :=
  let route := cv_route v in
  parsedAs <- parseRelativeUrl_or_throw (cv_resolvedAs v) ;;
  let asPathname := u_pathname parsedAs in
  let routeRegex := getRouteRegex route in
  let routeMatch := getRouteMatcher routeRegex asPathname in
  let shouldInterpolate := String.eqb route asPathname in
  let interpolatedAs := interpolateAs route asPathname (cv_query v) in
  let v := with_route route routeMatch v in
  if negb (bool_decide (is_Some routeMatch))
     || (shouldInterpolate && String.eqb (result interpolatedAs) "") then
    let missingParams :=
      List.filter (query_falsy (cv_query v)) (map fst (groups routeRegex)) in
    if negb (bool_decide (missingParams = [])) && negb isMiddlewareMatch then
      Throw (plainError
        ((if shouldInterpolate
          then "The provided `href` (" +:+ cv_url v
               +:+ ") value is missing query values (" +:+ join ", " missingParams
               +:+ ") to be interpolated properly. "
          else "The provided `as` value (" +:+ asPathname
               +:+ ") is incompatible with the `href` value (" +:+ route +:+ "). ")
         +:+ "Read more: https://nextjs.org/docs/messages/"
         +:+ (if shouldInterpolate then "href-interpolation-failed"
              else "incompatible-href-as")))
    else Ret v
  else if shouldInterpolate then
    Ret (with_as
           (formatWithValidation
              {| u_pathname := result interpolatedAs;
                 u_query := omit (cv_query v) (params interpolatedAs);
                 u_search := u_search parsedAs; u_hash := u_hash parsedAs |}) v)
  else
    (* Merge params into `query`, overwriting any specified in search *)
    Ret (with_query (assign (cv_query v) (default ∅ routeMatch)) v).

(** The block under [if ('route' in routeInfo && isMiddlewareMatch)]. *)
Definition change_middleware_route (info : RouteInfo) (routeProps_shallow : bool)
    (v : ChangeVars) : Proc ChangeVars :=
  r <- gets (fun r => r) ;;
  let pathname := or_string (ri_route info) (cv_route v) in
  let v := with_route pathname (cv_routeMatch v) (with_pathname pathname None v) in
  let v := if negb routeProps_shallow
           then with_query (assign (default ∅ (ri_query info)) (cv_query v)) v else v in
  let v :=
    match cv_routeMatch v with
    | Some routeMatch =>
        if negb (String.eqb pathname (u_pathname (cv_parsed v))) then
          with_query (filter (fun kv => routeMatch !! kv.1 ≠ Some kv.2) (cv_query v)) v
        else v
    | None => v
    end in
  if isDynamicRoute pathname then
    let prefixedAs :=
      if negb routeProps_shallow && truthy (ri_resolvedAs info)
      then Some (default "" (ri_resolvedAs info))
      else
        match newURL (cv_as v) (locationOrigin +:+ location r) with
        | Some u => Some (addBasePath (addLocale (url_pathname u)
                            (locale_option (st_locale (cv_nextState v))) None) true)
        | None => None
        end in
    match prefixedAs with
    | None => Throw (plainError "TypeError: Invalid URL")
    | Some prefixedAs =>
        let rewriteAs := strip_basePath prefixedAs in
        let '(v, rewriteAs) :=
          if NEXT_I18N_SUPPORT then
            let localeResult := normalizeLocalePath rewriteAs (locales r) in
            (with_nextState
               (set_st_locale
                  (if truthy (detectedLocale localeResult)
                   then detectedLocale localeResult
                   else st_locale (cv_nextState v)) (cv_nextState v)) v,
             lp_pathname localeResult)
          else (v, rewriteAs) in
        match getRouteMatcher (getRouteRegex pathname) rewriteAs with
        | Some curRouteMatch =>
            Ret (with_query (assign (cv_query v) curRouteMatch) v)
        | None => Ret v
        end
    end
  else Ret v.

(** [/#.+$/.test(as)]: a hash mark followed by at least one character *)
Fixpoint has_hash (s : string) : bool :=
  match s with
  | EmptyString => false
  | String c s' =>
      (Ascii.eqb c "#" && negb (String.eqb s' "")) || has_hash s'
  end.

Definition set_ri_props (props : option Value) (i : RouteInfo) : RouteInfo :=
  {| ri_Component := ri_Component i; ri_styleSheets := ri_styleSheets i;
     ri_initial := ri_initial i; ri_N_SSG := ri_N_SSG i; ri_N_SSP := ri_N_SSP i;
     ri_N_RSC := ri_N_RSC i; ri_props := props; ri_err := ri_err i;
     ri_error := ri_error i; ri_route := ri_route i;
     ri_resolvedAs := ri_resolvedAs i; ri_query := ri_query i |}.

(** [v === 500] *)
Definition is_500 (v : Value) : bool :=
  match v with
  | VNum n => n =? 500
  | _ => false
  end.

(** [props.pageProps.statusCode = 500] *)
Definition with_statusCode_500 (props : Value) : Value :=
  VObj (set_field "pageProps"
          (VObj (set_field "statusCode" (VNum 500) (fields_of (getProp props "pageProps"))))
          (fields_of props)).

(** [upcomingRouterState]: the new state that the router is going to set *)
Definition upcoming_state (v : ChangeVars) (cleanedAs : string) : RouterState :=
  {| st_route := cv_route v; st_pathname := cv_pathname v; st_query := cv_query v;
     st_asPath := cleanedAs; st_locale := st_locale (cv_nextState v);
     st_isFallback := false; st_isPreview := st_isPreview (cv_nextState v) |}.

(** From [Router.events.emit('beforeHistoryChange', ...)] to the end of
    the [try] block.  [props] and [error] were read from the route info
    that [getRouteInfo] returned first; [routeInfo] is the one to show, and
    [sameInfo] tells whether it is still that first one, whose [props]
    object the assignment of the status code then changes.  (The same
    object may also sit in [components]; the model leaves that copy as it
    is.) *)
Definition change_commit (v : ChangeVars) (cleanedAs : string) (routeInfo : RouteInfo)
    (props : option Value) (sameInfo : bool) (error : option Error)
    (routeProps_shallow : bool) (readyStateChange localeChange : bool)
    (forcedScroll : option (Z * Z)) : Proc ChangeOutcome :=
  let options := cv_options v in
  let isQueryUpdating := truthy_num (_h options) in
  emit (beforeHistoryChange (cv_as v) routeProps_shallow) ;;
  changeState (cv_method v) (cv_url v) (cv_as v) options ;;
  (* ensure statusCode is still correct for static 500 page *)
  let routeInfo :=
    if isQueryUpdating && String.eqb (cv_pathname v) "/_error"
       && is_500 (getProp (getProp NEXT_DATA_props "pageProps") "statusCode")
       && truthyV (getProp (default VUndefined props) "pageProps")
       && sameInfo
    then set_ri_props (with_statusCode_500 <$> props) routeInfo
    else routeInfo in
  (* shallow routing is only allowed for same page URL changes. *)
  let isValidShallowRoute :=
    is_true (shallow options)
    && String.eqb (st_route (cv_nextState v)) (default (cv_route v) (ri_route routeInfo)) in
  let shouldScroll :=
    default (negb isQueryUpdating && negb isValidShallowRoute) (scroll options) in
  let resetScroll := if shouldScroll then Some (0, 0) else None in
  let upcomingRouterState := upcoming_state v cleanedAs in
  let upcomingScrollState :=
    match forcedScroll with Some s => Some s | None => resetScroll end in
  r <- gets (fun r => r) ;;
  let canSkipUpdating :=
    isQueryUpdating && negb (bool_decide (is_Some upcomingScrollState))
    && negb readyStateChange && negb localeChange
    && compareRouterStates upcomingRouterState (state r) in
  if negb canSkipUpdating then
    published_ <- settled (set upcomingRouterState (Some routeInfo) upcomingScrollState) ;;
    error <-
      (match published_ with
       | Fulfilled _ => Ret error
       | Rejected e =>
           if cancelled e
           then Ret (match error with Some e' => Some e' | None => Some e end)
           else Throw e
       end) ;;
    match error with
    | Some error =>
        (if negb isQueryUpdating
         then emit (routeChangeError error cleanedAs routeProps_shallow) else Ret ()) ;;
        Throw error
    | None =>
        (if NEXT_I18N_SUPPORT && truthy (st_locale (cv_nextState v))
         then modify (set_documentLang (st_locale (cv_nextState v))) else Ret ()) ;;
        (if negb isQueryUpdating
         then emit (routeChangeComplete (cv_as v) routeProps_shallow) else Ret ()) ;;
        (if shouldScroll && has_hash (cv_as v) then scrollToHash (cv_as v) else Ret ()) ;;
        Ret (Completed true)
    end
  else Ret (Completed true).

(** The handling of a redirect carried by the page props
    ([props.pageProps.__N_REDIRECT]). *)
Definition change_props_redirect (v : ChangeVars) (pages : list string)
    (destination : Value) (basePathFlag : Value) : Proc ChangeOutcome :=
  (* Use the destination from redirect without adding locale *)
  let options := set_opt_locale LocaleFalse (cv_options v) in
  match destination with
  | VStr destination =>
      if startsWith destination "/"
         && negb (match basePathFlag with VBool false => true | _ => false end)
      then
        parseRelativeUrl_or_throw destination ;;
        r <- gets (fun r => r) ;;
        let '(newUrl, newAs) := prepareUrlAs (state r) destination (Some destination) in
        Ret (Again (cv_method v) newUrl newAs options)
      else
        handleHardNavigation destination ;;
        Never
  | _ => Throw (plainError "TypeError: destination.startsWith is not a function")
  end.

(** The [try]/[catch] that chooses [notFoundRoute]. *)
Definition notFound_route : Proc string :=
  try_catch (fetchComponent "/404" ;; Ret "/404") (fun _ => Ret "/_error").

(** The handling of a data 404 ([props.notFound === SSG_DATA_NOT_FOUND]):
    the route info of the not-found view. *)
Definition change_notFound (v : ChangeVars) : Proc RouteInfo :=
  notFoundRoute <- notFound_route ;;
  routeInfo <- getRouteInfo
    {| arg_route := notFoundRoute; arg_pathname := notFoundRoute;
       arg_query := cv_query v; arg_as := cv_as v; arg_resolvedAs := cv_resolvedAs v;
       arg_shallow := false; arg_locale := st_locale (cv_nextState v);
       arg_hasMiddleware := None; arg_isPreview := st_isPreview (cv_nextState v);
       arg_skipClientCache := None |} ;;
  match routeInfo with
  | InfoResult info => Ret info
  | _ => Throw (plainError "Unexpected middleware effect on /404")
  end.

(** What the first part of [change] hands to its [try] block: the local
    variables and the constants computed on the way. *)
Record ChangeContext := mkChangeContext {
  cx_cleanedAs : string;
  cx_isMiddlewareMatch : bool;
  cx_pages : list string;
  cx_shallow : bool;                     (* routeProps.shallow *)
  cx_readyStateChange : bool;
  cx_localeChange : bool;
  cx_forcedScroll : option (Z * Z);
}.

Definition commit (v : ChangeVars) (cx : ChangeContext) (routeInfo : RouteInfo)
    (props : option Value) (sameInfo : bool) (error : option Error) : Proc ChangeOutcome :=
  change_commit v (cx_cleanedAs cx) routeInfo props sameInfo error (cx_shallow cx)
    (cx_readyStateChange cx) (cx_localeChange cx) (cx_forcedScroll cx).

(** The [try] block of [change] from the point where [getRouteInfo] has
    returned the route info [info]. *)
Definition change_with_info (info : RouteInfo) (v : ChangeVars) (cx : ChangeContext)
    : Proc ChangeOutcome :=
  v <- (if bool_decide (is_Some (ri_route info)) && cx_isMiddlewareMatch cx
        then change_middleware_route info (cx_shallow cx) v else Ret v) ;;
  let error := ri_error info in
  let props := ri_props info in
  match unstable_scriptLoader (ri_Component info) with
  | Some scripts =>
      modify (fun r => set_scriptsLoaded
                         (scriptsLoaded r ++ map (fun s => getProp s "props") scripts) r)
  | None => Ret ()
  end ;;
  if (is_true (ri_N_SSG info) || is_true (ri_N_SSP info))
     && truthyV (default VUndefined props) then
    let props_ := default VUndefined props in
    if truthyV (getProp props_ "pageProps")
       && truthyV (getProp (getProp props_ "pageProps") "__N_REDIRECT") then
      change_props_redirect v (cx_pages cx)
        (getProp (getProp props_ "pageProps") "__N_REDIRECT")
        (getProp (getProp props_ "pageProps") "__N_REDIRECT_BASE_PATH")
    else
      let v := with_nextState
                 (set_st_isPreview (truthyV (getProp props_ "__N_PREVIEW"))
                    (cv_nextState v)) v in
      (* handle SSG data 404 *)
      if is_SSG_DATA_NOT_FOUND (getProp props_ "notFound") then
        notFoundInfo <- change_notFound v ;;
        commit v cx notFoundInfo props false error
      else commit v cx info props true error
  else commit v cx info props true error.

(** The [try] block of [change]. *)
Definition change_try (v : ChangeVars) (cx : ChangeContext) : Proc ChangeOutcome :=
  routeInfo <- getRouteInfo
    {| arg_route := cv_route v; arg_pathname := cv_pathname v; arg_query := cv_query v;
       arg_as := cv_as v; arg_resolvedAs := cv_resolvedAs v;
       arg_shallow := cx_shallow cx; arg_locale := st_locale (cv_nextState v);
       arg_hasMiddleware := Some (cx_isMiddlewareMatch cx);
       arg_isPreview := st_isPreview (cv_nextState v);
       arg_skipClientCache := None |} ;;
  match routeInfo with
  (* If the routeInfo brings a redirect we simply apply it. *)
  | RedirectInternalResult newAs newUrl =>
      Ret (Again (cv_method v) newUrl newAs (cv_options v))
  | RedirectExternalResult destination =>
      handleHardNavigation destination ;;
      Never
  | InfoResult info => change_with_info info v cx
  end.

(** What the first part of [change] ends with: [change] returns, or goes
    on to its [try] block. *)
Inductive Prepared : Type :=
| PreparedReturn (o : ChangeOutcome)
| PreparedTry (v : ChangeVars) (cx : ChangeContext).

(** [change] up to its [try] block. *)
Definition change_prepare (method : HistoryMethod) (url as_ : string)
    (options : TransitionOptions) (forcedScroll : option (Z * Z)) : Proc Prepared :=
  if negb (isLocalURL url) then
    handleHardNavigation url ;;
    Ret (PreparedReturn (Completed false))
  else
    r <- gets (fun r => r) ;;
    let isQueryUpdating := truthy_num (_h options) in
    let shouldResolveHref :=
      isQueryUpdating || is_true (_shouldResolveHref options)
      || String.eqb (u_pathname (parsePath url)) (u_pathname (parsePath as_)) in
    let nextState := state r in
    let readyStateChange := negb (isReady r) in
    modify (set_isReady true) ;;
    let isSsr_ := isSsr r in
    (if negb isQueryUpdating then modify (set_isSsr false) else Ret ()) ;;
    (* if a route transition is already in progress before the query
       updating is triggered ignore query updating *)
    if isQueryUpdating && bool_decide (is_Some (clc r))
    then Ret (PreparedReturn (Completed false))
    else
      let prevLocale := st_locale nextState in
      localized <-
        (if NEXT_I18N_SUPPORT then change_locale nextState options url as_
         else Ret (Some {| lv_nextState := nextState; lv_options := options;
                           lv_url := url; lv_as := as_ |})) ;;
      match localized with
      | None => Never
      | Some lv =>
          let nextState := lv_nextState lv in
          let options := lv_options lv in
          let url := lv_url lv in
          let as_ := lv_as lv in
          let routeProps_shallow := default false (shallow options) in
          let scroll_ := default true (scroll options) in
          cancel_in_flight isSsr_ routeProps_shallow ;;
          r <- gets (fun r => r) ;;
          let as_ := addBasePath (addLocale (strip_basePath as_) (locale options)
                                    (defaultLocale r)) false in
          let cleanedAs := removeLocale (strip_basePath as_) (st_locale nextState) in
          modify (set_inFlightRoute (Some as_)) ;;
          let localeChange := negb (bool_decide (prevLocale = st_locale nextState)) in
          if negb isQueryUpdating && onlyAHashChange cleanedAs r && negb localeChange then
            b <- change_hash method url as_ cleanedAs options nextState
                   routeProps_shallow scroll_ ;;
            Ret (PreparedReturn (Completed b))
          else
            parsed <- parseRelativeUrl_or_throw url ;;
            manifest <- settled (await GetPageList) ;;
            match manifest with
            | Rejected _ =>
                handleHardNavigation as_ ;;
                Ret (PreparedReturn (Completed false))
            | Fulfilled (pages, rewrites) =>
                r <- gets (fun r => r) ;;
                let method :=
                  if negb (urlIsNew cleanedAs r) && negb localeChange
                  then replaceState else method in
                let pathname :=
                  if String.eqb (u_pathname parsed) "" then u_pathname parsed
                  else removeTrailingSlash (removeBasePath (u_pathname parsed)) in
                isMiddlewareMatch <- matchesMiddleware as_ (st_locale nextState) ;;
                r <- gets (fun r => r) ;;
                let pathname :=
                  if is_true (shallow options) && isMiddlewareMatch
                  then st_pathname (state r) else pathname in
                let v := {| cv_method := method; cv_url := url; cv_as := as_;
                            cv_options := options; cv_nextState := nextState;
                            cv_pathname := pathname; cv_query := u_query parsed;
                            cv_parsed := parsed; cv_resolvedAs := as_;
                            cv_route := ""; cv_routeMatch := None |} in
                flow <-
                  (if shouldResolveHref && negb (String.eqb pathname "/_error")
                   then change_resolve cleanedAs isMiddlewareMatch pages rewrites v
                   else Ret (GoOn v)) ;;
                match flow with
                | Return_ o => Ret (PreparedReturn o)
                | GoOn v =>
                    if negb (isLocalURL (cv_as v)) then
                      if negb (String.eqb NODE_ENV "production") then
                        Throw (plainError ("Invalid href: " +:+ cv_url v +:+ " and as: "
                                           +:+ cv_as v
                                           +:+ ", received relative href and external as"))
                      else
                        handleHardNavigation (cv_as v) ;;
                        Ret (PreparedReturn (Completed false))
                    else
                      let v := with_resolvedAs
                                 (removeLocale (removeBasePath (cv_resolvedAs v))
                                    (st_locale nextState)) v in
                      let v := with_route (removeTrailingSlash (cv_pathname v)) None v in
                      v <- (if isDynamicRoute (cv_route v)
                            then change_match isMiddlewareMatch v else Ret v) ;;
                      (if negb isQueryUpdating
                       then emit (routeChangeStart (cv_as v) routeProps_shallow)
                       else Ret ()) ;;
                      Ret (PreparedTry v
                             {| cx_cleanedAs := cleanedAs;
                                cx_isMiddlewareMatch := isMiddlewareMatch;
                                cx_pages := pages; cx_shallow := routeProps_shallow;
                                cx_readyStateChange := readyStateChange;
                                cx_localeChange := localeChange;
                                cx_forcedScroll := forcedScroll |})
                end
            end
      end.

(** One pass of [change]: the first part, then the [try] block, whose
    [catch] turns a cancellation into the result [false]. *)
Definition change_once (method : HistoryMethod) (url as_ : string)
    (options : TransitionOptions) (forcedScroll : option (Z * Z)) : Proc ChangeOutcome :=
  prepared <- change_prepare method url as_ options forcedScroll ;;
  match prepared with
  | PreparedReturn o => Ret o
  | PreparedTry v cx =>
      try_catch (change_try v cx)
        (fun err => if cancelled err then Ret (Completed false) else Throw err)
  end.

(** [change]: a redirect calls [change] again; [fuel] bounds the number of
    redirects followed and [None] is the model running out of it. *)
Fixpoint change (fuel : nat) (method : HistoryMethod) (url as_ : string)
    (options : TransitionOptions) (forcedScroll : option (Z * Z)) : Proc (option bool) :=
  outcome <- change_once method url as_ options forcedScroll ;;
  match outcome with
  | Completed b => Ret (Some b)
  | Again method url as_ options =>
      match fuel with
      | O => Ret None
      | S fuel' => change fuel' method url as_ options None
      end
  end.

End Change.

Section PopState.
Context `{BuildEnv} `{RouteUtils} `{UrlUtils}.
Local Open Scope proc_scope.

(** ** push, replace and onPopState *)

(** The snapshot of the scroll position under the key of the current
    history entry ([sessionStorage.setItem('__next_scroll_' + key, ...)]). *)
Definition snapshot_scroll : Proc () :=
  modify (fun r => set_scrollStorage (<[_key r := pageOffset r]> (scrollStorage r)) r).

(** [push] *)
Definition push (fuel : nat) (url : string) (as_ : option string)
    (options : TransitionOptions) : Proc (option bool) :=
  (if manualScrollRestoration then snapshot_scroll else Ret ()) ;;
  r <- gets (fun r => r) ;;
  let '(url, as_) := prepareUrlAs (state r) url as_ in
  change fuel pushState url as_ options None.

(** [replace] *)
Definition replace (fuel : nat) (url : string) (as_ : option string)
    (options : TransitionOptions) : Proc (option bool) :=
  r <- gets (fun r => r) ;;
  let '(url, as_) := prepareUrlAs (state r) url as_ in
  change fuel replaceState url as_ options None.

(** [a && b] on two optional booleans *)
Definition and_option (a b : option bool) : option bool :=
  if is_true a then b else a.

(** What the handler of [popstate] did with the event. *)
Inductive PopStateResult : Type :=
| PopStateReplaced        (* no state: the current entry was rewritten *)
| PopStateReloaded        (* window.location.reload() *)
| PopStateIgnored         (* returned without doing anything more *)
| PopStateChanged (result : option bool).   (* called [change] *)

(** [onPopState], called with [e.state].  The browser has already moved
    to the entry, so [location] and [historyIndex] are those of the entry
    when the handler runs.  The handler does not wait for [change]; the
    procedure goes on with it as the transition it has started. *)
Definition onPopState (fuel : nat) (st : HistoryState) : Proc PopStateResult :=
  r <- gets (fun r => r) ;;
  let isFirstPopStateEvent_ := isFirstPopStateEvent r in
  modify (set_isFirstPopStateEvent false) ;;
  match st with
  | HistoryNull =>
      changeState replaceState
        (formatWithValidation
           (path_query (addBasePath (st_pathname (state r)) false) (st_query (state r))))
        (location r) default_options ;;
      Ret PopStateReplaced
  | HistoryNA =>
      (* __NA is used to identify if the history entry can be handled by
         the app-router. *)
      modify (fun r => set_reloads (S (reloads r)) r) ;;
      Ret PopStateReloaded
  | HistoryNotN => Ret PopStateIgnored
  | HistoryN url as_ options key =>
      (* Safari fires popstateevent when reopening the browser. *)
      if isFirstPopStateEvent_
         && bool_decide (locale_option (st_locale (state r)) = locale options)
         && String.eqb as_ (st_asPath (state r))
      then Ret PopStateIgnored
      else
        forcedScroll <-
          (if manualScrollRestoration && negb (String.eqb (_key r) key) then
             snapshot_scroll ;;
             r <- gets (fun r => r) ;;
             Ret (scrollStorage r !! key)
           else Ret None) ;;
        modify (set_key key) ;;
        parsed <- parseRelativeUrl_or_throw url ;;
        (* Make sure we don't re-render on initial load *)
        if isSsr r && String.eqb as_ (addBasePath (st_asPath (state r)) false)
           && String.eqb (u_pathname parsed) (addBasePath (st_pathname (state r)) false)
        then Ret PopStateIgnored
        else
          (* If the downstream application returns falsy, return. *)
          if match _bps r with Some cb => negb (cb st) | None => false end
          then Ret PopStateIgnored
          else
            result_ <- change fuel replaceState url as_
              {| shallow := and_option (shallow options) (_shallow r);
                 locale := locale_option (locale_or (locale options) (defaultLocale r));
                 scroll := scroll options;
                 skipClientCache := skipClientCache options;
                 _h := Some 0;
                 _shouldResolveHref := _shouldResolveHref options |}
              forcedScroll ;;
            Ret (PopStateChanged result_)
  end.

End PopState.

(** How a procedure stands, for the examples: the value returned, the
    message of the error thrown, or the operation awaited. *)
Inductive Standing (A : Type) : Type :=
| Resolved (a : A)
| Failed (msg : string) (cancelled_ : bool)
| Hanging
| AtPageList
| AtMiddleware
| AtData (promise : nat)
| AtLoadPage (route : string)
| AtInitialProps
| AtSubscription.

Arguments Resolved {A} a.
Arguments Failed {A} msg cancelled_.
Arguments Hanging {A}.
Arguments AtPageList {A}.
Arguments AtMiddleware {A}.
Arguments AtData {A} promise.
Arguments AtLoadPage {A} route.
Arguments AtInitialProps {A}.
Arguments AtSubscription {A}.

Section Execution.
Context `{BuildEnv} `{RouteUtils} `{UrlUtils}.

(** ** Running procedures

    The world answers the [await]s of a procedure: an [Answers] gives the
    answer to every wait, and may read the router. *)
Definition Answers : Type := Router -> forall X : Type, Wait X -> X.

(** The procedure is resumed with the answer to the wait it is in. *)
Definition resume {A : Type} (answers : Answers) (rs : Router * Status A)
    : Router * Status A :=
  match rs with
  | (r, Waiting w k) => run (k (answers r _ w)) r
  | _ => rs
  end.

Fixpoint resume_n {A : Type} (n : nat) (answers : Answers) (rs : Router * Status A)
    : Router * Status A :=
  match n with
  | O => rs
  | S n' => resume_n n' answers (resume answers rs)
  end.

Definition standing {A : Type} (rs : Router * Status A) : Standing A :=
  match rs.2 with
  | Returned a => Resolved a
  | Threw e => Failed (message e) (cancelled e)
  | Hangs => Hanging
  | Waiting w _ =>
      match w with
      | GetPageList => AtPageList
      | GetMiddleware => AtMiddleware
      | DataPromise p => AtData p
      | LoadPage route => AtLoadPage route
      | LoadGetInitialProps _ _ _ _ _ => AtInitialProps
      | Subscription _ => AtSubscription
      end
  end.

(** Other code runs on the router while the procedure waits. *)
Definition meanwhile {A : Type} (f : Router -> Router) (rs : Router * Status A)
    : Router * Status A :=
  (f rs.1, rs.2).

(** Another procedure is started while the first one waits, and runs up to
    its own first [await]. *)
Definition starts {B : Type} (p : Proc B) (r : Router) : Router := (run p r).1.

(** The [fetchRetry] call of a promise of the data layer settles. *)
Definition settle_promise (promise : nat) (outcome : Settled Response) (r : Router)
    : Router :=
  set_data (settle promise outcome (data r)) r.

(** The settled value of a promise of the data layer (a rejection while it
    is pending, a case the examples do not use). *)
Definition promise_result (r : Router) (promise : nat) : Settled FetchDataOutput :=
  match promises (data r) !! promise with
  | Some (Done result_) => result_
  | _ => Rejected (plainError "pending")
  end.

(** The final router and the result of a procedure satisfy [Q], whatever
    the answers to its [await]s are, when nothing else runs in between. *)
Fixpoint wp {A : Type} (p : Proc A) (Q : Router -> Status A -> Prop) (r : Router) : Prop :=
  match p with
  | Ret a => Q r (Returned a)
  | Throw e => Q r (Threw e)
  | Never => Q r Hangs
  | GetRouter k => wp (k r) Q r
  | PutRouter r' k => wp k Q r'
  | Await w k => forall x, wp (k x) Q r
  end.

End Execution.

Section View.
Context `{BuildEnv} `{RouteUtils} `{UrlUtils}.

(** A procedure keeps the relation [R] between the router it starts on
    and the router it ends on, whatever the answers to its [await]s are. *)
Definition kept (R : Router -> Router -> Prop) {A : Type} (p : Proc A) : Prop :=
  forall r, wp p (fun r' _ => R r r') r.

(** A postcondition on the values returned only. *)
Definition on_return {A : Type} (P : Router -> A -> Prop) (r : Router) (s : Status A)
    : Prop :=
  match s with
  | Returned a => P r a
  | _ => True
  end.

(** A procedure keeps [R] and returns values in [P] only. *)
Definition keeps (R : Router -> Router -> Prop) {A : Type} (P : A -> Prop) (p : Proc A)
    : Prop :=
  forall r, wp p (fun r' s => R r r' /\ on_return (fun _ => P) r' s) r.

(** What the user sees of the router: the state, the session history with
    the position and the key of the current entry, the URL of the page and
    what was sent to the subscribers. *)
Definition view (r : Router)
    : RouterState * list HistoryEntry * nat * string * string * list Published :=
  (state r, history r, historyIndex r, _key r, location r, published r).

Definition same_view (r r' : Router) : Prop := view r' = view r.

(** A procedure that leaves the view as it is. *)
Definition framed {A : Type} (p : Proc A) : Prop := kept same_view p.

(** The history keeps the number of its entries, its position and its key. *)
Definition same_entries (r r' : Router) : Prop :=
  length (history r') = length (history r)
  /\ historyIndex r' = historyIndex r
  /\ _key r' = _key r.

(** The method of a call of [change] that an outcome asks for, if any. *)
Definition again_method (o : ChangeOutcome) : option HistoryMethod :=
  match o with
  | Again method _ _ _ => Some method
  | Completed _ => None
  end.

(** The outcome makes no call of [change] with [pushState]. *)
Definition no_push (o : ChangeOutcome) : Prop := again_method o <> Some pushState.

Definition prepared_no_push (p : Prepared) : Prop :=
  match p with
  | PreparedReturn o => no_push o
  | PreparedTry v _ => cv_method v = replaceState
  end.

Definition flow_method (method : HistoryMethod) (f : Flow) : Prop :=
  match f with
  | GoOn v => cv_method v = method
  | Return_ o => no_push o
  end.

(** What follows the first part of [change]: the [try] block with its
    [catch], and the call of [change] for a redirect. *)
Definition change_rest (fuel : nat) (v : ChangeVars) (cx : ChangeContext)
    : Proc (option bool) :=
  bind (try_catch (change_try v cx)
          (fun err => if cancelled err then Ret (Completed false) else Throw err))
    (fun outcome =>
       match outcome with
       | Completed b => Ret (Some b)
       | Again method url as_ options =>
           match fuel with
           | O => Ret None
           | S fuel' => change fuel' method url as_ options None
           end
       end).

End View.

Section MoreRouter.
Context `{BuildEnv} `{RouteUtils} `{UrlUtils}.
Local Open Scope proc_scope.

(** ** More of router.ts *)

(** [stripOrigin] *)
Definition stripOrigin (url : string) : string :=
  let origin := locationOrigin in
  if startsWith url origin then drop_string (String.length origin) url else url.

(** [beforePopState] *)
Definition beforePopState (cb : HistoryState -> bool) : Proc () :=
  modify (set_bps (Some cb)).

(** [reload] *)
Definition reload : Proc () :=
  modify (fun r => set_reloads (S (reloads r)) r).

(** The URL that [handleHardNavigation] refuses to navigate to:
    [addBasePath(addLocale(router.asPath, router.locale))]. *)
Definition current_url (r : Router) : string :=
  addBasePath (addLocale (st_asPath (state r)) (locale_option (st_locale (state r))) None)
    false.

(** ** Properties of runs *)

(** The history keeps the number of its entries and its position. *)
Definition same_position (r r' : Router) : Prop :=
  length (history r') = length (history r) /\ historyIndex r' = historyIndex r.

(** Every operation that the procedure awaits satisfies [P], whatever the
    router holds and whatever the answers are. *)
Fixpoint awaits_only (P : forall X : Type, Wait X -> Prop) {A : Type} (p : Proc A) : Prop :=
  match p with
  | Ret _ | Throw _ | Never => True
  | GetRouter k => forall r, awaits_only P (k r)
  | PutRouter _ k => awaits_only P k
  | Await w k => P _ w /\ forall x, awaits_only P (k x)
  end.

(** The wait is for the subscription. *)
Definition is_subscription (X : Type) (w : Wait X) : Prop :=
  match w with
  | Subscription _ => True
  | _ => False
  end.

(** The procedure does not throw and does not hang. *)
Definition no_failure {A : Type} (_ : Router) (s : Status A) : Prop :=
  match s with
  | Threw _ | Hangs => False
  | _ => True
  end.

Definition not_hanging {A : Type} (_ : Router) (s : Status A) : Prop :=
  match s with
  | Hangs => False
  | _ => True
  end.

(** The procedure never hangs, whatever the answers to its [await]s are. *)
Definition halts {A : Type} (p : Proc A) : Prop := forall r, wp p not_hanging r.

End MoreRouter.

(** A path with its fragment, if any. *)
Definition with_hash (path : string) (hash : option string) : string :=
  match hash with
  | Some h => path +:+ "#" +:+ h
  | None => path
  end.

(** The text has no hash mark. *)
Definition no_hash (s : string) : bool :=
  all_chars (fun c => negb (Ascii.eqb c "#")) s.

Section DataLifecycle.
Context `{BuildEnv}.

(** ** The life of a cache entry *)

(** The method of the request of a caller that found no entry: [HEAD] for
    a background request. *)
Definition first_method (p : FetchNextDataParams) : option string :=
  if is_true (isBackground p) then Some "HEAD" else None.

(** The [.then] after the response handling leaves the entry in the cache:
    the result may persist, the build is a production build and the
    response does not carry [x-middleware-cache: no-cache]. *)
Definition persists (p : FetchNextDataParams) (result_ : Settled FetchDataOutput) : bool :=
  match result_ with
  | Fulfilled data_ =>
      persistCache p && String.eqb NODE_ENV "production"
      && negb (bool_decide (header (out_response data_) "x-middleware-cache"
                            = Some "no-cache"))
  | Rejected _ => false
  end.

(** The request that [getData] makes [fetchRetry] issue. *)
Definition getData_request (p : FetchNextDataParams) (method : option string) : Request :=
  fetchRetry_request (call_url (getData_call p method))
    (call_options (getData_call p method)).

(** The network after the [fetchRetry] call of [getData]. *)
Definition getData_network (p : FetchNextDataParams) (method : option string)
    (net : Network) : Network :=
  (fetchRetry (call_url (getData_call p method)) (call_attempts (getData_call p method))
     (call_options (getData_call p method)) net).1.

End DataLifecycle.

(** ** An environment for the examples

    A production build without i18n, rewrites, trailing slashes or base
    path, on the origin [http://n]. *)

Definition notFound_body : string :=
  "{" +:+ dquote_string +:+ "notFound" +:+ dquote_string +:+ ":true}".

(** Its [JSON.parse] knows the two bodies the examples use. *)
Definition production_env : BuildEnv := {|
  NODE_ENV := "production";
  NEXT_I18N_SUPPORT := false;
  NEXT_HAS_REWRITES := false;
  NEXT_TRAILING_SLASH := false;
  JSON_parse := fun text =>
    if String.eqb text notFound_body then Some (VObj [("notFound", VBool true)])
    else if String.eqb text "{}" then Some (VObj [])
    else None;
  absoluteHref := fun href => "http://n" +:+ href;
|}.

(** The text before the first [c], and the rest from that [c] on. *)
Fixpoint break_at (c : ascii) (s : string) : string * string :=
  match s with
  | EmptyString => (EmptyString, EmptyString)
  | String c' s' =>
      if Ascii.eqb c' c then (EmptyString, s)
      else let '(before, rest) := break_at c s' in (String c' before, rest)
  end.

(** [parsePath]: pathname, search and hash of a path. *)
Definition parsePath_plain (path : string) : ParsedUrl :=
  let '(before, hash) := break_at "#" path in
  let '(pathname, search) := break_at "?" before in
  {| u_pathname := pathname; u_query := ∅; u_search := search; u_hash := hash |}.

(** The query of a search string [?a=b&c=d]. *)
Definition parse_search (search : string) : Query :=
  if String.eqb search "" then ∅
  else
    fold_left (fun q pair => let '(k, v) := break_at "=" pair in
                             <[k := QStr (drop_string 1 v)]> q)
              (split_on "&" (drop_string 1 search)) ∅.

Definition search_of (q : Query) : string :=
  if bool_decide (q = ∅) then ""
  else "?" +:+ join "&" (map (fun kv => kv.1 +:+ "=" +:+ qval_to_string kv.2)
                            (map_to_list q)).

#[global] Instance RouterState_eq_dec : EqDecision RouterState.
Proof. solve_decision. Defined.

Definition url_utils_plain : UrlUtils := {|
  Rewrites := ();
  isAbsoluteUrl := fun url => startsWith url "http://" || startsWith url "https://";
  locationOrigin := "http://n";
  newURL := fun url base =>
    if startsWith url "/" then
      Some {| url_origin := "http://n"; url_pathname := u_pathname (parsePath_plain url);
              url_href := "http://n" +:+ url |}
    else None;
  hasBasePath := fun path => String.eqb path "" || startsWith path "/";
  removeBasePath := fun path => path;
  addBasePath := fun path _ => path;
  addLocale := fun path _ _ => path;
  removeLocale := fun path _ => path;
  parsePath := parsePath_plain;
  parseRelativeUrl := fun url =>
    if startsWith url "/" then
      let p := parsePath_plain url in
      Some {| u_pathname := u_pathname p; u_query := parse_search (u_search p);
              u_search := u_search p; u_hash := u_hash p |}
    else None;
  formatWithValidation := fun u =>
    u_pathname u +:+ (if String.eqb (u_search u) "" then search_of (u_query u)
                      else u_search u) +:+ u_hash u;
  normalizeLocalePath := fun pathname _ =>
    {| detectedLocale := None; lp_pathname := pathname |};
  detectDomainLocale := fun _ _ _ => None;
  resolveRewrites := fun asPath _ _ query _ _ =>
    {| rw_matchedPage := false;
       rw_parsedAs := {| u_pathname := asPath; u_query := query; u_search := "";
                         u_hash := "" |};
       rw_asPath := asPath; rw_resolvedHref := None; rw_externalDest := false |};
  getNextPathnameInfo := fun pathname _ =>
    {| info_pathname := pathname; info_locale := None; info_basePath := None;
       info_buildId := None |};
  formatNextPathnameInfo := fun info _ => info_pathname info;
  compareRouterStates := fun a b => bool_decide (a = b);
  prepareUrlAs := fun _ url as_ => (url, default url as_);
  regexp_test := fun source s => startsWith s source;
  getDataHref := fun href _ asPath _ => "/_next/data/build" +:+ asPath +:+ ".json";
  isValidElementType := fun _ => true;
  NEXT_DATA_props := VObj [];
  manualScrollRestoration := false;
|}.

(** A component and its entry in [components]. *)
Definition component (name : string) : Component :=
  {| comp_name := name; unstable_scriptLoader := None |}.

Definition initial_info (name : string) : RouteInfo :=
  {| ri_Component := component name; ri_styleSheets := []; ri_initial := true;
     ri_N_SSG := None; ri_N_SSP := None; ri_N_RSC := None;
     ri_props := Some (VObj []); ri_err := None; ri_error := None;
     ri_route := None; ri_resolvedAs := None; ri_query := None |}.

Definition app_info : RouteInfo :=
  {| ri_Component := component "App"; ri_styleSheets := []; ri_initial := false;
     ri_N_SSG := None; ri_N_SSP := None; ri_N_RSC := None;
     ri_props := None; ri_err := None; ri_error := None;
     ri_route := None; ri_resolvedAs := None; ri_query := None |}.

Definition empty_layer : DataLayer :=
  {| sdc := ∅; backgroundCache := ∅; promises := []; fetches := [] |}.

(** The parameters of a caller of [fetchNextData]. *)
Definition data_params (href : string) (persist : bool) (skip : option bool)
    : FetchNextDataParams :=
  {| dataHref := href; isServerRender := false; parseJSON := Some true;
     hasMiddleware := None; persistCache := persist; isPrefetch := false;
     isBackground := None; unstable_skipClientCache := skip |}.

(** A data response of a middleware that redirects to [target]. *)
Definition redirect_response (target : string) : Response :=
  {| status := 307; resp_headers := {["x-nextjs-redirect" := target]};
     resp_text := Fulfilled "" |}.

(** A server that answers 503, 503, 404. *)
Definition net_503_503_404 : Network :=
  {| serve := fun n =>
       Fulfilled {| status := if (n <? 2)%nat then 503 else 404;
                    resp_headers := ∅; resp_text := Fulfilled "" |};
     issued := [] |}.

(** A router after hydration, showing the page [asPath] of the route
    [route], with one history entry of its own.  The keys that
    [createKey] will return are [akey], [bkey], ... *)
Definition router_at (route asPath : string) : Router :=
  {| basePath := ""; components := {[ route := initial_info route; "/_app" := app_info ]};
     data := empty_layer; clc := None; cancelFlags := []; _bps := None; events := [];
     isSsr := false; _inFlightRoute := None; _shallow := None; locales := None;
     defaultLocale := None; domainLocales := []; isReady := true;
     isLocaleDomain := false; isFirstPopStateEvent := false;
     state := {| st_route := route; st_pathname := route; st_query := ∅;
                 st_asPath := asPath; st_locale := None; st_isFallback := false;
                 st_isPreview := false |};
     _key := "key0";
     history := [{| entry_state := HistoryN route asPath default_options "key0";
                    entry_url := asPath |}];
     historyIndex := 0; location := asPath; hostname := "n"; hardNavigations := [];
     reloads := 0; scrollStorage := ∅; pageOffset := (0, 0); scrolledTo := [];
     documentLang := None; scriptsLoaded := []; published := [];
     keys := fun n => String (ascii_of_nat (97 + n)) "key"; keysUsed := 0 |}.

(** ** Pages and answers for the examples *)

Section Traces.
#[local] Existing Instance production_env.
#[local] Existing Instance route_utils_model.
#[local] Existing Instance url_utils_plain.

(** The variables of a query update that lands on the page shown. *)
Definition vars_same_page : ChangeVars :=
  {| cv_method := replaceState; cv_url := "/"; cv_as := "/";
     cv_options := {| shallow := None; locale := LocaleUndefined; scroll := None;
                      skipClientCache := None; _h := Some 1;
                      _shouldResolveHref := Some true |};
     cv_nextState := state (router_at "/" "/"); cv_pathname := "/"; cv_query := ∅;
     cv_parsed := {| u_pathname := "/"; u_query := ∅; u_search := ""; u_hash := "" |};
     cv_resolvedAs := "/"; cv_route := "/"; cv_routeMatch := None |}.

(** The module of a page without data requirements. *)
Definition plain_page (name : string) : PageResult :=
  {| page := component name; page_styleSheets := []; mod_N_SSG := None;
     mod_N_SSP := None; mod_next_rsc := None |}.

(** A world with the pages [pages], no middleware, where every page loads,
    [getInitialProps] gives no props and the subscription resolves. *)
Definition answers_plain (pages : list string) : Answers := fun r X w =>
  match w in Wait X return X with
  | GetPageList => Fulfilled (pages, ())
  | GetMiddleware => Fulfilled None
  | DataPromise p => promise_result r p
  | LoadPage route => Fulfilled (plain_page route)
  | LoadGetInitialProps _ _ _ _ _ => Fulfilled (VObj [])
  | Subscription _ => Fulfilled ()
  end.

(** The module of a page that gets its data from the server. *)
Definition data_page (name : string) (ssg ssp rsc : option bool) : PageResult :=
  {| page := component name; page_styleSheets := []; mod_N_SSG := ssg;
     mod_N_SSP := ssp; mod_next_rsc := rsc |}.

(** A world with the pages [pages] and no middleware, where [load] is what
    loading a page gives. *)
Definition answers_pages (pages : list string) (load : string -> Settled PageResult)
    : Answers := fun r X w =>
  match w in Wait X return X with
  | GetPageList => Fulfilled (pages, ())
  | GetMiddleware => Fulfilled None
  | DataPromise p => promise_result r p
  | LoadPage route => load route
  | LoadGetInitialProps _ _ _ _ _ => Fulfilled (VObj [])
  | Subscription _ => Fulfilled ()
  end.

(** The data response of a page that is not found. *)
Definition response_404 : Response :=
  {| status := 404; resp_headers := ∅; resp_text := Fulfilled notFound_body |}.

(** [/post] has [getStaticProps]; the other pages load as plain pages. *)
Definition load_ssg (route : string) : Settled PageResult :=
  if String.eqb route "/post" then Fulfilled (data_page route (Some true) None None)
  else Fulfilled (plain_page route).

(** As [load_ssg], but the page [/404] fails to load. *)
Definition load_ssg_no_404 (route : string) : Settled PageResult :=
  if String.eqb route "/404" then Rejected (plainError "no /404") else load_ssg route.

(** [/post] is a server component page without [getStaticProps] and
    [getServerSideProps]. *)
Definition load_rsc (route : string) : Settled PageResult :=
  if String.eqb route "/post" then Fulfilled (data_page route None None (Some true))
  else Fulfilled (plain_page route).

(** A [push] to [/post] from the page [/], up to the point where it waits
    for the data of [/post], and the data response [response] arrives. *)
Definition post_data_arrives (load : string -> Settled PageResult) (response : Response)
    : Router * Status (option bool) :=
  meanwhile (settle_promise 0 (Fulfilled response))
    (resume_n 4 (answers_pages ["/"; "/post"; "/404"] load)
       (run (change 1 pushState "/post" "/post" default_options None)
          (router_at "/" "/"))).

(** The names of the components that the subscription was called with. *)
Definition published_names (r : Router) : list (option string) :=
  map (fun call => (fun i => comp_name (ri_Component i)) <$> pub_data call) (published r).

(** What is seen of a run: how the procedure stands, what the subscription
    was called with, the [asPath] of the state and the number of entries of
    the history. *)
Definition observed {A : Type} (rs : Router * Status A)
    : Standing A * list (option string) * string * nat :=
  (standing rs, published_names rs.1, st_asPath (state rs.1), length (history rs.1)).

(** As [answers_plain], but [getInitialProps] of a page fails; the one of
    the error page, which is given the error, succeeds. *)
Definition answers_gip_fails (pages : list string) : Answers := fun r X w =>
  match w in Wait X return X with
  | GetPageList => Fulfilled (pages, ())
  | GetMiddleware => Fulfilled None
  | DataPromise p => promise_result r p
  | LoadPage route => Fulfilled (plain_page route)
  | LoadGetInitialProps _ _ _ _ None => Rejected (plainError "boom")
  | LoadGetInitialProps _ _ _ _ (Some _) => Fulfilled (VObj [])
  | Subscription _ => Fulfilled ()
  end.

Definition site_pages : list string := ["/"; "/about"; "/b"; "/post"; "/404"].

(** [router.push(url)] *)
Definition push_to (url : string) : Proc (option bool) :=
  change 1 pushState url url default_options None.

(** Navigation A: a [push] to [/about] from the page [/], waiting for the
    initial props of [/about]. *)
Definition about_pending : Router * Status (option bool) :=
  resume_n 4 (answers_plain site_pages) (run (push_to "/about") (router_at "/" "/")).

(** Navigation A: a [push] to [/post], whose data are not found, waiting
    for the page [/404] to load. *)
Definition post_404_pending : Router * Status (option bool) :=
  resume_n 1 (answers_pages site_pages load_ssg) (post_data_arrives load_ssg response_404).

(** Navigation B, a [push] to [/b], starts while A waits. *)
Definition superseded (rs : Router * Status (option bool)) : Router * Status (option bool) :=
  meanwhile (starts (push_to "/b")) rs.

(** The browser follows a link to a fragment of the page shown: the
    history gets an entry without state, and a [popstate] event with no
    state is sent. *)
Definition follow_fragment (url : string) (r : Router) : Router :=
  (run (onPopState 1 HistoryNull) (history_write pushState HistoryNull url r)).1.

(** The page [/a#b], after the user has followed a link to [#c]. *)
Definition router_after_fragment : Router :=
  follow_fragment "/a#c" (router_at "/a" "/a#b").

End Traces.

(** ** More values for the examples *)

Section MoreExamples.
#[local] Existing Instance production_env.
#[local] Existing Instance route_utils_model.
#[local] Existing Instance url_utils_plain.

(** The variables of a [push] to [/about] from the page [/]. *)
Definition vars_about : ChangeVars :=
  {| cv_method := pushState; cv_url := "/about"; cv_as := "/about";
     cv_options := default_options;
     cv_nextState := state (router_at "/" "/"); cv_pathname := "/about"; cv_query := ∅;
     cv_parsed := {| u_pathname := "/about"; u_query := ∅; u_search := "";
                     u_hash := "" |};
     cv_resolvedAs := "/about"; cv_route := "/about"; cv_routeMatch := None |}.

(** The route info of a page that was loaded. *)
Definition loaded_info (name : string) : RouteInfo :=
  {| ri_Component := component name; ri_styleSheets := []; ri_initial := false;
     ri_N_SSG := None; ri_N_SSP := None; ri_N_RSC := None;
     ri_props := Some (VObj []); ri_err := None; ri_error := None;
     ri_route := Some name; ri_resolvedAs := Some name; ri_query := Some ∅ |}.

(** The arguments of [getRouteInfo] for the page [route]. *)
Definition args_for (route : string) (shallow_ : bool) : GetRouteInfoArgs :=
  {| arg_route := route; arg_pathname := route; arg_query := ∅; arg_as := route;
     arg_resolvedAs := route; arg_shallow := shallow_; arg_locale := None;
     arg_hasMiddleware := Some false; arg_isPreview := false;
     arg_skipClientCache := None |}.

(** The local variables of [getRouteInfo] for the page [route], without
    middleware data. *)
Definition vars_for (route : string) (cached : option RouteInfo) : RouteInfoVars :=
  {| var_route := route; var_pathname := route; var_query := ∅;
     var_resolvedAs := route; var_data := None; var_cachedRouteInfo := cached;
     var_fetchNextDataParams :=
       {| dataHref := "/_next/data/build" +:+ route +:+ ".json";
          isServerRender := false; parseJSON := Some true; hasMiddleware := Some true;
          persistCache := true; isPrefetch := false; isBackground := None;
          unstable_skipClientCache := None |} |}.

End MoreExamples.

(** * Theorems *)

(** ** fetchRetry *)

Lemma fetch_issued rq net :
  issued (fst (fetch rq net)) = issued net ++ [rq]
  /\ serve (fst (fetch rq net)) = serve net
  /\ snd (fetch rq net) = serve net (length (issued net)).
Proof. done. Qed.

(** What a run of [fetchRetry] does, for any fuel above the attempt count:
    it issues [n] copies of the same request, every one before the last
    was answered by a retryable response, the result is the answer to the
    last one, and it stopped early only on an answer it does not retry. *)
Lemma fetchRetry_fuel_spec fuel : forall url attempts options net,
  (Z.to_nat attempts < fuel)%nat ->
  exists n : nat,
    (1 <= n)%nat /\ Z.of_nat n <= Z.max 1 attempts
    /\ issued (fst (fetchRetry_fuel fuel url attempts options net))
       = issued net ++ replicate n (fetchRetry_request url options)
    /\ serve (fst (fetchRetry_fuel fuel url attempts options net)) = serve net
    /\ (forall k, (S k < n)%nat -> retryable (serve net (length (issued net) + k)))
    /\ snd (fetchRetry_fuel fuel url attempts options net)
       = Some (serve net (length (issued net) + (n - 1)))
    /\ (Z.of_nat n < attempts ->
        ~ retryable (serve net (length (issued net) + (n - 1)))).
Proof.
  induction fuel as [|fuel IH]; intros url attempts options net Hfuel; [lia|].
  cbn [fetchRetry_fuel]. unfold fetch.
  set (net1 := {| serve := serve net; issued := issued net ++ [fetchRetry_request url options] |}).
  destruct (serve net (length (issued net))) as [response|e] eqn:Hserve.
  - destruct (negb (ok response) && (1 <? attempts) && (500 <=? status response)) eqn:Hretry.
    + apply andb_prop in Hretry as [Hretry H500]. apply andb_prop in Hretry as [Hok Hatt].
      apply negb_true_iff in Hok. apply Z.ltb_lt in Hatt. apply Z.leb_le in H500.
      destruct (IH url (attempts - 1) options net1) as (n & Hn1 & Hn2 & Hiss & Hsrv & Hbefore & Hres & Hstop);
        [lia|].
      assert (Hlen : length (issued net1) = S (length (issued net))).
      { subst net1. cbn. rewrite length_app. cbn. lia. }
      exists (S n). split; [lia|]. split; [lia|]. split.
      { rewrite Hiss. subst net1. cbn. by rewrite <- app_assoc. }
      split; [by rewrite Hsrv|]. split.
      { intros [|k] Hk.
        - rewrite Nat.add_0_r, Hserve. by exists response.
        - replace (length (issued net) + S k)%nat with (length (issued net1) + k)%nat by lia.
          apply (Hbefore k). lia. }
      split.
      { rewrite Hres, Hlen. subst net1; cbn [serve]. do 2 f_equal. lia. }
      intros Hlt. replace (length (issued net) + (S n - 1))%nat
        with (length (issued net1) + (n - 1))%nat by lia.
      apply Hstop. lia.
    + exists 1%nat. split; [lia|]. split; [lia|]. split; [done|]. split; [done|].
      split; [intros k Hk; lia|]. split.
      { cbn. by rewrite Nat.add_0_r, Hserve. }
      intros Hlt (resp & Heq & Hok & H500). cbn in Heq.
      rewrite Nat.add_0_r, Hserve in Heq. injection Heq as ->.
      assert (Ha : (1 <? attempts) = true) by (apply Z.ltb_lt; lia).
      assert (Hs : (500 <=? status resp) = true) by (by apply Z.leb_le).
      rewrite Hok, Ha, Hs in Hretry. done.
  - exists 1%nat. split; [lia|]. split; [lia|]. split; [done|]. split; [done|].
    split; [intros k Hk; lia|]. split.
    { cbn. by rewrite Nat.add_0_r, Hserve. }
    intros _ (resp & Heq & _). cbn in Heq. rewrite Nat.add_0_r, Hserve in Heq. done.
Qed.

(** The model never runs out of fuel: [fetchRetry] settles for every
    attempt count and every network. *)
Lemma fetchRetry_total url attempts options net :
  exists s, snd (fetchRetry url attempts options net) = Some s.
Proof.
  unfold fetchRetry.
  destruct (fetchRetry_fuel_spec (S (Z.to_nat attempts)) url attempts options net)
    as (n & _ & _ & _ & _ & _ & Hres & _); [lia|]. eauto.
Qed.

Lemma issued_by_replicate net net' n rq :
  issued net' = issued net ++ replicate n rq -> issued_by net net' = Z.of_nat n.
Proof.
  intros H. unfold issued_by. rewrite H, length_app, length_replicate. lia.
Qed.



(** Three attempts against a server that answers 503, 503, 404. *)
Example fetchRetry_503_503_404 :
  issued_by net_503_503_404
    (fst (fetchRetry "/_next/data/b/a.json" 3 (mkFetchOptions None ∅) net_503_503_404)) = 3
  /\ exists resp,
       snd (fetchRetry "/_next/data/b/a.json" 3 (mkFetchOptions None ∅) net_503_503_404)
       = Some (Fulfilled resp) /\ status resp = 404.
Proof. split; [reflexivity|]. eexists. split; reflexivity. Qed.

(** ** fetchNextData: the in-flight cache *)

Section FetchNextDataFacts.
Context `{BuildEnv}.

Lemma cache_of_set_cache c m w : cache_of c (set_cache c m w) = m.
Proof. by destruct c. Qed.

Lemma fetches_set_cache c m w : fetches (set_cache c m w) = fetches w.
Proof. by destruct c. Qed.

Lemma promises_set_cache c m w : promises (set_cache c m w) = promises w.
Proof. by destruct c. Qed.

(** A caller that finds an entry gets that promise and changes nothing. *)
Lemma fetchNextData_hit p c w promise :
  skips_cache p = false ->
  cache_of c w !! absoluteHref (dataHref p) = Some promise ->
  fetchNextData p c w = (w, promise).
Proof.
  intros Hskip Hhit. unfold fetchNextData. unfold skips_cache in Hskip.
  by rewrite Hskip, Hhit.
Qed.

(** A caller that finds none starts one [fetchRetry] call and stores its
    promise. *)
Lemma fetchNextData_miss p c w :
  skips_cache p = false ->
  cache_of c w !! absoluteHref (dataHref p) = None ->
  exists method,
    fetches (fst (fetchNextData p c w)) = fetches w ++ [getData_call p method]
    /\ snd (fetchNextData p c w) = length (promises w)
    /\ cache_of c (fst (fetchNextData p c w)) !! absoluteHref (dataHref p)
       = Some (length (promises w)).
Proof.
  intros Hskip Hmiss. unfold fetchNextData. unfold skips_cache in Hskip.
  rewrite Hskip, Hmiss. cbn.
  eexists. rewrite fetches_set_cache, cache_of_set_cache, lookup_insert_eq. done.
Qed.

Lemma fetchNextData_all_hit callers c w href promise :
  Forall (fun p => dataHref p = href /\ skips_cache p = false) callers ->
  cache_of c w !! absoluteHref href = Some promise ->
  fetchNextData_all callers c w = (w, replicate (length callers) promise).
Proof.
  intros Hall Hhit. induction Hall as [|p rest [Hhref Hskip] _ IH]; [done|].
  cbn. rewrite (fetchNextData_hit p c w promise), IH; [done|done|by rewrite Hhref].
Qed.

(** Callers of one data URL that do not skip the cache and call before
    anything settles: together they start at most one [fetchRetry] call,
    they all receive the same promise, and that promise is the entry of
    the cache for the key. *)
Lemma fetchNextData_all_shared callers c w href :
  Forall (fun p => dataHref p = href /\ skips_cache p = false) callers ->
  callers <> [] ->
  exists promise,
    snd (fetchNextData_all callers c w) = replicate (length callers) promise
    /\ cache_of c (fst (fetchNextData_all callers c w)) !! absoluteHref href = Some promise
    /\ (length (fetches (fst (fetchNextData_all callers c w))) <= S (length (fetches w)))%nat.
Proof.
  intros Hall Hne. destruct Hall as [|p rest [Hhref Hskip] Hrest]; [done|]. clear Hne.
  cbn [fetchNextData_all].
  destruct (cache_of c w !! absoluteHref href) as [promise|] eqn:Hcache.
  - rewrite (fetchNextData_hit p c w promise); [|done|by rewrite Hhref].
    rewrite (fetchNextData_all_hit rest c w href promise); [|done..].
    exists promise. cbn. split; [done|]. split; [done|lia].
  - destruct (fetchNextData_miss p c w) as (method & Hf & Hp & Hc);
      [done|by rewrite Hhref|].
    destruct (fetchNextData p c w) as [w1 promise] eqn:Hcall. cbn in Hf, Hp, Hc.
    rewrite Hhref in Hc.
    rewrite (fetchNextData_all_hit rest c w1 href promise); [|done|by rewrite Hp].
    exists promise. cbn. split; [done|]. split; [by rewrite Hp|].
    rewrite Hf, length_app. cbn. lia.
Qed.

(** A caller that skips the cache starts a fresh [fetchRetry] call and
    leaves both caches as they are. *)
Lemma fetchNextData_skip_starts p c w :
  skips_cache p = true ->
  fetchNextData p c w =
    (fst (getData p c None true w), length (promises w))
  /\ fetches (fst (fetchNextData p c w)) = fetches w ++ [getData_call p None]
  /\ sdc (fst (fetchNextData p c w)) = sdc w
  /\ backgroundCache (fst (fetchNextData p c w)) = backgroundCache w
  /\ promises (fst (fetchNextData p c w)) !! length (promises w)
     = Some (Pending {| job_params := p; job_cache := c;
                        job_key := absoluteHref (dataHref p);
                        job_method := None; job_store := true |}).
Proof.
  intros Hskip. unfold fetchNextData. unfold skips_cache in Hskip. rewrite Hskip.
  cbn. split; [done|]. split; [done|]. split; [done|]. split; [done|].
  by rewrite lookup_app_r, Nat.sub_diag.
Qed.

(** When the call of such a caller succeeds, the entry of the cache is a
    new promise already resolved with its data. *)
Lemma settle_store_fulfilled promise job outcome data w :
  promises w !! promise = Some (Pending job) ->
  job_store job = true ->
  match outcome with
  | Fulfilled response => getData_response (job_params job) (job_method job) response
  | Rejected e => Rejected e
  end = Fulfilled data ->
  exists resolved,
    cache_of (job_cache job) (settle promise outcome w) !! job_key job = Some resolved
    /\ promises (settle promise outcome w) !! resolved = Some (Done (Fulfilled data))
    /\ promises (settle promise outcome w) !! promise = Some (Done (Fulfilled data))
    /\ (length (promises w) <= resolved)%nat.
Proof.
  intros Hpending Hstore Hresult. unfold settle. rewrite Hpending, Hresult, Hstore.
  assert (Hlt : (promise < length (promises w))%nat) by (by eapply lookup_lt_Some).
  exists (length (promises w)).
  match goal with
  | |- context [if ?b then set_cache ?c ?m w else w] => destruct b
  end; destruct (job_cache job); cbn; rewrite lookup_insert_eq;
    (split; [done|]); (split; [|split; [|done]]).
  all: try (rewrite list_lookup_insert_ne by lia; by rewrite lookup_app_r, Nat.sub_diag).
  all: rewrite list_lookup_insert_eq; [done|]; rewrite length_app; cbn; lia.
Qed.

(** When it fails, the entry of the cache is deleted and nothing is put in
    its place. *)
Lemma settle_rejected promise job outcome err w :
  promises w !! promise = Some (Pending job) ->
  match outcome with
  | Fulfilled response => getData_response (job_params job) (job_method job) response
  | Rejected e => Rejected e
  end = Rejected err ->
  cache_of (job_cache job) (settle promise outcome w) !! job_key job = None
  /\ promises (settle promise outcome w) !! promise = Some (Done (Rejected err)).
Proof.
  intros Hpending Hresult. unfold settle. rewrite Hpending, Hresult.
  assert (Hlt : (promise < length (promises w))%nat) by (by eapply lookup_lt_Some).
  cbn. destruct (job_cache job); cbn; rewrite lookup_delete_eq;
    (split; [done|]); rewrite list_lookup_insert_eq; done.
Qed.


End FetchNextDataFacts.

Section FetchNextDataExamples.
#[local] Existing Instance production_env.



End FetchNextDataExamples.

(** ** resolveDynamicRoute *)

Section ResolveDynamicRouteFacts.
Context `{RouteUtils}.

Lemma find_first_match {A} (f : A -> bool) (before after : list A) (x : A) :
  Forall (fun y => f y = false) before -> f x = true ->
  List.find f (before ++ x :: after) = Some x.
Proof.
  intros Hbefore Hx. induction Hbefore as [|y before Hy _ IH]; cbn.
  - by rewrite Hx.
  - by rewrite Hy.
Qed.

Lemma find_no_match {A} (f : A -> bool) (l : list A) :
  Forall (fun y => f y = false) l -> List.find f l = None.
Proof.
  intros Hl. induction Hl as [|y l Hy _ IH]; cbn; [done|]. by rewrite Hy.
Qed.

(** C8 (amended).  With [clean] the denormalized pathname without its
    trailing slash: the pathnames that clean to [/404] and [/_error] are
    returned as given; a pathname whose clean form is a known route is
    returned without its trailing slash, not remapped; otherwise the first
    known dynamic route, in listed order, whose regex matches the clean
    form is returned without its trailing slash, and when none matches the
    pathname itself is returned without its trailing slash. *)
Theorem resolveDynamicRoute_cases (pathname : string) (pages : list string) :
  let clean := removeTrailingSlash (denormalizePagePath pathname) in
  (clean = "/404" \/ clean = "/_error" ->
     resolveDynamicRoute pathname pages = pathname)
  /\ (clean <> "/404" -> clean <> "/_error" ->
      (clean ∈ pages ->
         resolveDynamicRoute pathname pages = removeTrailingSlash pathname)
      /\ (clean ∉ pages ->
          (forall before page after,
             pages = before ++ page :: after ->
             Forall (fun p => matches_dynamic clean p = false) before ->
             isDynamicRoute page = true ->
             re_test (getRouteRegex page) clean = true ->
             resolveDynamicRoute pathname pages = removeTrailingSlash page)
          /\ (Forall (fun p => matches_dynamic clean p = false) pages ->
              resolveDynamicRoute pathname pages = removeTrailingSlash pathname))).
Proof.
  intros clean. unfold resolveDynamicRoute. fold clean. split.
  - intros [-> | ->]; done.
  - intros H404 Herr.
    assert (String.eqb clean "/404" = false) as -> by (by apply String.eqb_neq).
    assert (String.eqb clean "/_error" = false) as -> by (by apply String.eqb_neq).
    cbn [orb]. split.
    + intros Hin. by rewrite bool_decide_eq_true_2.
    + intros Hnotin. rewrite bool_decide_eq_false_2 by done. cbn [negb]. split.
      * intros before page after -> Hbefore Hdyn Hre.
        rewrite (find_first_match _ before after page); [done|done|].
        unfold matches_dynamic. by rewrite Hdyn, Hre.
      * intros Hnone. by rewrite find_no_match.
Qed.

End ResolveDynamicRouteFacts.

Section ResolveDynamicRouteExamples.
#[local] Existing Instance route_utils_model.

(** The first dynamic route that matches is returned, in listed order. *)
Example resolveDynamicRoute_first_match :
  resolveDynamicRoute "/posts/1" ["/about"; "/posts/[id]"; "/[...all]"] = "/posts/[id]".
Proof. vm_compute. reflexivity. Qed.

Lemma resolveDynamicRoute_cases_witness :
  resolveDynamicRoute "/posts/1" ["/about"; "/posts/[id]"; "/[...all]"]
  = removeTrailingSlash "/posts/[id]".
Proof.
  refine (proj1 (proj2 (proj2 (resolveDynamicRoute_cases "/posts/1"
                                 ["/about"; "/posts/[id]"; "/[...all]"]) _ _) _)
            ["/about"] "/posts/[id]" ["/[...all]"] _ _ _ _);
    try (vm_compute; discriminate); try reflexivity.
  - cbn. rewrite !elem_of_cons, elem_of_nil. intros [?|[?|[?|[]]]]; discriminate.
  - repeat constructor.
Defined.

(** [/about/] cleans to the known route [/about]; it is returned without
    its trailing slash, not unchanged. *)
Lemma resolveDynamicRoute_strips_slash :
  (bool_decide (removeTrailingSlash (denormalizePagePath "/about/") ∈ ["/about"]),
   resolveDynamicRoute "/about/" ["/about"],
   String.eqb (resolveDynamicRoute "/about/" ["/about"]) "/about/")
  = (true, "/about", false).
Proof. vm_compute. reflexivity. Qed.

End ResolveDynamicRouteExamples.

(** ** Strings *)

Section StringFacts.

Lemma append_cons (x : ascii) (a b : string) : String x a +:+ b = String x (a +:+ b).
Proof. reflexivity. Qed.

Lemma append_nil (b : string) : "" +:+ b = b.
Proof. reflexivity. Qed.

Lemma append_assoc_ (a b c : string) : (a +:+ b) +:+ c = a +:+ (b +:+ c).
Proof. induction a as [|x a IH]; [done|]. by rewrite !append_cons, IH. Qed.

Lemma append_empty_r (a : string) : a +:+ "" = a.
Proof. induction a as [|x a IH]; [done|]. by rewrite append_cons, IH. Qed.

Lemma prefix_append (p s : string) : String.prefix p (p +:+ s) = true.
Proof.
  induction p as [|x p IH]; [by destruct s|].
  rewrite append_cons. cbn. destruct (ascii_dec x x); [done|congruence].
Qed.

Lemma drop_string_append (p s : string) : drop_string (String.length p) (p +:+ s) = s.
Proof. induction p as [|x p IH]; [done|]. rewrite append_cons. cbn. done. Qed.

(** A pattern that starts with [c] is not a prefix of a string that starts
    with another character. *)
Lemma prefix_head_ne (c x : ascii) (p s : string) :
  x <> c -> String.prefix (String c p) (String x s) = false.
Proof. intros Hne. cbn. destruct (ascii_dec c x); [congruence|done]. Qed.

Lemma all_chars_append f a b : all_chars f (a +:+ b) = all_chars f a && all_chars f b.
Proof.
  induction a as [|x a IH]; [done|]. rewrite append_cons. cbn. by rewrite IH, andb_assoc.
Qed.

Lemma all_chars_impl (f g : ascii -> bool) s :
  (forall c, f c = true -> g c = true) -> all_chars f s = true -> all_chars g s = true.
Proof.
  intros Hfg. induction s as [|x s IH]; cbn; [done|].
  intros [Hx Hs]%andb_prop. by rewrite (Hfg x Hx), IH.
Qed.

Lemma replace_first_unfold (x : ascii) (s pattern replacement : string) :
  replace_first (String x s) pattern replacement
  = if String.prefix pattern (String x s)
    then replacement +:+ drop_string (String.length pattern) (String x s)
    else String x (replace_first s pattern replacement).
Proof. reflexivity. Qed.

(** The first occurrence of a pattern that starts with [c], after a text
    that has no [c]. *)
Lemma replace_first_after (c : ascii) (p before after replacement : string) :
  all_chars (fun x => negb (Ascii.eqb x c)) before = true ->
  replace_first (before +:+ String c p +:+ after) (String c p) replacement
  = before +:+ replacement +:+ after.
Proof.
  induction before as [|x before IH]; intros Hbefore.
  - rewrite !append_nil, append_cons, replace_first_unfold, <- append_cons.
    by rewrite prefix_append, drop_string_append.
  - cbn in Hbefore. apply andb_prop in Hbefore as [Hx Hbefore].
    apply negb_true_iff, Ascii.eqb_neq in Hx.
    rewrite !(append_cons x before), replace_first_unfold, prefix_head_ne by done.
    by rewrite IH.
Qed.

Lemma prefix_second_ne (c d x y : ascii) (p s : string) :
  y <> d -> String.prefix (String c (String d p)) (String x (String y s)) = false.
Proof.
  intros Hne. cbn. destruct (ascii_dec c x); [|done].
  destruct (ascii_dec d y); [congruence|done].
Qed.

(** The same for a pattern that starts with [c] then [d], after a text
    that has no [d]. *)
Lemma replace_first_after_pair (c d : ascii) (p before after replacement : string) :
  c <> d ->
  all_chars (fun x => negb (Ascii.eqb x d)) before = true ->
  replace_first (before +:+ String c (String d p) +:+ after) (String c (String d p))
    replacement
  = before +:+ replacement +:+ after.
Proof.
  intros Hcd. induction before as [|x before IH]; intros Hbefore.
  - rewrite !append_nil, append_cons, replace_first_unfold, <- append_cons.
    by rewrite prefix_append, drop_string_append.
  - cbn in Hbefore. apply andb_prop in Hbefore as [Hx Hbefore].
    rewrite !(append_cons x before), replace_first_unfold.
    assert (Hno : String.prefix (String c (String d p))
                    (String x (before +:+ String c (String d p) +:+ after)) = false).
    { destruct before as [|y before].
      - rewrite append_nil, append_cons. by apply prefix_second_ne.
      - rewrite append_cons. cbn in Hbefore. apply andb_prop in Hbefore as [Hy _].
        apply negb_true_iff, Ascii.eqb_neq in Hy. by apply prefix_second_ne. }
    by rewrite Hno, IH.
Qed.

(** *** split and join *)

Lemma split_on_plain sep (p : string) :
  all_chars (fun x => negb (Ascii.eqb x sep)) p = true -> split_on sep p = [p].
Proof.
  induction p as [|x p IH]; [done|]. cbn. intros [Hx Hp]%andb_prop.
  apply negb_true_iff in Hx. by rewrite Hx, IH.
Qed.

Lemma split_on_part sep (p s : string) :
  all_chars (fun x => negb (Ascii.eqb x sep)) p = true ->
  split_on sep (p +:+ String sep s) = p :: split_on sep s.
Proof.
  induction p as [|x p IH]; intros Hp.
  - rewrite append_nil. cbn. by rewrite Ascii.eqb_refl.
  - cbn in Hp. apply andb_prop in Hp as [Hx Hp]. apply negb_true_iff in Hx.
    rewrite append_cons. cbn. by rewrite Hx, IH.
Qed.

Lemma join_cons (sep p q : string) (rest : list string) :
  join sep (p :: q :: rest) = p +:+ sep +:+ join sep (q :: rest).
Proof. reflexivity. Qed.

Lemma split_on_join (parts : list string) :
  parts <> [] ->
  Forall (fun p => all_chars (fun x => negb (Ascii.eqb x "/")) p = true) parts ->
  split_on "/" (join "/" parts) = parts.
Proof.
  intros Hne Hparts. induction Hparts as [|p rest Hp Hrest IH]; [done|].
  destruct rest as [|q rest]; [by apply split_on_plain|].
  rewrite join_cons. change ("/" +:+ join "/" (q :: rest)) with (String "/" (join "/" (q :: rest))).
  rewrite split_on_part by done. by rewrite IH.
Qed.

Lemma slashed_join (parts : list string) :
  parts <> [] -> slashed parts = "/" +:+ join "/" parts.
Proof.
  induction parts as [|p rest IH]; [done|]. intros _. cbn [slashed].
  destruct rest as [|q rest]; [by rewrite append_empty_r|].
  rewrite IH by done. by rewrite join_cons.
Qed.

Lemma slashed_app (a b : list string) : slashed (a ++ b) = slashed a +:+ slashed b.
Proof.
  induction a as [|p a IH]; [done|]. cbn [slashed app]. by rewrite IH, !append_assoc_.
Qed.

Lemma includes_string_cons (x : ascii) (s sub : string) :
  includes_string (String x s) sub
  = String.prefix sub (String x s) || includes_string s sub.
Proof. reflexivity. Qed.

Lemma includes_string_plain (s : string) :
  all_chars (fun x => negb (Ascii.eqb x "/")) s = true -> includes_string s "/" = false.
Proof.
  induction s as [|x s IH]; [done|]. intros [Hx Hs]%andb_prop.
  apply negb_true_iff, Ascii.eqb_neq in Hx.
  by rewrite includes_string_cons, prefix_head_ne, IH.
Qed.

Lemma includes_string_slash (a b : string) : includes_string (a +:+ "/" +:+ b) "/" = true.
Proof.
  induction a as [|x a IH].
  - rewrite append_nil. change ("/" +:+ b) with (String "/" b).
    rewrite includes_string_cons. change (String "/" b) with ("/" +:+ b).
    by rewrite prefix_append.
  - by rewrite append_cons, includes_string_cons, IH, orb_true_r.
Qed.

End StringFacts.

(** ** encodeURIComponent and decodeURIComponent *)

Section EncodeFacts.

(** What the round trip needs of every character. *)
Lemma encode_char (c : ascii) :
  if is_unreserved c then plain_char c = true /\ Ascii.eqb c "%" = false
  else
    plain_char (hex_digit (nat_of_ascii c / 16)) = true
    /\ plain_char (hex_digit (nat_of_ascii c mod 16)) = true
    /\ hex_value (hex_digit (nat_of_ascii c / 16)) = Some (nat_of_ascii c / 16)%nat
    /\ hex_value (hex_digit (nat_of_ascii c mod 16)) = Some (nat_of_ascii c mod 16)%nat
    /\ ascii_of_nat (16 * (nat_of_ascii c / 16) + nat_of_ascii c mod 16) = c.
Proof. destruct c as [[] [] [] [] [] [] [] []]; vm_compute; done. Qed.

Lemma encode_plain (s : string) : all_chars plain_char (encodeURIComponent s) = true.
Proof.
  induction s as [|c s IH]; [done|]. cbn [encodeURIComponent].
  pose proof (encode_char c) as Hc. destruct (is_unreserved c).
  - destruct Hc as [Hc _]. cbn [all_chars]. by rewrite Hc, IH.
  - destruct Hc as (H1 & H2 & _). cbn [all_chars]. by rewrite H1, H2, IH.
Qed.

Lemma encode_nonempty (s : string) : s <> "" -> encodeURIComponent s <> "".
Proof. destruct s as [|c s]; [done|]. intros _. cbn. by destruct (is_unreserved c). Qed.

Lemma decode_encode (s : string) : decodeURIComponent (encodeURIComponent s) = Some s.
Proof.
  induction s as [|c s IH]; [done|]. cbn [encodeURIComponent].
  pose proof (encode_char c) as Hc. destruct (is_unreserved c).
  - destruct Hc as [_ Hc]. cbn [decodeURIComponent]. rewrite Hc, IH. done.
  - destruct Hc as (_ & _ & H1 & H2 & H3). cbn [decodeURIComponent].
    rewrite Ascii.eqb_refl, H1, H2, IH.
    cbn -[Nat.mul Nat.add Nat.div Nat.modulo ascii_of_nat nat_of_ascii]. by rewrite H3.
Qed.

Lemma plain_no_slash (s : string) :
  all_chars plain_char s = true -> all_chars (fun x => negb (Ascii.eqb x "/")) s = true.
Proof. apply all_chars_impl. intros c. unfold plain_char. by intros [? _]%andb_prop. Qed.

Lemma plain_no_bracket (s : string) :
  all_chars plain_char s = true -> all_chars (fun x => negb (Ascii.eqb x "[")) s = true.
Proof. apply all_chars_impl. intros c. unfold plain_char. by intros [_ ?]%andb_prop. Qed.

End EncodeFacts.

(** ** The segments of a route *)

Section SegmentFacts.

Lemma ends_with_append (s : string) (c : ascii) : ends_with (s +:+ String c "") c = true.
Proof.
  induction s as [|x s IH]; [cbn; apply Ascii.eqb_refl|].
  rewrite append_cons. destruct s as [|y s]; [cbn; apply Ascii.eqb_refl|].
  rewrite append_cons in *. exact IH.
Qed.

Lemma drop_last_cons (x y : ascii) (s : string) :
  drop_last (String x (String y s)) = String x (drop_last (String y s)).
Proof. reflexivity. Qed.

Lemma drop_last_append (s : string) (c : ascii) : drop_last (s +:+ String c "") = s.
Proof.
  induction s as [|x s IH]; [done|].
  rewrite append_cons. destruct s as [|y s]; [done|].
  rewrite append_cons in *. by rewrite drop_last_cons, IH.
Qed.

Lemma bracketed_brackets (s : string) : bracketed (brackets s) = true.
Proof.
  unfold bracketed, startsWith, brackets. rewrite prefix_append.
  change ("[" +:+ s +:+ "]") with (String "[" s +:+ "]"). by rewrite ends_with_append.
Qed.

Lemma strip_brackets_brackets (s : string) : strip_brackets (brackets s) = s.
Proof.
  unfold strip_brackets, brackets.
  change (drop_string 1 ("[" +:+ s +:+ "]")) with (s +:+ "]").
  apply drop_last_append.
Qed.

Lemma startsWith_plain (s : string) : all_chars plain_char s = true -> startsWith s "[" = false.
Proof.
  destruct s as [|x s]; [done|]. cbn [all_chars]. intros [Hx _]%andb_prop.
  apply andb_prop in Hx as [_ Hx]. apply negb_true_iff, Ascii.eqb_neq in Hx.
  by apply prefix_head_ne.
Qed.

Lemma bracketed_plain (s : string) : all_chars plain_char s = true -> bracketed s = false.
Proof. intros Hs. unfold bracketed. by rewrite startsWith_plain. Qed.

Lemma bracketed_dots (s : string) : bracketed ("..." +:+ s) = false.
Proof.
  unfold bracketed, startsWith. change ("..." +:+ s) with (String "." (".." +:+ s)).
  by rewrite prefix_head_ne.
Qed.

Lemma parse_render (segment : Segment) :
  segment_regular segment = true -> parse_segment (render_segment segment) = segment.
Proof.
  destruct segment as [text|name repeat_ optional_]; cbn [segment_regular render_segment].
  - intros [_ Hplain]%andb_prop. unfold parse_segment. by rewrite bracketed_plain.
  - intros [[[_ Hplain]%andb_prop Hdots]%andb_prop Hshape]%andb_prop.
    apply negb_true_iff in Hdots. unfold parse_segment.
    destruct repeat_, optional_; try done; cbv zeta;
      rewrite ?bracketed_brackets, ?strip_brackets_brackets, ?bracketed_brackets,
        ?strip_brackets_brackets.
    + unfold startsWith. rewrite prefix_append.
      by change (drop_string 3 ("..." +:+ name)) with name.
    + rewrite bracketed_dots. unfold startsWith. rewrite prefix_append.
      by change (drop_string 3 ("..." +:+ name)) with name.
    + rewrite append_nil, bracketed_plain by done. by rewrite Hdots.
Qed.

Lemma render_no_slash (segment : Segment) :
  segment_regular segment = true ->
  all_chars (fun x => negb (Ascii.eqb x "/")) (render_segment segment) = true.
Proof.
  destruct segment as [text|name repeat_ optional_]; cbn [segment_regular render_segment].
  - intros [_ Hplain]%andb_prop. by apply plain_no_slash.
  - intros [[[_ Hplain]%andb_prop _]%andb_prop _]%andb_prop.
    apply plain_no_slash in Hplain.
    destruct repeat_, optional_; unfold brackets; rewrite !all_chars_append, Hplain; done.
Qed.

End SegmentFacts.

(** ** The route of a list of segments *)

Section RouteFacts.

Lemma strip_last_slash_cons (x y : ascii) (s : string) :
  strip_last_slash (String x (String y s)) = String x (strip_last_slash (String y s)).
Proof. reflexivity. Qed.

Lemma strip_last_slash_plain (b : string) :
  b <> "" -> all_chars (fun x => negb (Ascii.eqb x "/")) b = true -> strip_last_slash b = b.
Proof.
  induction b as [|x b IH]; [done|]. intros _ [Hx Hb]%andb_prop.
  destruct b as [|y b].
  - cbn. apply negb_true_iff in Hx. by rewrite Hx.
  - by rewrite strip_last_slash_cons, IH.
Qed.

Lemma strip_last_slash_end (a b : string) :
  b <> "" -> all_chars (fun x => negb (Ascii.eqb x "/")) b = true ->
  strip_last_slash (a +:+ b) = a +:+ b.
Proof.
  intros Hne Hb. induction a as [|x a IH]; [by apply strip_last_slash_plain|].
  rewrite append_cons. destruct (a +:+ b) as [|y s] eqn:Heq.
  - destruct a; [by rewrite append_nil in Heq|by rewrite append_cons in Heq].
  - by rewrite strip_last_slash_cons, IH.
Qed.

Lemma segments_ok_regular (segments : list Segment) :
  segments_ok segments = true -> Forall (fun s => segment_regular s = true) segments.
Proof.
  induction segments as [|s rest IH]; [done|]. cbn [segments_ok].
  intros [[Hs _]%andb_prop Hrest]%andb_prop. constructor; [done|by apply IH].
Qed.

Lemma render_nonempty (segment : Segment) :
  segment_regular segment = true -> render_segment segment <> "".
Proof.
  destruct segment as [text|name repeat_ optional_]; cbn [segment_regular render_segment].
  - intros [Hne _]%andb_prop. by apply negb_true_iff, String.eqb_neq in Hne.
  - intros _. by destruct optional_.
Qed.

Lemma render_route_join (segments : list Segment) :
  segments <> [] -> render_route segments = "/" +:+ join "/" (map render_segment segments).
Proof. intros Hne. unfold render_route. apply slashed_join. by destruct segments. Qed.

Lemma removeTrailingSlash_render (segments : list Segment) :
  segments <> [] -> segments_ok segments = true ->
  removeTrailingSlash_model (render_route segments) = render_route segments.
Proof.
  intros Hne Hok. apply segments_ok_regular in Hok.
  destruct segments as [|s rest _] using rev_ind; [done|].
  apply Forall_app in Hok as [_ Hs]. apply Forall_inv in Hs.
  unfold removeTrailingSlash_model, render_route.
  rewrite map_app, slashed_app. cbn [map slashed]. rewrite append_empty_r.
  rewrite <- append_assoc_.
  rewrite strip_last_slash_end by (by apply render_nonempty || by apply render_no_slash).
  rewrite append_assoc_. by destruct (slashed (map render_segment rest)).
Qed.

Lemma route_segments_render (segments : list Segment) :
  segments <> [] -> segments_ok segments = true ->
  route_segments (render_route segments) = segments.
Proof.
  intros Hne Hok. unfold route_segments. rewrite removeTrailingSlash_render by done.
  rewrite render_route_join by done.
  change (drop_string 1 ("/" +:+ ?s)) with s.
  apply segments_ok_regular in Hok.
  rewrite split_on_join.
  - rewrite map_map. rewrite <- (map_id segments) at 2. apply map_ext_Forall.
    eapply Forall_impl; [done|]. apply parse_render.
  - by destruct segments.
  - apply Forall_map. eapply Forall_impl; [done|]. apply render_no_slash.
Qed.

Lemma assoc_None {A} (name : string) (l : list (string * A)) :
  name ∉ map fst l -> assoc name l = None.
Proof.
  induction l as [|[k v] l IH]; [done|]. cbn. intros Hnotin.
  apply not_elem_of_cons in Hnotin as [Hne Hnotin].
  apply String.eqb_neq in Hne. by rewrite Hne, IH.
Qed.

Lemma groups_from_groups_of (segments : list Segment) : forall i acc,
  NoDup (map fst acc ++ segment_names segments) ->
  groups_from i segments acc = acc ++ groups_of i segments.
Proof.
  induction segments as [|[text|name repeat_ optional_] rest IH]; intros i acc Hnodup.
  - cbn. by rewrite app_nil_r.
  - cbn. by apply IH.
  - cbn [groups_from groups_of segment_names] in *.
    apply NoDup_app in Hnodup as (Hacc & Hdisj & Hnames).
    assert (Hfresh : name ∉ map fst acc).
    { intros Hin. apply (Hdisj _ Hin). by left. }
    rewrite (assoc_None name acc Hfresh).
    rewrite bool_decide_eq_false_2 by (by intros [? ?]).
    rewrite IH; [by rewrite <- app_assoc|].
    rewrite map_app, <- app_assoc. cbn.
    apply NoDup_app. split; [done|]. split; [|done].
    intros x Hx. by apply Hdisj.
Qed.

End RouteFacts.

(** ** interpolateAs on a regular route *)

Section InterpolateFacts.

Lemma slashed_no_bracket (parts : list string) :
  Forall (fun p => all_chars plain_char p = true) parts ->
  all_chars (fun x => negb (Ascii.eqb x "[")) (slashed parts) = true.
Proof.
  induction 1 as [|p rest Hp _ IH]; [done|]. cbn [slashed].
  rewrite !all_chars_append, IH, (plain_no_bracket p Hp). done.
Qed.

Lemma slashed_snoc (parts : list string) (p : string) :
  slashed (parts ++ [p]) = slashed parts +:+ "/" +:+ p.
Proof. rewrite slashed_app. cbn [slashed]. by rewrite append_empty_r. Qed.

Lemma slashed_nonempty (parts : list string) : parts <> [] -> slashed parts <> "".
Proof. by destruct parts. Qed.

Lemma value_ok_plain (v : QVal) :
  value_ok false v = true -> exists s, v = QStr s /\ s <> "".
Proof.
  destruct v as [s|l]; [|done]. cbn. intros Hs. exists s. split; [done|].
  by apply negb_true_iff, String.eqb_neq in Hs.
Qed.

Lemma value_ok_catch_all (v : QVal) :
  value_ok true v = true ->
  exists l, v = QArr l /\ l <> [] /\ Forall (fun s => s <> "") l.
Proof.
  destruct v as [s|l]; [done|]. cbn. intros [Hne Hall]%andb_prop. exists l.
  split; [done|]. split.
  - apply negb_true_iff in Hne. by apply bool_decide_eq_false_1 in Hne.
  - clear Hne. induction l as [|s l IH]; [done|]. cbn in Hall.
    apply andb_prop in Hall as [Hs Hall].
    constructor; [by apply negb_true_iff, String.eqb_neq in Hs|by apply IH].
Qed.

(** The parts that interpolation fills in are plain and not empty. *)
Lemma filled_segment_ok (query : Query) (segment : Segment) :
  segment_regular segment = true -> supplied query segment ->
  Forall (fun p => p <> "" /\ all_chars plain_char p = true) (filled_segment query segment).
Proof.
  destruct segment as [text|name repeat_ optional_]; cbn [segment_regular supplied filled_segment].
  - intros [Hne Hplain]%andb_prop _. repeat constructor; [|done].
    by apply negb_true_iff, String.eqb_neq in Hne.
  - intros _. destruct (query !! name) as [v|]; [|done]. intros Hv.
    destruct repeat_.
    + apply value_ok_catch_all in Hv as (l & -> & _ & Hl).
      apply Forall_map. eapply Forall_impl; [done|]. cbn. intros s Hs.
      split; [by apply encode_nonempty|apply encode_plain].
    + apply value_ok_plain in Hv as (s & -> & Hs).
      repeat constructor; [by apply encode_nonempty|apply encode_plain].
Qed.

Lemma filled_ok (query : Query) (segments : list Segment) :
  segments_ok segments = true -> Forall (supplied query) segments ->
  Forall (fun p => p <> "" /\ all_chars plain_char p = true) (filled query segments).
Proof.
  intros Hok%segments_ok_regular Hsup. unfold filled.
  induction Hok as [|s rest Hs _ IH]; [done|]. apply Forall_cons in Hsup as [Hsup Hrest].
  cbn [flat_map]. apply Forall_app. split; [by apply filled_segment_ok|by apply IH].
Qed.

(** The result of the calls of the callback of [params.every]. *)
Lemma interpolate_every_filled (query : Query) (rest : list Segment) : forall done i,
  segments_ok rest = true -> Forall (supplied query) rest ->
  Forall (fun p => all_chars plain_char p = true) done ->
  done <> [] \/ rest <> [] ->
  exists r,
    interpolate_every query (slashed done +:+ render_route rest) (groups_of i rest) = Some r
    /\ ((r = slashed (done ++ filled query rest) /\ done ++ filled query rest <> [])
        \/ (r = "/" /\ done ++ filled query rest = [])).
Proof.
  induction rest as [|[text|name repeat_ optional_] rest IH]; intros done i Hok Hsup Hdone Hne.
  - exists (slashed done). cbn. rewrite append_empty_r, app_nil_r. split; [done|].
    left. split; [done|]. by destruct Hne.
  - cbn [segments_ok segment_regular] in Hok.
    apply andb_prop in Hok as [[[_ Hplain]%andb_prop _]%andb_prop Hok].
    apply Forall_cons in Hsup as [_ Hsup].
    destruct (IH (done ++ [text]) i Hok Hsup) as (r & Hr & Hshape).
    { apply Forall_app. split; [done|]. by repeat constructor. }
    { left. by destruct done. }
    exists r. split.
    + rewrite <- Hr. cbn [groups_of]. f_equal. unfold render_route. cbn [map slashed].
      by rewrite slashed_snoc, !append_assoc_.
    + unfold filled in *. cbn [flat_map filled_segment]. by rewrite <- app_assoc in Hshape.
  - pose proof Hok as Hok'. cbn [segments_ok segment_regular is_catch_all] in Hok.
    apply andb_prop in Hok as [[Hregular Hlast]%andb_prop Hok].
    apply andb_prop in Hregular as [_ Hshape].
    pose proof (Forall_inv Hsup) as Hvalue. apply Forall_inv_tail in Hsup.
    cbn [supplied] in Hvalue. cbn [groups_of interpolate_every].
    assert (Hbefore : all_chars (fun x => negb (Ascii.eqb x "[")) (slashed done +:+ "/") = true).
    { by rewrite all_chars_append, slashed_no_bracket. }
    destruct (query !! name) as [v|] eqn:Hq; [destruct repeat_|].
    + (* a catch-all with a value: the last segment *)
      destruct rest; [|done].
      apply value_ok_catch_all in Hvalue as (l & -> & Hl & Hparts).
      exists (slashed (done ++ map encodeURIComponent l)). split.
      * unfold interpolate_param. cbn [repeat optional]. rewrite Hq.
        rewrite (bool_decide_eq_false_2 (QArr l = QStr "")) by done.
        rewrite (bool_decide_eq_true_2 (is_Some _)) by done.
        rewrite orb_true_r. unfold render_route. cbn [map slashed render_segment].
        assert (Hresult : slashed done +:+ "/" +:+ join "/" (map encodeURIComponent l) +:+ ""
                          = slashed (done ++ map encodeURIComponent l)).
        { rewrite append_empty_r, slashed_app, (slashed_join (map _ l)); [done|].
          by destruct l. }
        assert (Hfull : slashed (done ++ map encodeURIComponent l) <> "").
        { apply slashed_nonempty. destruct l; [done|]. by destruct done. }
        apply String.eqb_neq in Hfull.
        destruct optional_; cbn [interpolate_every].
        -- change ("" +:+ "[" +:+ ("[" +:+ "..." +:+ name +:+ "]") +:+ "]")
             with (String "[" (brackets ("..." +:+ name) +:+ "]")).
           change (brackets (brackets ("..." +:+ name)))
             with (String "[" (brackets ("..." +:+ name) +:+ "]")).
           rewrite <- (append_assoc_ (slashed done) "/"), replace_first_after by done.
           rewrite append_assoc_, Hresult, Hfull. done.
        -- change ("[" +:+ "..." +:+ name +:+ "]") with (String "[" ("..." +:+ name +:+ "]")).
           change (brackets ("..." +:+ name)) with (String "[" ("..." +:+ name +:+ "]")).
           rewrite <- (append_assoc_ (slashed done) "/"), replace_first_after by done.
           rewrite append_assoc_, Hresult, Hfull. done.
      * left. unfold filled. cbn [flat_map filled_segment]. rewrite Hq, app_nil_r.
        split; [done|]. destruct l; [done|]. by destruct done.
    + (* a placeholder with a value *)
      destruct optional_; [done|].
      apply value_ok_plain in Hvalue as (s & -> & Hs).
      destruct (IH (done ++ [encodeURIComponent s]) (S i) Hok Hsup) as (r & Hr & Hr').
      { apply Forall_app. split; [done|]. repeat constructor. apply encode_plain. }
      { left. by destruct done. }
      exists r. split.
      * rewrite <- Hr. unfold interpolate_param. cbn [repeat optional]. rewrite Hq.
        rewrite (bool_decide_eq_true_2 (is_Some _)) by done. cbn [orb qval_to_string].
        unfold render_route. cbn [map slashed render_segment].
        change ("[" +:+ "" +:+ name +:+ "]") with (String "[" (name +:+ "]")).
        change (brackets ("" +:+ name)) with (String "[" (name +:+ "]")).
        rewrite <- (append_assoc_ (slashed done) "/"), replace_first_after by done.
        assert (Hstep : (slashed done +:+ "/") +:+ encodeURIComponent s
                          +:+ slashed (map render_segment rest)
                        = slashed (done ++ [encodeURIComponent s])
                          +:+ slashed (map render_segment rest)).
        { by rewrite slashed_snoc, !append_assoc_. }
        rewrite Hstep.
        assert (Hfull : slashed (done ++ [encodeURIComponent s])
                        +:+ slashed (map render_segment rest) <> "").
        { destruct done; cbn; done. }
        apply String.eqb_neq in Hfull. by rewrite Hfull.
      * unfold filled in *. cbn [flat_map filled_segment]. rewrite Hq.
        by rewrite <- app_assoc in Hr'.
    + (* an optional catch-all without a value: the last segment *)
      subst optional_. destruct repeat_; [|done]. destruct rest; [|done].
      exists (if String.eqb (slashed done) "" then "/" else slashed done). split.
      * unfold interpolate_param. cbn [repeat optional]. rewrite Hq.
        rewrite (bool_decide_eq_true_2 (QStr "" = QStr "")) by done.
        cbn [orb join map encodeURIComponent interpolate_every].
        unfold render_route. cbn [map slashed render_segment].
        change ("/" +:+ "[" +:+ ("[" +:+ "..." +:+ name +:+ "]") +:+ "]")
          with (String "/" (String "[" (brackets ("..." +:+ name) +:+ "]"))).
        change ("/" +:+ brackets (brackets ("..." +:+ name)) +:+ "")
          with (String "/" (String "[" (brackets ("..." +:+ name) +:+ "]")) +:+ "").
        rewrite replace_first_after_pair by (done || by apply slashed_no_bracket).
        by rewrite !append_empty_r.
      * unfold filled. cbn [flat_map filled_segment]. rewrite Hq, !app_nil_r.
        destruct done as [|p done]; [by right|]. left. done.
Qed.

End InterpolateFacts.

(** ** Matching the interpolated path *)

Section MatchFacts.

Lemma last_nonempty (parts : list string) :
  parts <> [] -> Forall (fun p => p <> "") parts -> List.last parts "x" <> "".
Proof.
  intros Hne Hparts. destruct parts as [|p rest _] using rev_ind; [done|].
  rewrite last_last. by apply Forall_app in Hparts as [_ [? _]%Forall_cons].
Qed.

Lemma path_parts_slashed (parts : list string) :
  parts <> [] ->
  Forall (fun p => p <> "" /\ all_chars plain_char p = true) parts ->
  path_parts (slashed parts) = Some parts.
Proof.
  intros Hne Hparts. rewrite slashed_join by done.
  change ("/" +:+ join "/" parts) with (String "/" (join "/" parts)).
  unfold path_parts. rewrite Ascii.eqb_refl. rewrite split_on_join; [|done|].
  - assert (Hlast : List.last parts "x" <> "").
    { apply last_nonempty; [done|]. eapply Forall_impl; [done|]. by intros p [? _]. }
    apply String.eqb_neq in Hlast. by rewrite Hlast.
  - eapply Forall_impl; [done|]. intros p [_ Hp]. by apply plain_no_slash.
Qed.

Lemma join_nonempty (p : string) (rest : list string) : p <> "" -> join "/" (p :: rest) <> "".
Proof. destruct rest; [done|]. rewrite join_cons. by destruct p. Qed.

(** The regex of the route matches the parts that interpolation filled
    in. *)
Lemma exec_filled (query : Query) (segments : list Segment) :
  segments_ok segments = true -> Forall (supplied query) segments ->
  exec_segments segments (filled query segments) = Some (captures_of query segments).
Proof.
  induction segments as [|[text|name repeat_ optional_] rest IH]; intros Hok Hsup; [done|..].
  - cbn [segments_ok] in Hok. apply andb_prop in Hok as [_ Hok].
    apply Forall_cons in Hsup as [_ Hsup].
    unfold filled. cbn. rewrite String.eqb_refl. by apply IH.
  - pose proof (segments_ok_regular _ Hok) as Hregular. apply Forall_inv in Hregular.
    pose proof (filled_segment_ok query _ Hregular (Forall_inv Hsup)) as Hparts.
    cbn [segments_ok segment_regular is_catch_all] in Hok.
    apply andb_prop in Hok as [[Hshape Hlast]%andb_prop Hok].
    apply andb_prop in Hshape as [_ Hshape].
    pose proof (Forall_inv Hsup) as Hvalue. apply Forall_inv_tail in Hsup.
    cbn [supplied] in Hvalue. unfold filled in *. cbn [flat_map captures_of].
    cbn [filled_segment] in *.
    destruct (query !! name) as [v|] eqn:Hq; [destruct repeat_|].
    + destruct rest; [|done]. apply value_ok_catch_all in Hvalue as (l & -> & Hl & _).
      cbn [flat_map]. rewrite app_nil_r. cbn [exec_segments].
      destruct l as [|s l]; [done|]. cbn [map] in *.
      apply Forall_cons in Hparts as [[Hs _] _].
      pose proof (join_nonempty _ (map encodeURIComponent l) Hs) as Hjoin.
      apply String.eqb_neq in Hjoin. by rewrite Hjoin.
    + destruct optional_; [done|]. apply value_ok_plain in Hvalue as (s & -> & Hs).
      apply Forall_cons in Hparts as [[Hp _] _]. apply String.eqb_neq in Hp.
      cbn [app exec_segments]. rewrite Hp, IH by done. done.
    + subst optional_. destruct repeat_; [|done]. by destruct rest.
Qed.

Lemma mapM_decode_encode (l : list string) :
  mapM decodeURIComponent (map encodeURIComponent l) = Some l.
Proof.
  induction l as [|s l IH]; [done|]. cbn. rewrite decode_encode. cbn. by rewrite IH.
Qed.

(** The matcher turns the capture of a value back into the value. *)
Lemma matched_value_filled (g : Group) (v : QVal) :
  value_ok (repeat g) v = true ->
  matched_value g (join "/" (match v with
                             | QStr s => [encodeURIComponent s]
                             | QArr l => map encodeURIComponent l
                             end)) = Some v.
Proof.
  intros Hv. unfold matched_value. destruct (repeat g).
  - apply value_ok_catch_all in Hv as (l & -> & Hl & _).
    destruct l as [|x [|y l]]; [done|..].
    + cbn [map join]. rewrite includes_string_plain by apply plain_no_slash, encode_plain.
      rewrite decode_encode. done.
    + cbn [map]. rewrite join_cons, includes_string_slash, <- join_cons.
      change (encodeURIComponent x :: encodeURIComponent y :: map encodeURIComponent l)
        with (map encodeURIComponent (x :: y :: l)).
      rewrite split_on_join, mapM_decode_encode; [done|done|].
      apply Forall_map, Forall_forall. intros s _. apply plain_no_slash, encode_plain.
  - apply value_ok_plain in Hv as (s & -> & _). cbn [join].
    rewrite includes_string_plain by apply plain_no_slash, encode_plain.
    by rewrite decode_encode.
Qed.

Lemma matched_params_captures (query : Query) (segments : list Segment) : forall pre i,
  i = S (length pre) ->
  segments_ok segments = true -> Forall (supplied query) segments ->
  NoDup (segment_names segments) ->
  exists m,
    matched_params (pre ++ captures_of query segments) (groups_of i segments) = Some m
    /\ (forall n, n ∈ segment_names segments -> m !! n = query !! n)
    /\ (forall n, n ∉ segment_names segments -> m !! n = None).
Proof.
  induction segments as [|[text|name repeat_ optional_] rest IH];
    intros pre i Hi Hok Hsup Hnodup.
  - exists ∅. cbn. split; [done|]. split; [by intros n ?%elem_of_nil|done].
  - cbn [segments_ok] in Hok. apply andb_prop in Hok as [_ Hok].
    apply Forall_cons in Hsup as [_ Hsup]. by apply IH.
  - cbn [segments_ok segment_regular is_catch_all] in Hok.
    apply andb_prop in Hok as [_ Hok].
    pose proof (Forall_inv Hsup) as Hvalue. apply Forall_inv_tail in Hsup.
    cbn [supplied] in Hvalue. cbn [segment_names] in *.
    apply NoDup_cons in Hnodup as [Hfresh Hnodup].
    cbn [captures_of groups_of matched_params filled_segment].
    set (c := match match query !! name with
                    | Some (QStr s) => [encodeURIComponent s]
                    | Some (QArr l) => map encodeURIComponent l
                    | None => []
                    end with
              | [] => None
              | parts => Some (join "/" parts)
              end).
    destruct (IH (pre ++ [c]) (S i)) as (m & Hm & Hin & Hout); [|done..|].
    { rewrite length_app. cbn. lia. }
    rewrite <- app_assoc in Hm. cbn [app] in Hm. rewrite Hm. cbn [mbind option_bind pos].
    subst i. cbn [Nat.sub]. rewrite Nat.sub_0_r.
    rewrite lookup_app_r, Nat.sub_diag by lia. cbn [lookup list_lookup].
    destruct (query !! name) as [v|] eqn:Hq.
    + assert (Hc : c = Some (join "/" (match v with
                                       | QStr s => [encodeURIComponent s]
                                       | QArr l => map encodeURIComponent l
                                       end))).
      { subst c. destruct v as [s|l]; [done|].
        destruct repeat_; [|done]. apply value_ok_catch_all in Hvalue as (l' & [= <-] & Hl & _).
        by destruct l. }
      rewrite Hc.
      rewrite (matched_value_filled {| pos := S (length pre); repeat := repeat_;
                                       optional := optional_ |} v Hvalue).
      cbn. eexists. split; [done|]. split.
      * intros n [->|Hn]%elem_of_cons; [by rewrite lookup_insert_eq|].
        rewrite lookup_insert_ne by (by intros ->). by apply Hin.
      * intros n [Hne Hn]%not_elem_of_cons. rewrite lookup_insert_ne by done. by apply Hout.
    + subst c. cbn. exists m. split; [done|]. split.
      * intros n [->|Hn]%elem_of_cons; [by rewrite Hout|by apply Hin].
      * intros n [Hne Hn]%not_elem_of_cons. by apply Hout.
Qed.

End MatchFacts.

(** ** interpolateAs: the round trip *)

Section InterpolateMissing.
Context `{RouteUtils}.

(** [params.every] stops at a placeholder that is not optional and has no
    value. *)
Lemma interpolate_every_missing (dynamicMatches : Query) (groups_ : list (string * Group)) :
  forall interpolatedRoute n g,
    (n, g) ∈ groups_ -> optional g = false -> dynamicMatches !! n = None ->
    interpolate_every dynamicMatches interpolatedRoute groups_ = None.
Proof.
  induction groups_ as [|[param g'] rest IH]; intros s n g Hin Hopt Hnone.
  - by apply elem_of_nil in Hin.
  - cbn [interpolate_every].
    destruct (interpolate_param dynamicMatches s param g') as [r|] eqn:Hstep; [|done].
    apply elem_of_cons in Hin as [[= <- <-]|Hin]; [|by eapply IH].
    unfold interpolate_param in Hstep. rewrite Hopt, Hnone in Hstep.
    by rewrite bool_decide_eq_false_2 in Hstep by (by intros [? ?]).
Qed.

Lemma interpolateAs_missing (route asPathname : string) (query : Query) n g :
  (n, g) ∈ groups (getRouteRegex route) -> optional g = false ->
  match (if negb (String.eqb asPathname route)
         then getRouteMatcher (getRouteRegex route) asPathname else None) with
  | Some matched => matched
  | None => query
  end !! n = None ->
  result (interpolateAs route asPathname query) = "".
Proof.
  intros Hin Hopt Hnone. unfold interpolateAs. cbn [result].
  by rewrite (interpolate_every_missing _ _ _ n g).
Qed.

End InterpolateMissing.

Section RoundTrip.
#[local] Existing Instance route_utils_model.

(** The path that [interpolateAs] makes of a regular route. *)
Lemma interpolateAs_filled (segments : list Segment) (query : Query) :
  segments <> [] -> segments_ok segments = true -> NoDup (segment_names segments) ->
  Forall (supplied query) segments ->
  path_parts (result (interpolateAs (render_route segments) (render_route segments) query))
  = Some (filled query segments).
Proof.
  intros Hne Hok Hnodup Hsup. unfold interpolateAs. cbn [result].
  rewrite String.eqb_refl. cbn [negb].
  cbn [getRouteRegex route_utils_model]. unfold getRouteRegex_model. cbn [groups].
  rewrite route_segments_render, groups_from_groups_of by done. cbn [app].
  destruct (interpolate_every_filled query segments [] 1%nat) as (r & Hr & Hshape);
    [done|done|done|by right|].
  cbn [slashed] in Hr. rewrite append_nil in Hr. rewrite Hr. cbn [app] in Hshape.
  destruct Hshape as [[-> Hparts]|[-> Hparts]].
  - apply path_parts_slashed; [done|]. by apply filled_ok.
  - by rewrite Hparts.
Qed.



Example interpolateAs_posts :
  (render_route posts_route,
   result (interpolateAs "/posts/[id]/[[...rest]]" "/posts/[id]/[[...rest]]" posts_query),
   getRouteMatcher (getRouteRegex "/posts/[id]/[[...rest]]") "/posts/a%20b/x/y%2Fz"
     ≫= (.!! "rest"))
  = ("/posts/[id]/[[...rest]]", "/posts/a%20b/x/y%2Fz", Some (QArr ["x"; "y/z"])).
Proof. vm_compute. reflexivity. Qed.


End RoundTrip.

(** ** getMiddlewareData *)

Section MiddlewareFacts.
Context `{BuildEnv} `{RouteUtils} `{UrlUtils}.

Lemma all_results_bind {A B} (P : B -> Prop) (p : Proc A) (f : A -> Proc B) :
  all_results (fun a => all_results P (f a)) p -> all_results P (bind p f).
Proof. induction p; cbn; intros; auto. Qed.

Lemma all_results_impl {A} (P Q : A -> Prop) (p : Proc A) :
  (forall a, P a -> Q a) -> all_results P p -> all_results Q p.
Proof. intros HPQ. induction p; cbn; intros; auto. Qed.

Lemma header_with_header_ne name name' v response :
  name <> name' -> header (with_header name v response) name' = header response name'.
Proof. intros Hne. unfold header, with_header. cbn. by rewrite lookup_partial_alter_ne. Qed.

Lemma carries_rewrite_target response :
  truthy (rewriteTarget_of response) = carries_rewrite response.
Proof.
  unfold rewriteTarget_of, carries_rewrite, or_else, is_sentinel.
  destruct (truthy (header response "x-nextjs-rewrite")) eqn:Hrw; cbn.
  { rewrite Hrw. cbn. rewrite andb_false_r. cbn. done. }
  destruct (truthy (header response "x-nextjs-matched-path")) eqn:Hmp; cbn.
  { rewrite andb_false_r. cbn. done. }
  destruct (truthy (header response "x-matched-path")) eqn:Hxm; cbn; [|done].
  destruct (includes_string _ "__next_data_catchall"); cbn; [done|].
  destruct (includes_string _ "/_error"); cbn; [done|].
  destruct (includes_string _ "/404"); cbn; done.
Qed.

Lemma rewriteTarget_with_redirect redirect response :
  rewriteTarget_of (with_header "x-nextjs-redirect" redirect response)
  = rewriteTarget_of response.
Proof.
  unfold rewriteTarget_of. by rewrite !header_with_header_ne.
Qed.

Lemma rewrite_effect_type source rewriteHeader parsed info fsPathname ls pages rewrites :
  all_results (fun e => effect_type e = "rewrite")
    (rewrite_effect source rewriteHeader parsed info fsPathname ls pages rewrites).
Proof.
  unfold rewrite_effect. apply all_results_bind.
  destruct (_ || _).
  - unfold parseRelativeUrl_or_throw. destruct (parseRelativeUrl source); cbn; [|done].
    repeat (match goal with |- context [if ?b then _ else _] => destruct b end); done.
  - cbn. repeat (match goal with |- context [if ?b then _ else _] => destruct b end); done.
Qed.


End MiddlewareFacts.

Section MiddlewareExamples.
#[local] Existing Instance production_env.
#[local] Existing Instance route_utils_model.
#[local] Existing Instance url_utils_plain.


End MiddlewareExamples.

(** ** History entries and the popstate handler *)

Section HistoryFacts.
Context `{BuildEnv} `{RouteUtils} `{UrlUtils}.

(** [changeState] with [replaceState]: the current entry is overwritten
    with an entry that carries the marker and the current key. *)
Lemma changeState_replace url as_ options r :
  run (changeState replaceState url as_ options) r
  = (history_write replaceState (HistoryN url as_ options (_key r)) as_
       (set_key (_key r) (set_shallow (shallow options) r)),
     Returned ()).
Proof. reflexivity. Qed.

(** [changeState] with [pushState] to a URL other than the current one: an
    entry is added that carries the marker and a key taken from
    [createKey], which becomes the current key. *)
Lemma changeState_push url as_ options r :
  location r <> as_ ->
  run (changeState pushState url as_ options) r
  = (history_write pushState (HistoryN url as_ options (keys r (keysUsed r))) as_
       (set_key (keys r (keysUsed r))
          (set_keysUsed (S (keysUsed r)) (set_shallow (shallow options) r))),
     Returned ()).
Proof.
  intros Hne. unfold changeState. cbn.
  apply String.eqb_neq in Hne. rewrite Hne. reflexivity.
Qed.

(** [changeState] with [pushState] to the current URL does nothing. *)
Lemma changeState_push_same url options r :
  run (changeState pushState url (location r) options) r = (r, Returned ()).
Proof. unfold changeState. cbn. by rewrite String.eqb_refl. Qed.

(** A write with [replaceState] keeps the number of entries, the position
    and the key. *)
Lemma history_write_replace_frame st as_ r :
  length (history (history_write replaceState st as_ r)) = length (history r)
  /\ historyIndex (history_write replaceState st as_ r) = historyIndex r
  /\ _key (history_write replaceState st as_ r) = _key r.
Proof. cbn. by rewrite length_insert. Qed.

(** C5 (amended).  Every entry that [changeState] writes carries the marker
    of the router ([__N]) and a key: with [replaceState] the current key,
    with [pushState] a key newly taken from [createKey], and a [pushState]
    to the current URL writes nothing.  On a popstate event, an entry of
    the app router ([__NA]) is not navigated to and reloads the page; an
    entry without the marker [__N] is not navigated to either, and is
    ignored without a reload. *)
Theorem history_entries_marked (url as_ : string) (options : TransitionOptions)
    (fuel : nat) (r : Router) :
  run (changeState replaceState url as_ options) r
  = (history_write replaceState (HistoryN url as_ options (_key r)) as_
       (set_key (_key r) (set_shallow (shallow options) r)),
     Returned ())
  /\ (location r <> as_ ->
      run (changeState pushState url as_ options) r
      = (history_write pushState (HistoryN url as_ options (keys r (keysUsed r))) as_
           (set_key (keys r (keysUsed r))
              (set_keysUsed (S (keysUsed r)) (set_shallow (shallow options) r))),
         Returned ()))
  /\ (location r = as_ ->
      run (changeState pushState url as_ options) r = (r, Returned ()))
  /\ run (onPopState fuel HistoryNA) r
     = (set_reloads (S (reloads r)) (set_isFirstPopStateEvent false r),
        Returned PopStateReloaded)
  /\ run (onPopState fuel HistoryNotN) r
     = (set_isFirstPopStateEvent false r, Returned PopStateIgnored).
Proof.
  split; [apply changeState_replace|].
  split; [apply changeState_push|].
  split; [intros <-; apply changeState_push_same|].
  split; reflexivity.
Qed.

End HistoryFacts.

Section HistoryExamples.
#[local] Existing Instance production_env.
#[local] Existing Instance route_utils_model.
#[local] Existing Instance url_utils_plain.

Lemma history_entries_marked_witness :
  run (changeState pushState "/about" "/about" default_options) (router_at "/" "/")
  = (history_write pushState (HistoryN "/about" "/about" default_options "akey") "/about"
       (set_key "akey" (set_keysUsed 1 (set_shallow None (router_at "/" "/")))),
     Returned ()).
Proof.
  apply (history_entries_marked "/about" "/about" default_options 1 (router_at "/" "/")).
  discriminate.
Defined.

(** An entry without the marker [__N] (and without [__NA]) comes back on a
    popstate event: the handler returns at once and the page is not
    reloaded. *)
Lemma popstate_without_marker_no_reload :
  reloads (run (onPopState 1 HistoryNotN) (router_at "/" "/")).1
  = reloads (router_at "/" "/")
  /\ (run (onPopState 1 HistoryNotN) (router_at "/" "/")).2 = Returned PopStateIgnored.
Proof. split; reflexivity. Qed.

End HistoryExamples.

(** ** The commit step of change *)

Section CommitFacts.
Context `{BuildEnv} `{RouteUtils} `{UrlUtils}.

Lemma run_bind {A B} (p : Proc A) (f : A -> Proc B) r :
  run (bind p f) r =
  match run p r with
  | (r', Returned a) => run (f a) r'
  | (r', Threw e) => (r', Threw e)
  | (r', Hangs) => (r', Hangs)
  | (r', Waiting w k) => (r', Waiting w (fun x => bind (k x) f))
  end.
Proof. revert r. induction p; intros; cbn; auto. Qed.

(** [changeState] touches the history, the key and [_shallow] only: what
    the subscribers were sent and the state stay as they are. *)
Lemma changeState_frame method url as_ options r :
  exists r', run (changeState method url as_ options) r = (r', Returned ())
             /\ state r' = state r /\ published r' = published r
             /\ events r' = events r /\ components r' = components r.
Proof.
  unfold changeState. cbn.
  destruct (negb (bool_decide (method = pushState)) || negb (String.eqb (location r) as_));
    [|by eexists].
  destruct (negb (bool_decide (method = pushState))); cbn; destruct method; eexists; done.
Qed.

(** C6.  In a query update ([_h]) with no scroll instruction (no forced
    scroll, [scroll] not requested), no ready-state change and no locale
    change, when [compareRouterStates] finds the upcoming state equal to
    the current one: [change] writes the history entry and returns true
    without calling the subscription, and the state of the router is the
    upcoming state. *)
Theorem query_update_skips_publish (v : ChangeVars) (cleanedAs : string)
    (routeInfo : RouteInfo) (props : option Value) (sameInfo : bool)
    (error : option Error) (routeProps_shallow : bool) (r : Router) :
  (forall a b, compareRouterStates a b = true -> a = b) ->
  truthy_num (_h (cv_options v)) = true ->
  scroll (cv_options v) <> Some true ->
  compareRouterStates (upcoming_state v cleanedAs) (state r) = true ->
  exists r',
    run (change_commit v cleanedAs routeInfo props sameInfo error routeProps_shallow
           false false None) r
    = (r', Returned (Completed true))
    /\ published r' = published r
    /\ state r' = upcoming_state v cleanedAs
    /\ r' = (run (changeState (cv_method v) (cv_url v) (cv_as v) (cv_options v))
               (set_events (events r ++ [beforeHistoryChange (cv_as v) routeProps_shallow])
                  r)).1.
Proof.
  intros Hsound Hh Hscroll Hsame.
  set (r0 := set_events (events r ++ [beforeHistoryChange (cv_as v) routeProps_shallow]) r).
  destruct (changeState_frame (cv_method v) (cv_url v) (cv_as v) (cv_options v) r0)
    as (r' & Hrun & Hstate & Hpub & _ & _).
  exists r'. unfold change_commit.
  rewrite run_bind. cbn [emit modify run bind]. fold r0.
  rewrite run_bind, Hrun. cbn [run]. rewrite Hh. cbn.
  assert (Hnoscroll : default false (scroll (cv_options v)) = false).
  { destruct (scroll (cv_options v)) as [[]|]; done. }
  rewrite Hnoscroll, Hstate. change (state r0) with (state r). rewrite Hsame. cbn.
  split; [done|]. split; [by rewrite Hpub|]. split; [|done].
  symmetry. by apply Hsound.
Qed.

End CommitFacts.

Section CommitExamples.
#[local] Existing Instance production_env.
#[local] Existing Instance route_utils_model.
#[local] Existing Instance url_utils_plain.

Lemma query_update_skips_publish_witness :
  exists r',
    run (change_commit vars_same_page "/" (initial_info "/") (Some (VObj [])) true None
           false false false None) (router_at "/" "/")
    = (r', Returned (Completed true))
    /\ published r' = published (router_at "/" "/")
    /\ state r' = upcoming_state vars_same_page "/"
    /\ r' = (run (changeState replaceState "/" "/" (cv_options vars_same_page))
               (set_events [beforeHistoryChange "/" false] (router_at "/" "/"))).1.
Proof.
  apply (query_update_skips_publish vars_same_page "/" (initial_info "/") (Some (VObj []))
           true None false (router_at "/" "/")).
  - intros a b Hab. by apply bool_decide_eq_true_1 in Hab.
  - reflexivity.
  - discriminate.
  - apply bool_decide_eq_true_2. reflexivity.
Defined.

End CommitExamples.

(** ** Reasoning about procedures *)

Section WpFacts.
Context `{BuildEnv} `{RouteUtils} `{UrlUtils}.

Lemma wp_mono {A} (p : Proc A) (Q Q' : Router -> Status A -> Prop) r :
  (forall r' s, Q r' s -> Q' r' s) -> wp p Q r -> wp p Q' r.
Proof. intros HQ. revert r. induction p; cbn; intros; eauto. Qed.

Lemma wp_bind {A B} (p : Proc A) (f : A -> Proc B) (Q : Router -> Status B -> Prop) r :
  wp p (fun r' s => match s with
                    | Returned a => wp (f a) Q r'
                    | Threw e => Q r' (Threw e)
                    | Hangs => Q r' Hangs
                    | Waiting _ _ => True
                    end) r ->
  wp (bind p f) Q r.
Proof. revert r. induction p; cbn; intros; eauto. Qed.

Lemma wp_bind_inv {A B} (p : Proc A) (f : A -> Proc B) (Q : Router -> Status B -> Prop) r :
  wp (bind p f) Q r ->
  wp p (fun r' s => match s with
                    | Returned a => wp (f a) Q r'
                    | Threw e => Q r' (Threw e)
                    | Hangs => Q r' Hangs
                    | Waiting _ _ => True
                    end) r.
Proof. revert r. induction p; cbn; intros; eauto. Qed.

Lemma wp_try_catch {A} (p : Proc A) (h : Error -> Proc A)
    (Q : Router -> Status A -> Prop) r :
  wp p (fun r' s => match s with
                    | Returned a => Q r' (Returned a)
                    | Threw e => wp (h e) Q r'
                    | Hangs => Q r' Hangs
                    | Waiting _ _ => True
                    end) r ->
  wp (try_catch p h) Q r.
Proof. revert r. induction p; cbn; intros; eauto. Qed.

(** A run up to the next [await] ends in a router and a status that [wp]
    accounts for. *)
Lemma wp_run {A} (p : Proc A) (Q : Router -> Status A -> Prop) r :
  wp p Q r ->
  match (run p r).2 with
  | Waiting _ _ => True
  | s => Q (run p r).1 s
  end.
Proof.
  revert r. induction p as [a|e| |k IH|r0 k IH|X w k IH]; intros r Hwp; cbn in *; auto.
  - by apply IH.
  - by apply IH.
Qed.

(** *** Procedures that keep a relation *)

Section Kept.
Context (R : Router -> Router -> Prop) `{!PreOrder R}.

Lemma kept_ret {A} (a : A) : kept R (Ret a).
Proof. intros r. cbn. reflexivity. Qed.

Lemma kept_throw {A} (e : Error) : kept R (@Throw _ A e).
Proof. intros r. cbn. reflexivity. Qed.

Lemma kept_never {A} : kept R (@Never _ A).
Proof. intros r. cbn. reflexivity. Qed.

Lemma kept_bind {A B} (p : Proc A) (f : A -> Proc B) :
  kept R p -> (forall a, kept R (f a)) -> kept R (bind p f).
Proof.
  intros Hp Hf r. apply wp_bind. eapply wp_mono; [|apply Hp].
  intros r' [a|e| |X w k] Hr'; cbn; try done.
  eapply wp_mono; [|apply Hf]. cbn. intros r'' _ Hr''. by etrans.
Qed.

Lemma kept_try_catch {A} (p : Proc A) (h : Error -> Proc A) :
  kept R p -> (forall e, kept R (h e)) -> kept R (try_catch p h).
Proof.
  intros Hp Hh r. apply wp_try_catch. eapply wp_mono; [|apply Hp].
  intros r' [a|e| |X w k] Hr'; cbn; try done.
  eapply wp_mono; [|apply Hh]. cbn. intros r'' _ Hr''. by etrans.
Qed.

Lemma kept_settled {A} (p : Proc A) : kept R p -> kept R (settled p).
Proof.
  intros Hp. unfold settled. apply kept_try_catch.
  - apply kept_bind; [done|]. intros a. apply kept_ret.
  - intros e. apply kept_ret.
Qed.

Lemma kept_gets {A} (f : Router -> A) : kept R (gets f).
Proof. intros r. cbn. reflexivity. Qed.

Lemma kept_modify (f : Router -> Router) :
  (forall r, R r (f r)) -> kept R (modify f).
Proof. intros Hf r. cbn. apply Hf. Qed.

Lemma kept_await {A} (w : Wait (Settled A)) : kept R (await w).
Proof. intros r [a|e]; cbn; reflexivity. Qed.

End Kept.

Lemma kept_weaken (R R' : Router -> Router -> Prop) {A} (p : Proc A) :
  (forall r r', R r r' -> R' r r') -> kept R p -> kept R' p.
Proof. intros HR Hp r. eapply wp_mono; [|apply Hp]. cbn. eauto. Qed.

#[global] Instance same_view_preorder : PreOrder same_view.
Proof.
  split; [intros r; reflexivity|]. intros r1 r2 r3 H12 H23. unfold same_view in *. congruence.
Qed.

#[global] Instance same_entries_preorder : PreOrder same_entries.
Proof.
  split; [by intros r|]. intros r1 r2 r3 (?&?&?) (?&?&?). unfold same_entries.
  repeat split; congruence.
Qed.

Lemma same_view_entries r r' : same_view r r' -> same_entries r r'.
Proof.
  unfold same_view, view, same_entries. intros Hv.
  injection Hv as _ Hh Hi Hk _ _. by rewrite Hh, Hi, Hk.
Qed.

End WpFacts.

(** Splits a goal [framed p] along the structure of [p]; [tac] proves what
    is left for the procedures that [p] calls. *)
Ltac framed_with tac :=
  unfold framed;
  repeat first
    [ tac
    | apply kept_ret; tc_solve | apply kept_throw; tc_solve | apply kept_never; tc_solve
    | apply kept_gets; tc_solve | apply kept_await; tc_solve
    | apply kept_modify; try tc_solve; intros;
      first [unfold same_view; reflexivity | by repeat split]
    | apply kept_bind; try tc_solve; [|intros]
    | apply kept_try_catch; try tc_solve; [|intros]
    | apply kept_settled; try tc_solve
    | match goal with
      | |- kept _ (match ?x with _ => _ end) => destruct x
      | |- kept _ (let '(_, _) := ?x in _) => destruct x
      end
    | progress cbv zeta ].

Section FramedProcedures.
Context `{BuildEnv} `{RouteUtils} `{UrlUtils}.

Lemma emit_framed e : framed (emit e).
Proof. unfold emit. framed_with fail. Qed.

Lemma handleHardNavigation_framed url : framed (handleHardNavigation url).
Proof. unfold handleHardNavigation. framed_with fail. Qed.

Lemma getCancelledHandler_framed : framed getCancelledHandler.
Proof. unfold getCancelledHandler. framed_with fail. Qed.

Lemma call_cancel_framed cancel : framed (call_cancel cancel).
Proof. unfold call_cancel. framed_with fail. Qed.

Lemma handleCancelled_framed route cancel : framed (handleCancelled route cancel).
Proof. unfold handleCancelled. framed_with fail. Qed.

Lemma scrollToHash_framed as_ : framed (scrollToHash as_).
Proof. unfold scrollToHash. framed_with fail. Qed.

Lemma parseRelativeUrl_or_throw_framed url : framed (parseRelativeUrl_or_throw url).
Proof. unfold parseRelativeUrl_or_throw. framed_with fail. Qed.

Lemma set_prop_framed o name v : framed (set_prop o name v).
Proof. unfold set_prop. framed_with fail. Qed.

Lemma fetchNextData_call_framed p c : framed (fetchNextData_call p c).
Proof. unfold fetchNextData_call. framed_with fail. Qed.

Lemma await_fetchNextData_framed p c : framed (await_fetchNextData p c).
Proof. unfold await_fetchNextData. framed_with ltac:(apply fetchNextData_call_framed). Qed.

Lemma matchesMiddleware_framed asPath locale_ : framed (matchesMiddleware asPath locale_).
Proof. unfold matchesMiddleware. framed_with fail. Qed.

Lemma rewrite_effect_framed source rewriteHeader parsed info fsPathname ls pages rewrites :
  framed (rewrite_effect source rewriteHeader parsed info fsPathname ls pages rewrites).
Proof.
  unfold rewrite_effect. framed_with ltac:(apply parseRelativeUrl_or_throw_framed).
Qed.

Lemma getMiddlewareData_framed source response : framed (getMiddlewareData source response).
Proof.
  unfold getMiddlewareData.
  framed_with ltac:(first [apply parseRelativeUrl_or_throw_framed
                          | apply rewrite_effect_framed]).
Qed.

Lemma withMiddlewareEffects_framed fetchData asPath locale_ :
  framed (withMiddlewareEffects fetchData asPath locale_).
Proof.
  unfold withMiddlewareEffects.
  framed_with ltac:(first [apply matchesMiddleware_framed
                          | apply await_fetchNextData_framed
                          | apply getMiddlewareData_framed]).
Qed.

Lemma _getData_framed {A} (fn : Proc A) : framed fn -> framed (_getData fn).
Proof. intros Hfn. unfold _getData. framed_with ltac:(apply Hfn). Qed.

Lemma fetchComponent_framed route : framed (fetchComponent route).
Proof.
  unfold fetchComponent.
  framed_with ltac:(first [apply getCancelledHandler_framed
                          | apply handleCancelled_framed]).
Qed.

Lemma getInitialProps_framed c pathname query asPath err :
  framed (getInitialProps c pathname query asPath err).
Proof. unfold getInitialProps. framed_with fail. Qed.

Lemma _getFlightData_framed dataHref_ : framed (_getFlightData dataHref_).
Proof. unfold _getFlightData. framed_with ltac:(apply await_fetchNextData_framed). Qed.

Lemma handleRouteInfoError_fuel_framed fuel : forall err pathname query as_ sh fail_,
  framed (handleRouteInfoError_fuel fuel err pathname query as_ sh fail_).
Proof.
  induction fuel as [|fuel IH]; intros; cbn [handleRouteInfoError_fuel];
    framed_with ltac:(first [apply emit_framed | apply handleHardNavigation_framed
                            | apply fetchComponent_framed | apply getInitialProps_framed
                            | apply IH]).
Qed.

Lemma handleRouteInfoError_framed err pathname query as_ sh :
  framed (handleRouteInfoError err pathname query as_ sh).
Proof. apply handleRouteInfoError_fuel_framed. Qed.

Lemma getRouteInfo_start_framed a : framed (getRouteInfo_start a).
Proof.
  unfold getRouteInfo_start.
  framed_with ltac:(first [apply getCancelledHandler_framed
                          | apply withMiddlewareEffects_framed
                          | apply handleCancelled_framed]).
Qed.

Lemma getRouteInfo_props_framed a v routeInfo b1 b2 :
  framed (getRouteInfo_props a v routeInfo b1 b2).
Proof.
  unfold getRouteInfo_props.
  framed_with ltac:(first [apply await_fetchNextData_framed
                          | apply getInitialProps_framed]).
Qed.

Lemma getRouteInfo_finish_framed a v : framed (getRouteInfo_finish a v).
Proof.
  unfold getRouteInfo_finish.
  framed_with ltac:(first [apply handleHardNavigation_framed
                          | apply fetchComponent_framed
                          | apply _getData_framed
                          | apply getRouteInfo_props_framed
                          | apply _getFlightData_framed
                          | apply fetchNextData_call_framed
                          | apply parseRelativeUrl_or_throw_framed
                          | apply set_prop_framed]).
Qed.

Lemma getRouteInfo_framed a : framed (getRouteInfo a).
Proof.
  unfold getRouteInfo.
  framed_with ltac:(first [apply getRouteInfo_start_framed
                          | apply getRouteInfo_finish_framed
                          | apply handleRouteInfoError_framed]).
Qed.

Lemma change_locale_framed nextState options url as_ :
  framed (change_locale nextState options url as_).
Proof.
  unfold change_locale.
  framed_with ltac:(first [apply parseRelativeUrl_or_throw_framed
                          | apply handleHardNavigation_framed]).
Qed.

Lemma cancel_in_flight_framed isSsr_ sh : framed (cancel_in_flight isSsr_ sh).
Proof.
  unfold cancel_in_flight.
  framed_with ltac:(first [apply emit_framed | apply call_cancel_framed]).
Qed.

Lemma change_resolve_framed cleanedAs mm pages rewrites v :
  framed (change_resolve cleanedAs mm pages rewrites v).
Proof. unfold change_resolve. framed_with ltac:(apply handleHardNavigation_framed). Qed.

Lemma change_match_framed mm v : framed (change_match mm v).
Proof. unfold change_match. framed_with ltac:(apply parseRelativeUrl_or_throw_framed). Qed.

Lemma change_middleware_route_framed info sh v :
  framed (change_middleware_route info sh v).
Proof. unfold change_middleware_route. framed_with fail. Qed.

Lemma change_props_redirect_framed v pages destination basePathFlag :
  framed (change_props_redirect v pages destination basePathFlag).
Proof.
  unfold change_props_redirect.
  framed_with ltac:(first [apply parseRelativeUrl_or_throw_framed
                          | apply handleHardNavigation_framed]).
Qed.

Lemma change_notFound_framed v : framed (change_notFound v).
Proof.
  unfold change_notFound.
  framed_with ltac:(first [apply fetchComponent_framed | apply getRouteInfo_framed]).
Qed.

End FramedProcedures.

(** ** Procedures that keep a relation and return values of a kind *)

Section KeepsFacts.
Context `{BuildEnv} `{RouteUtils} `{UrlUtils}.

Lemma wp_trivial {A} (p : Proc A) (Q : Router -> Status A -> Prop) r :
  (forall r' s, Q r' s) -> wp p Q r.
Proof. intros HQ. revert r. induction p; cbn; intros; eauto. Qed.

Lemma wp_gets_bind {A B} (f : Router -> A) (k : A -> Proc B) Q r :
  wp (k (f r)) Q r -> wp (bind (gets f) k) Q r.
Proof. done. Qed.

Section Keeps.
Context (R : Router -> Router -> Prop) `{!PreOrder R}.

Lemma keeps_ret {A} (P : A -> Prop) (a : A) : P a -> keeps R P (Ret a).
Proof. intros Ha r. cbn. split; [reflexivity|done]. Qed.

Lemma keeps_throw {A} (P : A -> Prop) (e : Error) : keeps R P (Throw e).
Proof. intros r. cbn. split; [reflexivity|done]. Qed.

Lemma keeps_never {A} (P : A -> Prop) : keeps R P Never.
Proof. intros r. cbn. split; [reflexivity|done]. Qed.

Lemma keeps_bind {A B} (P : A -> Prop) (P' : B -> Prop) (p : Proc A) (f : A -> Proc B) :
  keeps R P p -> (forall a, P a -> keeps R P' (f a)) -> keeps R P' (bind p f).
Proof.
  intros Hp Hf r. apply wp_bind. eapply wp_mono; [|apply Hp].
  intros r' [a|e| |X w k] [Hr' Ha]; cbn in *; try done.
  eapply wp_mono; [|by apply Hf]. cbn. intros r'' s [Hr'' Hs]. split; [by etrans|done].
Qed.

Lemma keeps_try_catch {A} (P : A -> Prop) (p : Proc A) (h : Error -> Proc A) :
  keeps R P p -> (forall e, keeps R P (h e)) -> keeps R P (try_catch p h).
Proof.
  intros Hp Hh r. apply wp_try_catch. eapply wp_mono; [|apply Hp].
  intros r' [a|e| |X w k] [Hr' Ha]; cbn in *; try done.
  eapply wp_mono; [|by apply Hh]. cbn. intros r'' s [Hr'' Hs]. split; [by etrans|done].
Qed.

Lemma kept_keeps {A} (p : Proc A) : kept R p -> keeps R (fun _ => True) p.
Proof. intros Hp r. eapply wp_mono; [|apply Hp]. cbn. intros r' []; done. Qed.

Lemma keeps_kept {A} (P : A -> Prop) (p : Proc A) : keeps R P p -> kept R p.
Proof. intros Hp r. eapply wp_mono; [|apply Hp]. cbn. by intros r' s [? _]. Qed.

Lemma keeps_bind_kept {A B} (P : B -> Prop) (p : Proc A) (f : A -> Proc B) :
  kept R p -> (forall a, keeps R P (f a)) -> keeps R P (bind p f).
Proof. intros Hp Hf. eapply keeps_bind; [by apply kept_keeps|]. intros a _. apply Hf. Qed.

(** A call in a procedure whose postcondition is on the returned values. *)
Lemma wp_keeps_bind {A B} (P0 : A -> Prop) (p : Proc A) (k : A -> Proc B)
    (P : Router -> B -> Prop) r :
  keeps R P0 p ->
  (forall a r', R r r' -> P0 a -> wp (k a) (on_return P) r') ->
  wp (bind p k) (on_return P) r.
Proof.
  intros Hp Hk. apply wp_bind. eapply wp_mono; [|apply Hp].
  intros r' [a|e| |X w k'] [Hr' Ha]; cbn in *; try done. by apply Hk.
Qed.

Lemma wp_kept_bind {A B} (p : Proc A) (k : A -> Proc B) (P : Router -> B -> Prop) r :
  kept R p ->
  (forall a r', R r r' -> wp (k a) (on_return P) r') ->
  wp (bind p k) (on_return P) r.
Proof.
  intros Hp Hk. eapply wp_keeps_bind; [by apply kept_keeps|]. intros a r' Hr' _. by apply Hk.
Qed.

End Keeps.

Lemma keeps_weaken (R R' : Router -> Router -> Prop) {A} (P P' : A -> Prop) (p : Proc A) :
  (forall r r', R r r' -> R' r r') -> (forall a, P a -> P' a) ->
  keeps R P p -> keeps R' P' p.
Proof.
  intros HR HP Hp r. eapply wp_mono; [|apply Hp]. cbn.
  intros r' [a|e| |X w k] [Hr' Ha]; cbn in *; eauto.
Qed.

Lemma framed_entries {A} (p : Proc A) : framed p -> kept same_entries p.
Proof. apply kept_weaken, same_view_entries. Qed.

End KeepsFacts.

(** Splits a goal [keeps R P p] along the structure of [p]; [tac] is tried
    first, and also proves that the procedures called keep [R]. *)
Ltac keeps_with tac :=
  repeat first
    [ tac
    | apply keeps_ret; try tc_solve;
      solve [cbn; repeat case_match; first [done | reflexivity | congruence]]
    | apply keeps_throw; tc_solve | apply keeps_never; tc_solve
    | apply keeps_bind_kept; try tc_solve; [solve [framed_with tac]|intros]
    | apply keeps_try_catch; try tc_solve; [|intros]
    | match goal with
      | |- keeps _ _ (let '(_, _) := if ?c then _ else _ in _) => destruct c
      | |- keeps _ _ (match ?x with _ => _ end) => destruct x
      | |- keeps _ _ (let '(_, _) := ?x in _) => destruct x
      end
    | progress cbv zeta ].

(** ** The history method of a navigation to the current path *)

Section Demotion.
Context `{BuildEnv} `{RouteUtils} `{UrlUtils}.

Lemma changeState_replace_entries url as_ options :
  kept same_entries (changeState replaceState url as_ options).
Proof.
  intros r. unfold same_entries, changeState.
  rewrite (bool_decide_eq_false_2 (replaceState = pushState)) by done.
  cbn. by rewrite length_insert.
Qed.

Lemma set_entries st data_ resetScroll : kept same_entries (set st data_ resetScroll).
Proof. unfold set. framed_with fail. Qed.

Lemma change_commit_entries v cleanedAs routeInfo props sameInfo error sh rsc lc fs :
  cv_method v = replaceState ->
  keeps same_entries no_push
    (change_commit v cleanedAs routeInfo props sameInfo error sh rsc lc fs).
Proof.
  intros Hm. unfold change_commit. rewrite Hm.
  keeps_with ltac:(first [apply framed_entries;
                            first [apply emit_framed | apply scrollToHash_framed]
                         | apply changeState_replace_entries
                         | apply set_entries]).
Qed.

Lemma change_resolve_method cleanedAs mm pages rewrites v :
  keeps same_view (flow_method (cv_method v))
    (change_resolve cleanedAs mm pages rewrites v).
Proof. unfold change_resolve. keeps_with ltac:(apply handleHardNavigation_framed). Qed.

Lemma change_match_method mm v :
  keeps same_view (fun v' => cv_method v' = cv_method v) (change_match mm v).
Proof. unfold change_match. keeps_with ltac:(apply parseRelativeUrl_or_throw_framed). Qed.

Lemma change_middleware_route_method info sh v :
  keeps same_view (fun v' => cv_method v' = cv_method v)
    (change_middleware_route info sh v).
Proof. unfold change_middleware_route. keeps_with fail. Qed.

Lemma change_props_redirect_method v pages destination basePathFlag :
  cv_method v = replaceState ->
  keeps same_view no_push (change_props_redirect v pages destination basePathFlag).
Proof.
  intros Hm. unfold change_props_redirect. rewrite Hm.
  keeps_with ltac:(first [apply parseRelativeUrl_or_throw_framed
                         | apply handleHardNavigation_framed]).
Qed.

Lemma change_middleware_step info sh v (c : bool) :
  cv_method v = replaceState ->
  keeps same_entries (fun v' => cv_method v' = replaceState)
    (if c then change_middleware_route info sh v else Ret v).
Proof.
  intros Hm. destruct c; [|by apply keeps_ret; try tc_solve].
  eapply keeps_weaken; [apply same_view_entries| |apply change_middleware_route_method].
  cbn. congruence.
Qed.

Lemma change_resolve_step cleanedAs mm pages rewrites v (c : bool) :
  cv_method v = replaceState ->
  keeps same_entries (flow_method replaceState)
    (if c then change_resolve cleanedAs mm pages rewrites v else Ret (GoOn v)).
Proof.
  intros Hm. destruct c; [|by apply keeps_ret; try tc_solve].
  eapply keeps_weaken; [apply same_view_entries| |apply change_resolve_method].
  by rewrite Hm.
Qed.

Lemma change_match_step mm v (c : bool) :
  cv_method v = replaceState ->
  keeps same_entries (fun v' => cv_method v' = replaceState)
    (if c then change_match mm v else Ret v).
Proof.
  intros Hm. destruct c; [|by apply keeps_ret; try tc_solve].
  eapply keeps_weaken; [apply same_view_entries| |apply change_match_method].
  cbn. congruence.
Qed.

Lemma change_with_info_entries info v cx :
  cv_method v = replaceState ->
  keeps same_entries no_push (change_with_info info v cx).
Proof.
  intros Hm. unfold change_with_info.
  eapply keeps_bind; [tc_solve|by apply change_middleware_step|]. intros v' Hv'.
  keeps_with ltac:(first [apply framed_entries; apply change_notFound_framed
                         | unfold commit; apply change_commit_entries; assumption
                         | eapply keeps_weaken;
                           [apply same_view_entries| |
                            by apply change_props_redirect_method]; done]).
Qed.

Lemma change_try_entries v cx :
  cv_method v = replaceState ->
  keeps same_entries no_push (change_try v cx).
Proof.
  intros Hm. unfold change_try. rewrite Hm.
  keeps_with ltac:(first [apply framed_entries;
                            first [apply getRouteInfo_framed
                                  | apply handleHardNavigation_framed]
                         | by apply change_with_info_entries]).
Qed.

Lemma change_hash_entries url as_ cleanedAs options nextState sh scroll_ :
  kept same_entries
    (change_hash replaceState url as_ cleanedAs options nextState sh scroll_).
Proof.
  unfold change_hash.
  framed_with ltac:(first [apply framed_entries;
                             first [apply emit_framed | apply scrollToHash_framed]
                          | apply changeState_replace_entries
                          | apply set_entries]).
Qed.

Lemma change_prepare_entries url as_ options fs :
  keeps same_entries prepared_no_push (change_prepare replaceState url as_ options fs).
Proof.
  unfold change_prepare.
  keeps_with ltac:(first
    [ apply framed_entries;
      first [apply handleHardNavigation_framed | apply change_locale_framed
            | apply cancel_in_flight_framed | apply parseRelativeUrl_or_throw_framed
            | apply matchesMiddleware_framed | apply emit_framed]
    | apply change_hash_entries
    | eapply (keeps_bind _ (flow_method replaceState)); try tc_solve;
      [apply change_resolve_step; cbn; by case_match|intros ? ?]
    | eapply (keeps_bind _ (fun v' => cv_method v' = replaceState)); try tc_solve;
      [apply change_match_step; cbn; assumption|intros ? ?] ]).
Qed.

Lemma change_once_entries url as_ options fs :
  keeps same_entries no_push (change_once replaceState url as_ options fs).
Proof.
  unfold change_once.
  eapply keeps_bind; [tc_solve|apply change_prepare_entries|]. intros [o|v cx] Hp.
  - by apply keeps_ret; try tc_solve.
  - apply keeps_try_catch; try tc_solve; [by apply change_try_entries|].
    intros e. destruct (cancelled e); [by apply keeps_ret; try tc_solve|].
    apply keeps_throw; tc_solve.
Qed.

(** A navigation with [replaceState] keeps the number of entries of the
    history, its position and its key, redirects included. *)
Lemma change_entries fuel : forall url as_ options fs,
  kept same_entries (change fuel replaceState url as_ options fs).
Proof.
  induction fuel as [|fuel IH]; intros; cbn [change];
    (eapply (keeps_kept _ (fun _ => True)), keeps_bind;
       [tc_solve|apply change_once_entries|]);
    intros [b|[] u a o] Ho; try done;
    try (by exfalso; apply Ho);
    try (by apply keeps_ret; try tc_solve).
  apply kept_keeps; try tc_solve. apply IH.
Qed.

Lemma change_rest_entries fuel v cx :
  cv_method v = replaceState -> kept same_entries (change_rest fuel v cx).
Proof.
  intros Hm. unfold change_rest.
  eapply (keeps_kept _ (fun _ => True)), (keeps_bind _ no_push); try tc_solve.
  - apply keeps_try_catch; try tc_solve; [by apply change_try_entries|].
    intros e. destruct (cancelled e); [by apply keeps_ret; try tc_solve|].
    apply keeps_throw; tc_solve.
  - intros [b|[] u a o] Ho; try (by exfalso; apply Ho);
      try (by apply keeps_ret; try tc_solve).
    destruct fuel; [by apply keeps_ret; try tc_solve|].
    apply kept_keeps; try tc_solve. apply change_entries.
Qed.

(** [change] is its first part followed by [change_rest]. *)
Lemma wp_change fuel method url as_ options fs (Q : Router -> Status (option bool) -> Prop) r :
  wp (change_prepare method url as_ options fs)
    (fun r1 s =>
       match s with
       | Returned (PreparedTry v cx) => wp (change_rest fuel v cx) Q r1
       | Returned (PreparedReturn (Completed b)) => Q r1 (Returned (Some b))
       | Returned (PreparedReturn (Again method' url' as' options')) =>
           match fuel with
           | O => Q r1 (Returned None)
           | S fuel' => wp (change fuel' method' url' as' options' None) Q r1
           end
       | Threw e => Q r1 (Threw e)
       | Hangs => Q r1 Hangs
       | Waiting _ _ => True
       end) r ->
  wp (change fuel method url as_ options fs) Q r.
Proof.
  intros Hwp.
  assert (Hunfold : change fuel method url as_ options fs
    = bind (change_once method url as_ options fs)
        (fun outcome =>
           match outcome with
           | Completed b => Ret (Some b)
           | Again method url as_ options =>
               match fuel with
               | O => Ret None
               | S fuel' => change fuel' method url as_ options None
               end
           end)) by (by destruct fuel).
  rewrite Hunfold. unfold change_once. apply wp_bind, wp_bind.
  eapply wp_mono; [|apply Hwp]. intros r1 [[[b|m u a o]|v cx]|e| |X w k] Hs; cbn; try done.
  - by destruct fuel.
  - unfold change_rest in Hs. by apply wp_bind_inv in Hs.
Qed.

(** The first part of a [pushState] navigation: when it reaches the [try]
    block, what the user sees of the router is as before, and the method is
    [replaceState] if the cleaned [as] is the current [asPath] and the
    locale stays. *)
Lemma change_prepare_demotes url as_ options fs r :
  wp (change_prepare pushState url as_ options fs)
    (on_return (fun r1 p =>
       match p with
       | PreparedTry v cx =>
           same_view r r1
           /\ (st_asPath (state r) = cx_cleanedAs cx -> cx_localeChange cx = false ->
               cv_method v = replaceState)
       | PreparedReturn _ => True
       end)) r.
Proof.
  unfold change_prepare. destruct (negb (isLocalURL url)).
  { apply wp_bind, wp_trivial. by intros ? []. }
  apply wp_gets_bind. cbv zeta.
  apply (wp_kept_bind same_view); [framed_with fail|]. intros _ r1 Hr1.
  apply (wp_kept_bind same_view); [framed_with fail|]. intros _ r2 Hr2.
  destruct (truthy_num (_h options) && bool_decide (is_Some (clc r))); [done|].
  apply (wp_kept_bind same_view); [framed_with ltac:(apply change_locale_framed)|].
  intros [lv|] r3 Hr3; [|done].
  apply (wp_kept_bind same_view); [apply cancel_in_flight_framed|]. intros _ r4 Hr4.
  apply wp_gets_bind.
  apply (wp_kept_bind same_view); [framed_with fail|]. intros _ r5 Hr5.
  match goal with |- wp (if ?c then _ else _) _ _ => destruct c end.
  { apply wp_bind, wp_trivial. by intros ? []. }
  apply (wp_kept_bind same_view); [apply parseRelativeUrl_or_throw_framed|].
  intros parsed r6 Hr6.
  apply (wp_kept_bind same_view); [framed_with fail|].
  intros [[pages rewrites]|e] r7 Hr7.
  2: { apply wp_bind, wp_trivial. by intros ? []. }
  apply wp_gets_bind.
  apply (wp_kept_bind same_view); [apply matchesMiddleware_framed|]. intros mm r8 Hr8.
  apply wp_gets_bind.
  assert (Hstate : state r7 = state r).
  { assert (Hv : same_view r r7) by (do 6 (etrans; [eassumption|]); done).
    unfold same_view, view in Hv. congruence. }
  set (method := if negb (urlIsNew _ r7) && negb _ then replaceState else pushState).
  set (cleanedAs := removeLocale _ _) in *.
  set (localeChange := negb (bool_decide _)) in *.
  match goal with |- wp (bind ?p _) _ _ =>
    apply (wp_keeps_bind same_view (flow_method method) p) end.
  { match goal with |- keeps _ _ (if ?c then _ else _) => destruct c end;
      [apply change_resolve_method|by apply keeps_ret; try tc_solve]. }
  intros [v|o] r9 Hr9 Hflow; [|done]. cbn in Hflow.
  destruct (negb (isLocalURL (cv_as v))).
  { destruct (negb (String.eqb NODE_ENV "production")); [done|].
    apply wp_bind, wp_trivial. by intros ? []. }
  match goal with |- wp (bind ?p _) _ _ =>
    apply (wp_keeps_bind same_view (fun v' => cv_method v' = method) p) end.
  { match goal with |- keeps _ _ (if ?c then _ else _) => destruct c end;
      [|by apply keeps_ret; try tc_solve].
    eapply keeps_weaken; [done| |apply change_match_method]. cbn. congruence. }
  intros v' r10 Hr10 Hv'.
  apply (wp_kept_bind same_view); [framed_with ltac:(apply emit_framed)|].
  intros _ r11 Hr11. cbn. split.
  - do 10 (etrans; [eassumption|]). done.
  - intros Has Hlc. rewrite Hv'. unfold method, urlIsNew.
    rewrite Hstate, Has, String.eqb_refl, Hlc. done.
Qed.

End Demotion.

Section SamePath.
Context `{BuildEnv} `{RouteUtils} `{UrlUtils}.

(** The procedures run as [wp] says, whatever answers the world gives. *)
Lemma wp_resume {A} (answers : Answers) (p : Proc A) (Q : Router -> Status A -> Prop) r :
  wp p Q r ->
  exists p' r', resume answers (run p r) = run p' r' /\ wp p' Q r'.
Proof.
  revert r. induction p as [a|e| |k IH|r0 k IH|X w k IH]; intros r Hwp; cbn in *.
  - by exists (Ret a), r.
  - by exists (Throw e), r.
  - by exists Never, r.
  - by apply IH.
  - by apply IH.
  - exists (k (answers r X w)), r. split; [done|apply Hwp].
Qed.

Lemma wp_resume_n {A} (answers : Answers) n : forall (p : Proc A) Q r,
  wp p Q r ->
  match (resume_n n answers (run p r)).2 with
  | Waiting _ _ => True
  | s => Q (resume_n n answers (run p r)).1 s
  end.
Proof.
  induction n as [|n IH]; intros p Q r Hwp; cbn [resume_n].
  - by apply wp_run.
  - destruct (wp_resume answers p Q r Hwp) as (p' & r' & -> & Hwp'). by apply IH.
Qed.

(** C10 (amended).  A navigation with [pushState] that reaches the [try]
    block of [change] (it is local, and not a change of the hash only),
    whose cleaned [as] is the current [asPath] and whose locale stays, goes
    on with [replaceState]; whatever the awaited operations answer, and
    with the redirects it follows, the history then keeps the number of its
    entries, its position and its key.  And [changeState] with [pushState]
    to the URL the browser is at changes nothing. *)
Theorem push_to_current_path_replaces (fuel : nat) (url as_ : string)
    (options : TransitionOptions) (forcedScroll : option (Z * Z)) (r : Router) :
  wp (change_prepare pushState url as_ options forcedScroll)
    (on_return (fun r1 p =>
       match p with
       | PreparedTry v cx =>
           st_asPath (state r) = cx_cleanedAs cx -> cx_localeChange cx = false ->
           cv_method v = replaceState
           /\ wp (change_rest fuel v cx) (fun r2 _ => same_entries r r2) r1
       | PreparedReturn _ => True
       end)) r
  /\ run (changeState pushState url (location r) options) r = (r, Returned ()).
Proof.
  split; [|apply changeState_push_same].
  eapply wp_mono; [|apply change_prepare_demotes].
  intros r1 [[o|v cx]|e| |X w k]; cbn; try done.
  intros [Hv Hm] Has Hlc. split; [by apply Hm|].
  eapply wp_mono; [|apply change_rest_entries; by apply Hm].
  cbn. intros r2 _ He. etrans; [by apply same_view_entries|done].
Qed.

End SamePath.

Section SamePathExamples.
#[local] Existing Instance production_env.
#[local] Existing Instance route_utils_model.
#[local] Existing Instance url_utils_plain.

(** A [push] to the path shown, [/about]: the entry is replaced. *)
Example push_to_current_path_trace :
  let rs := resume_n 6 (answers_plain ["/about"])
              (run (change 1 pushState "/about" "/about" default_options None)
                 (router_at "/about" "/about")) in
  (standing rs,length (history rs.1), _key rs.1) = (Resolved (Some true), 1%nat, "key0").
Proof. vm_compute. reflexivity. Qed.

(** The page [/a#b] is shown and the user has followed a link to [#c], so
    that the browser is at [/a#c].  A [push] to [/a#b], the current
    [asPath], is a change of the hash only: it keeps [pushState], adds an
    entry to the history and takes a new key. *)
Lemma push_same_hash_adds_entry :
  let r := router_after_fragment in
  let rs := resume_n 1 (answers_plain ["/a"])
              (run (change 1 pushState "/a#b" "/a#b" default_options None) r) in
  (st_asPath (state r), location r, length (history r), _key r)
  = ("/a#b", "/a#c", 2%nat, "key0")
  /\ (standing rs,st_asPath (state rs.1), length (history rs.1), _key rs.1)
     = (Resolved (Some true), "/a#b", 3%nat, "akey").
Proof. split; vm_compute; reflexivity. Qed.

End SamePathExamples.

(** ** Page data that is not found *)

Section NotFound.
Context `{BuildEnv} `{RouteUtils} `{UrlUtils}.

(** The response handling of [getData] on a 404 with a body that says
    [notFound], for a caller that does not set [hasMiddleware]. *)
Lemma getData_response_notFound p method response text :
  is_true (hasMiddleware p) = false ->
  status response = 404 ->
  resp_text response = Fulfilled text ->
  truthyV (getProp (tryToParseAsJSON text) "notFound") = true ->
  getData_response p method response
  = Fulfilled {| out_dataHref := dataHref p;
                 out_json := VObj [("notFound", SSG_DATA_NOT_FOUND)];
                 out_response := response; out_text := text |}.
Proof.
  intros Hmw Hstatus Htext Hbody. unfold getData_response, ok.
  rewrite Htext, Hmw, Hstatus, Hbody. reflexivity.
Qed.

(** The flag of a closure that was just created is not set. *)
Lemma fresh_flag (flags : list bool) :
  default false ((flags ++ [false]) !! length flags) = false.
Proof. by rewrite lookup_app_r, Nat.sub_diag by lia. Qed.

(** [notFoundRoute] is [/404] when the page [/404] loads, and [/_error]
    when loading it fails. *)
Lemma notFound_route_choice r :
  exists r1 k,
    run notFound_route r = (r1, Waiting (LoadPage "/404") k)
    /\ (forall page_, (run (k (Fulfilled page_)) r1).2 = Returned "/404")
    /\ (forall e, (run (k (Rejected e)) r1).2 = Returned "/_error").
Proof.
  eexists _, _. split; [reflexivity|].
  split; intros; cbn; unfold is_cancelled; cbn; rewrite fresh_flag; cbn;
    by rewrite bool_decide_eq_true_2.
Qed.

(** In [change], page props of a page with [getStaticProps] or
    [getServerSideProps] that carry the not-found marker, and no redirect,
    lead to the route info of the not-found view, which is what the commit
    step gets. *)
Lemma change_with_info_notFound info props v cx :
  cx_isMiddlewareMatch cx = false ->
  is_true (ri_N_SSG info) || is_true (ri_N_SSP info) = true ->
  ri_props info = Some props ->
  is_SSG_DATA_NOT_FOUND (getProp props "notFound") = true ->
  truthyV (getProp (getProp props "pageProps") "__N_REDIRECT") = false ->
  change_with_info info v cx
  = bind (match unstable_scriptLoader (ri_Component info) with
          | Some scripts =>
              modify (fun r => set_scriptsLoaded
                                 (scriptsLoaded r ++ map (fun s => getProp s "props") scripts)
                                 r)
          | None => Ret ()
          end)
      (fun _ =>
         let v' := with_nextState
                     (set_st_isPreview (truthyV (getProp props "__N_PREVIEW"))
                        (cv_nextState v)) v in
         bind (change_notFound v')
           (fun notFoundInfo => commit v' cx notFoundInfo (Some props) false (ri_error info))).
Proof.
  intros Hmm Hdata Hprops Hmarker Hredirect. unfold change_with_info.
  rewrite Hmm, andb_false_r. cbn [bind]. rewrite Hdata, Hprops. cbn [from_option id].
  assert (Htruthy : truthyV props = true) by (by destruct props).
  rewrite Htruthy, Hredirect, andb_false_r, Hmarker. reflexivity.
Qed.

(** The commit step of a navigation that is not a query update: the
    history is written, the state is the upcoming one, and the
    subscription is called with the route info given. *)
Lemma commit_publishes v cx routeInfo props error app r :
  truthy_num (_h (cv_options v)) = false ->
  components r !! "/_app" = Some app ->
  exists r1 call k,
    run (commit v cx routeInfo props false error) r = (r1, Waiting (Subscription call) k)
    /\ pub_data call = Some routeInfo
    /\ published r1 = published r ++ [call]
    /\ state r1 = upcoming_state v (cx_cleanedAs cx).
Proof.
  intros Hh Happ. unfold commit, change_commit.
  set (r0 := set_events (events r ++ [beforeHistoryChange (cv_as v) (cx_shallow cx)]) r).
  destruct (changeState_frame (cv_method v) (cv_url v) (cv_as v) (cv_options v) r0)
    as (r' & Hrun & Hstate & Hpub & _ & Hcomp).
  rewrite run_bind. cbn [emit modify run bind]. fold r0.
  rewrite run_bind, Hrun. cbn [run]. rewrite Hh. cbn [andb negb gets run bind].
  unfold settled, set. cbn. rewrite Hcomp. change (components r0) with (components r).
  rewrite Happ. cbn. eexists _, _, _. split; [reflexivity|]. cbn.
  by rewrite Hpub.
Qed.


End NotFound.

Section NotFoundExamples.
#[local] Existing Instance production_env.
#[local] Existing Instance route_utils_model.
#[local] Existing Instance url_utils_plain.

(** The data of the page [/post], which has [getStaticProps], are not
    found: the view [/404] is shown at [/post], in a new history entry. *)
Example data_404_trace :
  let rs := resume_n 6 (answers_pages ["/"; "/post"; "/404"] load_ssg)
              (post_data_arrives load_ssg response_404) in
  (standing (post_data_arrives load_ssg response_404), standing rs,
   published_names rs.1, st_asPath (state rs.1), length (history rs.1))
  = (AtData 0, Resolved (Some true), [Some "/404"], "/post", 2%nat).
Proof. vm_compute. reflexivity. Qed.

(** The same when the page [/404] fails to load: the view is [/_error]. *)
Example data_404_fallback_trace :
  let rs := resume_n 6 (answers_pages ["/"; "/post"; "/404"] load_ssg_no_404)
              (post_data_arrives load_ssg_no_404 response_404) in
  (standing rs, published_names rs.1, st_asPath (state rs.1), length (history rs.1))
  = (Resolved (Some true), [Some "/_error"], "/post", 2%nat).
Proof. vm_compute. reflexivity. Qed.


End NotFoundExamples.

(** ** A navigation that is superseded *)

Section Supersede.
Context `{BuildEnv} `{RouteUtils} `{UrlUtils}.

(** A new navigation calls the [cancel] closure in [clc]: its flag is set
    and [clc] is emptied. *)
Lemma cancel_in_flight_sets_flag isSsr_ sh cancel route r :
  clc r = Some cancel -> _inFlightRoute r = Some route -> route <> "" ->
  (cancel < length (cancelFlags r))%nat ->
  exists r', run (cancel_in_flight isSsr_ sh) r = (r', Returned ())
             /\ is_cancelled cancel r' = true /\ clc r' = None
             /\ view r' = view r.
Proof.
  intros Hclc Hroute Hne Hlt. unfold cancel_in_flight. cbn. rewrite Hclc, Hroute. cbn.
  assert (String.eqb route "" = false) as -> by (by apply String.eqb_neq). cbn.
  destruct isSsr_; cbn; eexists; (split; [reflexivity|]); unfold is_cancelled; cbn;
    by rewrite list_lookup_insert_eq.
Qed.

(** [fetchComponent] after its closure was called: whether the page loads
    or not, a cancellation is thrown and the router is left as it is. *)
Lemma fetchComponent_superseded route r :
  exists r1 k,
    run (fetchComponent route) r = (r1, Waiting (LoadPage route) k)
    /\ clc r1 = Some (length (cancelFlags r))
    /\ forall answer r2,
         is_cancelled (length (cancelFlags r)) r2 = true ->
         exists e, run (k answer) r2 = (r2, Threw e) /\ cancelled e = true.
Proof.
  eexists _, _. split; [reflexivity|]. split; [reflexivity|].
  intros [page_|err] r2 Hflag; repeat (progress (cbn; rewrite ?Hflag));
    eexists; split; reflexivity.
Qed.

(** [_getData] after its closure was called: when [fn] resolves, a
    cancellation is thrown; when [fn] rejects, its own error is. *)
Lemma _getData_superseded {A} (w : Wait (Settled A)) r :
  exists r1 k,
    run (_getData (await w)) r = (r1, Waiting w k)
    /\ clc r1 = Some (length (cancelFlags r))
    /\ forall r2,
         is_cancelled (length (cancelFlags r)) r2 = true ->
         (forall a, exists e, (run (k (Fulfilled a)) r2).2 = Threw e /\ cancelled e = true)
         /\ (forall err, run (k (Rejected err)) r2 = (r2, Threw err)).
Proof.
  eexists _, _. split; [reflexivity|]. split; [reflexivity|].
  intros r2 Hflag. split.
  - intros a. cbn. destruct (bool_decide _); cbn; rewrite Hflag; eexists; split; reflexivity.
  - intros err. reflexivity.
Qed.

End Supersede.

Section SupersedeExamples.
#[local] Existing Instance production_env.
#[local] Existing Instance route_utils_model.
#[local] Existing Instance url_utils_plain.

(** C1 (does not hold of the code).  Navigation A is a [push] from the
    page [/]; navigation B, a [push] to [/b], starts while A waits, and
    calls the [cancel] closure of A.

    - A waits for the initial props of [/about], which then arrive: A
      resolves to false and has changed neither the state nor the history.
    - A waits for the initial props of [/about], which then fail with the
      error [boom]: A loads the error page, writes a history entry for
      [/about], sets the state, calls the subscription with the error
      view, and rejects with [boom].
    - A waits for the page [/404] (the data of [/post] were not found),
      which then loads: the cancellation is caught as a failure to load
      [/404]; A loads [/_error], writes a history entry for [/post], sets
      the state, calls the subscription, and resolves to true. *)
Theorem superseded_navigation_commits :
  (observed about_pending, observed (superseded about_pending),
   observed (resume_n 1 (answers_plain site_pages) (superseded about_pending)))
  = ((AtInitialProps, [], "/", 1%nat), (AtInitialProps, [], "/", 1%nat),
     (Resolved (Some false), [], "/", 1%nat))
  /\ observed (resume_n 4 (answers_gip_fails site_pages) (superseded about_pending))
     = (Failed "boom" false, [Some "/_error"], "/about", 2%nat)
  /\ (observed post_404_pending, observed (superseded post_404_pending),
      observed (resume_n 5 (answers_pages site_pages load_ssg)
                  (superseded post_404_pending)))
     = ((AtLoadPage "/404", [], "/", 1%nat), (AtLoadPage "/404", [], "/", 1%nat),
        (Resolved (Some true), [Some "/_error"], "/post", 2%nat)).
Proof. repeat split; vm_compute; reflexivity. Qed.

End SupersedeExamples.

(** ** The small helpers: omit, stripOrigin, onlyAHashChange *)

Section HelperFacts.
Context `{BuildEnv} `{RouteUtils} `{UrlUtils}.

(** [omit(object, keys)] has no entry for a key listed in [keys], and has
    for every other key the entry of [object]. *)
Theorem omit_lookup (object : Query) (keys : list string) (k : string) :
  omit object keys !! k = if bool_decide (k ∈ keys) then None else object !! k.
Proof.
  unfold omit. rewrite map_lookup_filter.
  destruct (object !! k) as [v|] eqn:Hk; cbn; [|by case_bool_decide].
  case_bool_decide as Hin.
  - by rewrite option_guard_False by (cbn; auto).
  - by rewrite option_guard_True.
Qed.

(** [stripOrigin] removes the origin of the page from the front of a URL,
    once, and returns any other URL as it is. *)
Theorem stripOrigin_origin (path url : string) :
  stripOrigin (locationOrigin +:+ path) = path
  /\ (startsWith url locationOrigin = false -> stripOrigin url = url).
Proof.
  unfold stripOrigin, startsWith. split.
  - by rewrite prefix_append, drop_string_append.
  - by intros ->.
Qed.

Lemma split_hash_with_hash (path : string) (hash : option string) :
  no_hash path = true -> (forall h, hash = Some h -> no_hash h = true) ->
  split_hash (with_hash path hash) = (path, hash).
Proof.
  intros Hpath Hhash. unfold split_hash, with_hash. destruct hash as [h|].
  - change (path +:+ "#" +:+ h) with (path +:+ String "#" h).
    rewrite split_on_part by done. rewrite split_on_plain by (by apply Hhash). done.
  - by rewrite split_on_plain.
Qed.

(** [onlyAHashChange]: with the router at the path [path] and the fragment
    [hash], a URL with the path [path'] and the fragment [hash'] is a
    change of the hash only when the paths are equal and either the new
    fragment is not empty or the two fragments differ.  So a URL equal to
    the current one is a hash change when it has a fragment that is not
    empty, and is not one otherwise. *)
Theorem onlyAHashChange_paths (path path' : string) (hash hash' : option string)
    (r : Router) :
  st_asPath (state r) = with_hash path hash -> with_hash path hash <> "" ->
  no_hash path = true -> no_hash path' = true ->
  (forall h, hash = Some h -> no_hash h = true) ->
  (forall h, hash' = Some h -> no_hash h = true) ->
  onlyAHashChange (with_hash path' hash') r
  = String.eqb path path' && (truthy hash' || negb (bool_decide (hash = hash'))).
Proof.
  intros Has Hne Hp Hp' Hh Hh'. unfold onlyAHashChange. rewrite Has.
  apply String.eqb_neq in Hne. rewrite Hne.
  rewrite !split_hash_with_hash by done.
  destruct (String.eqb path path'); cbn; [|by rewrite andb_false_r].
  rewrite andb_true_r.
  destruct (truthy hash'), (bool_decide (hash = hash')); done.
Qed.

End HelperFacts.

Section HelperExamples.
#[local] Existing Instance production_env.
#[local] Existing Instance route_utils_model.
#[local] Existing Instance url_utils_plain.

(** From [/a#b], the URL [/a#c] is a change of the hash only. *)
Lemma onlyAHashChange_paths_witness :
  onlyAHashChange "/a#c" (router_at "/a" "/a#b") = true.
Proof.
  apply (onlyAHashChange_paths "/a" "/a" (Some "b") (Some "c") (router_at "/a" "/a#b"));
    try done; by intros h [= <-].
Defined.

End HelperExamples.

(** ** The requests of the data layer and the life of a cache entry *)

Section DataFacts.
Context `{BuildEnv}.

(** The requests of a [getData] run: the same request is issued once for
    a client-side transition and at most three times on a server render;
    it goes to the data URL with same-origin credentials, the method asked
    for ([GET] when none is), the header [x-nextjs-data: 1], and the header
    [purpose: prefetch] for a prefetch and only then. *)
Theorem getData_requests (p : FetchNextDataParams) (method : option string)
    (net : Network) :
  exists n : nat,
    issued (getData_network p method net)
    = issued net ++ replicate n (getData_request p method)
    /\ (1 <= n <= if isServerRender p then 3 else 1)%nat
    /\ req_url (getData_request p method) = dataHref p
    /\ req_credentials (getData_request p method) = "same-origin"
    /\ req_method (getData_request p method) = or_string method "GET"
    /\ req_headers (getData_request p method) !! "x-nextjs-data" = Some "1"
    /\ req_headers (getData_request p method) !! "purpose"
       = (if isPrefetch p then Some "prefetch" else None).
Proof.
  unfold getData_network, getData_request, fetchRetry.
  destruct (fetchRetry_fuel_spec
              (S (Z.to_nat (call_attempts (getData_call p method))))
              (call_url (getData_call p method)) (call_attempts (getData_call p method))
              (call_options (getData_call p method)) net)
    as (n & Hn1 & Hn2 & Hiss & _); [lia|].
  exists n. split; [exact Hiss|]. split.
  { cbn in Hn2. destruct (isServerRender p); lia. }
  split; [done|]. split; [done|]. split.
  { destruct method as [[|c s]|]; reflexivity. }
  split; [apply lookup_insert_eq|].
  cbn. rewrite lookup_insert_ne by done.
  destruct (isPrefetch p); [by rewrite lookup_singleton_eq|done].
Qed.

Lemma cache_of_set_promise c i s w : cache_of c (set_promise i s w) = cache_of c w.
Proof. by destruct c. Qed.

Lemma settle_done promise result_ outcome w :
  promises w !! promise = Some (Done result_) -> settle promise outcome w = w.
Proof. intros Hdone. unfold settle. by rewrite Hdone. Qed.

(** A caller that finds no entry for its data URL stores the promise of
    its request.  When the request settles, the promise holds its result
    and settles no second time; the entry stays in the cache only for a
    result that [persists] (a success that may persist, in a production
    build, without [x-middleware-cache: no-cache]).  The next caller for
    the URL then receives the same promise and no request is made;
    otherwise (after a failure in particular) the entry is gone and the
    next caller starts a new request. *)
Theorem fetchNextData_settled_entry (p : FetchNextDataParams) (c : CacheRef)
    (w : DataLayer) (outcome again : Settled Response) :
  skips_cache p = false ->
  cache_of c w !! absoluteHref (dataHref p) = None ->
  (fetchNextData p c w).2 = length (promises w)
  /\ promises (settle (length (promises w)) outcome (fetchNextData p c w).1)
       !! length (promises w)
     = Some (Done (getData_result p (first_method p) outcome))
  /\ settle (length (promises w)) again
       (settle (length (promises w)) outcome (fetchNextData p c w).1)
     = settle (length (promises w)) outcome (fetchNextData p c w).1
  /\ (if persists p (getData_result p (first_method p) outcome)
      then fetchNextData p c (settle (length (promises w)) outcome (fetchNextData p c w).1)
           = (settle (length (promises w)) outcome (fetchNextData p c w).1,
              length (promises w))
      else fetches (fetchNextData p c
                      (settle (length (promises w)) outcome (fetchNextData p c w).1)).1
           = fetches w ++ [getData_call p (first_method p);
                           getData_call p (first_method p)]).
Proof.
  intros Hskip Hmiss.
  assert (Hfirst : fetchNextData p c w
                   = (set_cache c (<[absoluteHref (dataHref p) := length (promises w)]>
                                     (cache_of c (getData p c (first_method p) false w).1))
                        (getData p c (first_method p) false w).1,
                      length (promises w))).
  { unfold fetchNextData. unfold skips_cache in Hskip. by rewrite Hskip, Hmiss. }
  rewrite Hfirst. cbn [fst snd]. split; [done|].
  set (w1 := set_cache c _ _).
  assert (Hpending : promises w1 !! length (promises w)
                     = Some (Pending {| job_params := p; job_cache := c;
                                        job_key := absoluteHref (dataHref p);
                                        job_method := first_method p;
                                        job_store := false |})).
  { subst w1. rewrite promises_set_cache. cbn.
    by rewrite lookup_app_r, Nat.sub_diag. }
  assert (Hlt : (length (promises w) < length (promises w1))%nat)
    by (by eapply lookup_lt_Some).
  assert (Hcache1 : cache_of c w1 = <[absoluteHref (dataHref p) := length (promises w)]>
                                      (cache_of c w)).
  { subst w1. rewrite cache_of_set_cache. by destruct c. }
  assert (Hfetches1 : fetches w1 = fetches w ++ [getData_call p (first_method p)]).
  { subst w1. by rewrite fetches_set_cache. }
  set (result_ := getData_result p (first_method p) outcome).
  assert (Hsettle : settle (length (promises w)) outcome w1
                    = set_promise (length (promises w)) (Done result_)
                        (if persists p result_ then w1
                         else set_cache c (delete (absoluteHref (dataHref p)) (cache_of c w1))
                                w1)).
  { unfold settle. rewrite Hpending. cbn [job_params job_cache job_key job_method job_store].
    fold (getData_result p (first_method p) outcome). fold result_.
    destruct result_ as [data_|err]; [|done]. unfold persists.
    destruct (persistCache p); cbn; [|done].
    destruct (String.eqb NODE_ENV "production"); cbn; [|done].
    by destruct (bool_decide _). }
  rewrite Hsettle.
  set (w2 := set_promise _ _ _).
  assert (Hdone : promises w2 !! length (promises w) = Some (Done result_)).
  { subst w2. cbn. destruct (persists p result_);
      rewrite ?promises_set_cache, list_lookup_insert_eq; done. }
  split; [done|]. split; [by eapply settle_done|].
  unfold fetchNextData. unfold skips_cache in Hskip. rewrite Hskip.
  destruct (persists p result_) eqn:Hp.
  - assert (cache_of c w2 !! absoluteHref (dataHref p) = Some (length (promises w))) as ->;
      [|done].
    subst w2. by rewrite cache_of_set_promise, Hcache1, lookup_insert_eq.
  - assert (cache_of c w2 !! absoluteHref (dataHref p) = None) as ->.
    { subst w2. by rewrite cache_of_set_promise, cache_of_set_cache, lookup_delete_eq. }
    fold (first_method p). cbn. rewrite fetches_set_cache. cbn.
    subst w2. cbn. rewrite fetches_set_cache, Hfetches1. by rewrite <- app_assoc.
Qed.

End DataFacts.

Section DataExamples.
#[local] Existing Instance production_env.

(** A request that fails with status 500 leaves no entry: the next caller
    asks the server again. *)
Lemma fetchNextData_settled_entry_witness :
  fetches (fetchNextData (data_params "/d.json" true None) SdcCache
             (settle 0 (Fulfilled {| status := 500; resp_headers := ∅;
                                     resp_text := Fulfilled "" |})
                (fetchNextData (data_params "/d.json" true None) SdcCache
                   empty_layer).1)).1
  = [getData_call (data_params "/d.json" true None) None;
     getData_call (data_params "/d.json" true None) None].
Proof.
  apply (fetchNextData_settled_entry (data_params "/d.json" true None) SdcCache empty_layer
           (Fulfilled {| status := 500; resp_headers := ∅; resp_text := Fulfilled "" |})
           (Rejected (plainError "")));
    reflexivity.
Defined.

End DataExamples.

(** ** Navigations that end before anything is loaded *)

Section EarlyReturns.
Context `{BuildEnv} `{RouteUtils} `{UrlUtils}.
Local Open Scope proc_scope.

Lemma change_unfold fuel method url as_ options fs :
  change fuel method url as_ options fs
  = bind (change_once method url as_ options fs)
      (fun outcome =>
         match outcome with
         | Completed b => Ret (Some b)
         | Again method url as_ options =>
             match fuel with
             | O => Ret None
             | S fuel' => change fuel' method url as_ options None
             end
         end).
Proof. by destruct fuel. Qed.

(** [change] to a URL that is not local: the browser is sent to the URL
    and [change] resolves to false; the router, its history and its events
    are left as they are.  When the URL is the one of the page shown, the
    invariant of [handleHardNavigation] is thrown instead and nothing
    changes. *)
Theorem change_non_local (fuel : nat) (method : HistoryMethod) (url as_ : string)
    (options : TransitionOptions) (forcedScroll : option (Z * Z)) (r : Router) :
  isLocalURL url = false ->
  (url <> current_url r ->
   run (change fuel method url as_ options forcedScroll) r
   = (set_hardNavigations (hardNavigations r ++ [url]) r, Returned (Some false)))
  /\ (url = current_url r ->
      exists e, run (change fuel method url as_ options forcedScroll) r = (r, Threw e)
                /\ cancelled e = false).
Proof.
  intros Hlocal. rewrite change_unfold. unfold change_once, change_prepare.
  rewrite Hlocal. cbn. fold (current_url r). split.
  - intros Hne. apply String.eqb_neq in Hne. by rewrite Hne.
  - intros ->. rewrite String.eqb_refl. cbn. eauto.
Qed.

(** A query update ([_h]) that arrives while a transition is in flight
    (its cancel closure is in [clc]) is ignored: [change] resolves to
    false, the router is marked ready, and the transition in flight is not
    cancelled. *)
Theorem change_query_update_in_flight (fuel : nat) (method : HistoryMethod)
    (url as_ : string) (options : TransitionOptions) (forcedScroll : option (Z * Z))
    (r : Router) :
  isLocalURL url = true -> truthy_num (_h options) = true -> is_Some (clc r) ->
  run (change fuel method url as_ options forcedScroll) r
  = (set_isReady true r, Returned (Some false)).
Proof.
  intros Hlocal Hh Hclc. rewrite change_unfold. unfold change_once, change_prepare.
  rewrite Hlocal, Hh. cbn. by rewrite bool_decide_eq_true_2.
Qed.

(** [getRouteInfo] for a shallow transition that stays on the route shown,
    when the route has an entry in [components]: the entry is returned at
    once, nothing is loaded or fetched, and the cancel closure that was
    just created stays in [clc]. *)
Theorem getRouteInfo_shallow_reuse (a : GetRouteInfoArgs) (info : RouteInfo) (r : Router) :
  arg_shallow a = true -> components r !! arg_route a = Some info ->
  st_route (state r) = arg_route a ->
  run (getRouteInfo a) r
  = (set_clc (Some (length (cancelFlags r)))
       (set_cancelFlags (cancelFlags r ++ [false]) r),
     Returned (InfoResult info)).
Proof.
  intros Hshallow Hinfo Hroute. unfold getRouteInfo, settled, getRouteInfo_start.
  cbn. by rewrite Hshallow, Hroute, String.eqb_refl, Hinfo.
Qed.

(** The route [/api] and the routes under [/api/] are not rendered:
    [getRouteInfo] sends the browser to the URL and returns a promise that
    never settles, which no [catch] of the router sees. *)
Theorem getRouteInfo_api_route (a : GetRouteInfoArgs) (v : RouteInfoVars)
    (handler : Error -> Proc RouteInfoResult) (r : Router) :
  var_route v = "/api" \/ startsWith (var_route v) "/api/" = true ->
  arg_as a <> current_url r ->
  run (try_catch (getRouteInfo_finish a v) handler) r
  = (set_hardNavigations (hardNavigations r ++ [arg_as a]) r, Hangs).
Proof.
  intros Hroute Hne. unfold getRouteInfo_finish.
  assert (String.eqb (var_route v) "/api" || startsWith (var_route v) "/api/" = true) as ->.
  { destruct Hroute as [->| ->]; [done|by rewrite orb_true_r]. }
  cbn. fold (current_url r). apply String.eqb_neq in Hne. by rewrite Hne.
Qed.

(** After [beforePopState(cb)], a popstate event for an entry of the router
    that [cb] refuses starts no transition: the state, the history, the
    components, the data layer and the events are as before, and nothing is
    published. *)
Theorem popstate_vetoed (fuel : nat) (url as_ : string) (options : TransitionOptions)
    (key : string) (cb : HistoryState -> bool) (r : Router) :
  cb (HistoryN url as_ options key) = false ->
  wp (beforePopState cb ;; onPopState fuel (HistoryN url as_ options key))
    (fun r' s =>
       (s = Returned PopStateIgnored \/ exists e, s = Threw e)
       /\ state r' = state r /\ history r' = history r
       /\ historyIndex r' = historyIndex r /\ location r' = location r
       /\ components r' = components r /\ data r' = data r /\ events r' = events r
       /\ published r' = published r /\ hardNavigations r' = hardNavigations r
       /\ clc r' = clc r) r.
Proof.
  intros Hcb. unfold beforePopState, onPopState. cbn.
  destruct (_ && _ && String.eqb as_ _); cbn; [by repeat split; eauto|].
  destruct (manualScrollRestoration && _); cbn;
    (unfold parseRelativeUrl_or_throw; destruct (parseRelativeUrl url); cbn;
     [|by repeat split; eauto]);
    (destruct (_ && _ && _); cbn; [by repeat split; eauto|]);
    rewrite Hcb; cbn; by repeat split; eauto.
Qed.

End EarlyReturns.

Section EarlyReturnsExamples.
#[local] Existing Instance production_env.
#[local] Existing Instance route_utils_model.
#[local] Existing Instance url_utils_plain.
Local Open Scope proc_scope.

Lemma change_non_local_witness :
  run (change 1 pushState "https://example.com/" "https://example.com/" default_options
         None) (router_at "/" "/")
  = (set_hardNavigations ["https://example.com/"] (router_at "/" "/"),
     Returned (Some false)).
Proof.
  apply (change_non_local 1 pushState "https://example.com/" "https://example.com/"
           default_options None (router_at "/" "/")); [reflexivity|discriminate].
Defined.

Lemma change_query_update_in_flight_witness :
  run (change 1 replaceState "/" "/"
         {| shallow := None; locale := LocaleUndefined; scroll := None;
            skipClientCache := None; _h := Some 1; _shouldResolveHref := None |} None)
    (set_clc (Some 0%nat) (set_cancelFlags [false] (router_at "/" "/")))
  = (set_isReady true (set_clc (Some 0%nat) (set_cancelFlags [false] (router_at "/" "/"))),
     Returned (Some false)).
Proof.
  apply change_query_update_in_flight; [reflexivity|reflexivity|by eexists].
Defined.

Lemma getRouteInfo_shallow_reuse_witness :
  run (getRouteInfo
         {| arg_route := "/"; arg_pathname := "/"; arg_query := ∅; arg_as := "/?a=1";
            arg_resolvedAs := "/?a=1"; arg_shallow := true; arg_locale := None;
            arg_hasMiddleware := Some false; arg_isPreview := false;
            arg_skipClientCache := None |}) (router_at "/" "/")
  = (set_clc (Some 0%nat) (set_cancelFlags [false] (router_at "/" "/")),
     Returned (InfoResult (initial_info "/"))).
Proof.
  apply (getRouteInfo_shallow_reuse
           {| arg_route := "/"; arg_pathname := "/"; arg_query := ∅; arg_as := "/?a=1";
              arg_resolvedAs := "/?a=1"; arg_shallow := true; arg_locale := None;
              arg_hasMiddleware := Some false; arg_isPreview := false;
              arg_skipClientCache := None |} (initial_info "/") (router_at "/" "/"));
    reflexivity.
Defined.

Lemma getRouteInfo_api_route_witness :
  run (try_catch
         (getRouteInfo_finish
            {| arg_route := "/api/x"; arg_pathname := "/api/x"; arg_query := ∅;
               arg_as := "/api/x"; arg_resolvedAs := "/api/x"; arg_shallow := false;
               arg_locale := None; arg_hasMiddleware := Some false;
               arg_isPreview := false; arg_skipClientCache := None |}
            {| var_route := "/api/x"; var_pathname := "/api/x"; var_query := ∅;
               var_resolvedAs := "/api/x"; var_data := None;
               var_cachedRouteInfo := None;
               var_fetchNextDataParams := data_params "/d.json" true None |})
         (fun err => Throw err)) (router_at "/" "/")
  = (set_hardNavigations ["/api/x"] (router_at "/" "/"), Hangs).
Proof.
  apply getRouteInfo_api_route; [by right|discriminate].
Defined.

Lemma popstate_vetoed_witness :
  wp (beforePopState (fun _ => false) ;;
      onPopState 1 (HistoryN "/about" "/about" default_options "k"))
    (fun r' s =>
       (s = Returned PopStateIgnored \/ exists e, s = Threw e)
       /\ state r' = state (router_at "/" "/") /\ history r' = history (router_at "/" "/")
       /\ historyIndex r' = historyIndex (router_at "/" "/")
       /\ location r' = location (router_at "/" "/")
       /\ components r' = components (router_at "/" "/")
       /\ data r' = data (router_at "/" "/") /\ events r' = events (router_at "/" "/")
       /\ published r' = published (router_at "/" "/")
       /\ hardNavigations r' = hardNavigations (router_at "/" "/")
       /\ clc r' = clc (router_at "/" "/")) (router_at "/" "/").
Proof.
  apply (popstate_vetoed 1 "/about" "/about" default_options "k" (fun _ => false)
           (router_at "/" "/")).
  reflexivity.
Defined.

End EarlyReturnsExamples.

(** ** What navigations leave of the history and of the view *)

Section HistoryInvariants.
Context `{BuildEnv} `{RouteUtils} `{UrlUtils}.
Local Open Scope proc_scope.

#[global] Instance same_position_preorder : PreOrder same_position.
Proof.
  split; [by intros r|]. intros r1 r2 r3 [? ?] [? ?]. unfold same_position.
  split; congruence.
Qed.

Lemma same_entries_position r r' : same_entries r r' -> same_position r r'.
Proof. intros (? & ? & _). by split. Qed.

Lemma kept_position {A} (p : Proc A) : kept same_entries p -> kept same_position p.
Proof. apply kept_weaken, same_entries_position. Qed.

(** [replace], whatever the awaited operations answer and with the
    redirects it follows, keeps the number of entries of the history, the
    position in it and the key of the current entry. *)
Theorem replace_keeps_entries (fuel : nat) (url : string) (as_ : option string)
    (options : TransitionOptions) (r : Router) :
  wp (replace fuel url as_ options)
    (fun r' _ => length (history r') = length (history r)
                 /\ historyIndex r' = historyIndex r /\ _key r' = _key r) r.
Proof.
  unfold replace. cbn. destruct (prepareUrlAs (state r) url as_) as [url' as'].
  apply change_entries.
Qed.

(** The handler of [popstate], whatever the entry and whatever the awaited
    operations answer, adds no entry to the history and removes none, and
    keeps the position: the transition it starts uses [replaceState]. *)
Theorem popstate_keeps_position (fuel : nat) (st : HistoryState) (r : Router) :
  wp (onPopState fuel st)
    (fun r' _ => length (history r') = length (history r)
                 /\ historyIndex r' = historyIndex r) r.
Proof.
  revert r. change (kept same_position (onPopState fuel st)).
  unfold onPopState, snapshot_scroll.
  framed_with ltac:(first
    [ apply kept_position;
      first [ apply changeState_replace_entries | apply change_entries
            | apply framed_entries, parseRelativeUrl_or_throw_framed ] ]).
Qed.

(** [getRouteInfo], with the middleware, the component and the data it
    waits for and with its error handling, changes nothing of what the
    user sees: the state, the history with its position and key, the URL
    of the page and what was sent to the subscribers. *)
Theorem getRouteInfo_keeps_view (a : GetRouteInfoArgs) (r : Router) :
  wp (getRouteInfo a)
    (fun r' _ => state r' = state r /\ history r' = history r
                 /\ historyIndex r' = historyIndex r /\ _key r' = _key r
                 /\ location r' = location r /\ published r' = published r) r.
Proof.
  eapply wp_mono; [|apply getRouteInfo_framed].
  cbn. unfold same_view, view. intros r' _ [= -> -> -> -> -> ->]. done.
Qed.

End HistoryInvariants.

(** ** Events and outcomes of the steps of a navigation *)

Section StepFacts.
Context `{BuildEnv} `{RouteUtils} `{UrlUtils}.
Local Open Scope proc_scope.

Lemma wp_bind_run {A B} (p : Proc A) (f : A -> Proc B) (Q : Router -> Status B -> Prop)
    r r' a :
  run p r = (r', Returned a) -> wp (f a) Q r' -> wp (bind p f) Q r.
Proof.
  revert r. induction p as [a0|e| |k IH|r0 k IH|X w k IH]; intros r Hrun Hwp; cbn in *;
    try done; eauto.
  by injection Hrun as -> ->.
Qed.

Lemma awaits_only_bind {A B} P (p : Proc A) (f : A -> Proc B) :
  awaits_only P p -> (forall a, awaits_only P (f a)) -> awaits_only P (bind p f).
Proof.
  intros Hp Hf. induction p as [a|e| |k IH|r0 k IH|X w k IH]; cbn in *; try done; eauto.
  destruct Hp as [Hw Hk]. eauto.
Qed.

Lemma awaits_only_try_catch {A} P (p : Proc A) (h : Error -> Proc A) :
  awaits_only P p -> (forall e, awaits_only P (h e)) -> awaits_only P (try_catch p h).
Proof.
  intros Hp Hh. induction p as [a|e| |k IH|r0 k IH|X w k IH]; cbn in *; try done; eauto.
  destruct Hp as [Hw Hk]. eauto.
Qed.


(** The commit step of a navigation that is not a query update, whatever
    the subscription answers.  It emits [beforeHistoryChange] first.  When
    it returns, it returns true, the route info carried no error, the
    state is the upcoming state, the subscription was called once with the
    route info (and with the forced scroll position, if one was given), and
    [routeChangeComplete] was emitted after.  When the route info carries
    an error, or the subscription rejects with a cancellation, the state
    is the upcoming state all the same, [routeChangeError] is emitted and
    that error is thrown.  Any other rejection of the subscription is
    thrown without a further event. *)
Theorem change_commit_events (v : ChangeVars) (cleanedAs : string) (routeInfo : RouteInfo)
    (props : option Value) (sameInfo : bool) (error : option Error)
    (routeProps_shallow readyStateChange localeChange : bool)
    (forcedScroll : option (Z * Z)) (r : Router) :
  truthy_num (_h (cv_options v)) = false ->
  wp (change_commit v cleanedAs routeInfo props sameInfo error routeProps_shallow
        readyStateChange localeChange forcedScroll)
    (fun r' s =>
       match s with
       | Returned o =>
           o = Completed true /\ error = None
           /\ events r' = events r ++ [beforeHistoryChange (cv_as v) routeProps_shallow;
                                       routeChangeComplete (cv_as v) routeProps_shallow]
           /\ state r' = upcoming_state v cleanedAs
           /\ exists call, published r' = published r ++ [call]
                           /\ pub_data call = Some routeInfo
                           /\ forall s, forcedScroll = Some s ->
                                        pub_resetScroll call = Some s
       | Threw e =>
           (events r' = events r ++ [beforeHistoryChange (cv_as v) routeProps_shallow;
                                     routeChangeError e cleanedAs routeProps_shallow]
            /\ state r' = upcoming_state v cleanedAs
            /\ (error = Some e \/ (error = None /\ cancelled e = true)))
           \/ (events r' = events r ++ [beforeHistoryChange (cv_as v) routeProps_shallow]
               /\ cancelled e = false)
       | Hangs => False
       | Waiting _ _ => True
       end) r.
Proof.
  intros Hh. unfold change_commit. rewrite Hh. cbn [andb negb].
  apply wp_bind. cbn [emit modify wp bind].
  destruct (changeState_frame (cv_method v) (cv_url v) (cv_as v) (cv_options v)
              (set_events (events r ++ [beforeHistoryChange (cv_as v) routeProps_shallow])
                 r))
    as (r1 & Hrun & _ & Hpub & Hev & _).
  eapply wp_bind_run; [exact Hrun|]. cbn in Hpub, Hev. cbn.
  destruct (components r1 !! "/_app") as [app|]; cbn.
  - intros [[]|e]; cbn.
    + destruct error as [e0|]; cbn.
      { rewrite ?Hpub, ?Hev, <- ?app_assoc. left. eauto. }
      destruct (NEXT_I18N_SUPPORT && _); cbn; destruct (_ && has_hash _); cbn;
        rewrite ?Hpub, ?Hev, <- ?app_assoc; cbn;
        (do 4 (split; [done|])); eexists; (split; [done|]); (split; [done|]);
        by intros s ->.
    + destruct (cancelled e) eqn:He; cbn.
      * destruct error as [e0|]; cbn; rewrite ?Hpub, ?Hev, <- ?app_assoc; cbn; left; eauto.
      * right. by rewrite Hev.
  - right. by rewrite Hev.
Qed.

(** [changeState] always returns, and touches the history, the key and
    [_shallow] only. *)
Lemma changeState_keeps method url as_ options r :
  exists r', run (changeState method url as_ options) r = (r', Returned ())
             /\ state r' = state r /\ published r' = published r
             /\ events r' = events r /\ components r' = components r
             /\ data r' = data r /\ scrolledTo r' = scrolledTo r.
Proof.
  unfold changeState. cbn.
  destruct (negb (bool_decide (method = pushState)) || negb (String.eqb (location r) as_));
    [|by eexists].
  destruct (negb (bool_decide (method = pushState))); cbn; destruct method; eexists; done.
Qed.

(** The branch of [change] for a change of the hash only, whatever the
    subscription answers: the only operation it waits for is the
    subscription (no page list, no component and no data are loaded).
    When it returns, it returns true after the events [hashChangeStart]
    and [hashChangeComplete], the state is the current state with the new
    [asPath], the subscription was called once with the route info of the
    current route and no scroll position, and the page was scrolled to the
    fragment if [scroll] asks for it.  When it throws, [routeChangeError]
    was emitted for a cancellation, and nothing more otherwise. *)
Theorem change_hash_only (method : HistoryMethod) (url as_ cleanedAs : string)
    (options : TransitionOptions) (nextState : RouterState)
    (routeProps_shallow scroll_ : bool) (r : Router) :
  awaits_only is_subscription
    (change_hash method url as_ cleanedAs options nextState routeProps_shallow scroll_)
  /\ wp (change_hash method url as_ cleanedAs options nextState routeProps_shallow scroll_)
       (fun r' s =>
          match s with
          | Returned b =>
              b = true
              /\ events r' = events r ++ [hashChangeStart as_ routeProps_shallow;
                                          hashChangeComplete as_ routeProps_shallow]
              /\ state r' = set_st_asPath cleanedAs nextState
              /\ components r' = components r /\ data r' = data r
              /\ scrolledTo r' = scrolledTo r ++ (if scroll_ then [cleanedAs] else [])
              /\ exists call, published r' = published r ++ [call]
                              /\ pub_data call = components r !! st_route nextState
                              /\ pub_resetScroll call = None
          | Threw e =>
              events r'
              = events r ++ hashChangeStart as_ routeProps_shallow
                  :: (if cancelled e
                      then [routeChangeError e cleanedAs routeProps_shallow] else [])
          | Hangs => False
          | Waiting _ _ => True
          end) r.
Proof.
  split.
  - unfold change_hash, changeState, scrollToHash, set, emit.
    repeat first
      [ apply awaits_only_bind; [|intros]
      | apply awaits_only_try_catch; [|intros]
      | progress cbn
      | match goal with
        | |- awaits_only _ (if ?c then _ else _) => destruct c
        | |- awaits_only _ (match ?c with _ => _ end) => destruct c
        | |- forall _, _ => intros
        | |- _ /\ _ => split
        end
      | done ].
  - unfold change_hash.
    apply wp_bind. cbn [emit modify wp bind].
    destruct (changeState_keeps method url as_ (set_opt_scroll (Some false) options)
                (set_events (events r ++ [hashChangeStart as_ routeProps_shallow]) r))
      as (r1 & Hrun & _ & Hpub & Hev & Hcomp & Hdata & Hscr).
    eapply wp_bind_run; [exact Hrun|]. cbn in Hpub, Hev, Hcomp, Hdata, Hscr.
    destruct scroll_; cbn;
      rewrite Hcomp;
      (destruct (components r !! "/_app") as [app|]; cbn; [|by rewrite Hev]);
      (intros [[]|e]; cbn;
         [|by destruct (cancelled e) eqn:He; cbn; rewrite ?He, Hev, <- ?app_assoc]);
      rewrite ?Hev, ?Hpub, ?Hdata, ?Hscr, ?Hcomp, <- ?app_assoc, ?app_nil_r; cbn;
      (do 6 (split; [reflexivity|]));
      eexists; (split; [reflexivity|]); split; reflexivity.
Qed.

End StepFacts.

Section StepExamples.
#[local] Existing Instance production_env.
#[local] Existing Instance route_utils_model.
#[local] Existing Instance url_utils_plain.


Lemma change_commit_events_witness :
  wp (change_commit vars_about "/about" (loaded_info "/about") (Some (VObj [])) true None
        false false false None)
    (fun r' s =>
       match s with
       | Returned o =>
           o = Completed true /\ @None Error = None
           /\ events r' = events (router_at "/" "/")
                ++ [beforeHistoryChange (cv_as vars_about) false;
                    routeChangeComplete (cv_as vars_about) false]
           /\ state r' = upcoming_state vars_about "/about"
           /\ exists call, published r' = published (router_at "/" "/") ++ [call]
                           /\ pub_data call = Some (loaded_info "/about")
                           /\ forall s, @None (Z * Z) = Some s ->
                                        pub_resetScroll call = Some s
       | Threw e =>
           (events r' = events (router_at "/" "/")
              ++ [beforeHistoryChange (cv_as vars_about) false;
                  routeChangeError e "/about" false]
            /\ state r' = upcoming_state vars_about "/about"
            /\ (None = Some e \/ (@None Error = None /\ cancelled e = true)))
           \/ (events r' = events (router_at "/" "/")
                 ++ [beforeHistoryChange (cv_as vars_about) false]
               /\ cancelled e = false)
       | Hangs => False
       | Waiting _ _ => True
       end) (router_at "/" "/").
Proof.
  apply (change_commit_events vars_about "/about" (loaded_info "/about") (Some (VObj []))
           true None false false false None (router_at "/" "/")).
  reflexivity.
Defined.

End StepExamples.

(** ** Loading: the middleware data, components and page data *)

Section Halting.
Context `{BuildEnv} `{RouteUtils} `{UrlUtils}.

Lemma halts_ret {A} (a : A) : halts (Ret a).
Proof. by intros r. Qed.

Lemma halts_throw {A} (e : Error) : halts (@Throw _ A e).
Proof. by intros r. Qed.

Lemma halts_gets {A} (f : Router -> A) : halts (gets f).
Proof. by intros r. Qed.

Lemma halts_modify (f : Router -> Router) : halts (modify f).
Proof. by intros r. Qed.

Lemma halts_await {A} (w : Wait (Settled A)) : halts (await w).
Proof. by intros r [a|e]. Qed.

Lemma halts_get_router {A} (k : Router -> Proc A) :
  (forall r, halts (k r)) -> halts (GetRouter k).
Proof. intros Hk r. apply Hk. Qed.

Lemma halts_put_router {A} (r0 : Router) (k : Proc A) : halts k -> halts (PutRouter r0 k).
Proof. intros Hk r. apply Hk. Qed.

Lemma halts_await_any {A X} (w : Wait X) (k : X -> Proc A) :
  (forall x, halts (k x)) -> halts (Await w k).
Proof. intros Hk r x. apply Hk. Qed.

Lemma halts_bind {A B} (p : Proc A) (f : A -> Proc B) :
  halts p -> (forall a, halts (f a)) -> halts (bind p f).
Proof.
  intros Hp Hf r. apply wp_bind. eapply wp_mono; [|apply Hp].
  intros r' [a|e| |X w k]; cbn; try done. intros _. apply Hf.
Qed.

Lemma halts_try_catch {A} (p : Proc A) (h : Error -> Proc A) :
  halts p -> (forall e, halts (h e)) -> halts (try_catch p h).
Proof.
  intros Hp Hh r. apply wp_try_catch. eapply wp_mono; [|apply Hp].
  intros r' [a|e| |X w k]; cbn; try done. intros _. apply Hh.
Qed.

(** A [try] whose block never hangs and whose handler never fails never
    fails. *)
Lemma try_catch_no_failure {A} (p : Proc A) (h : Error -> Proc A) r :
  halts p -> (forall e r', wp (h e) no_failure r') -> wp (try_catch p h) no_failure r.
Proof.
  intros Hp Hh. apply wp_try_catch. eapply wp_mono; [|apply Hp].
  intros r' [a|e| |X w k]; cbn; try done; intros _; apply Hh.
Qed.

End Halting.

(** Splits a goal [halts p] along the structure of [p]. *)
Ltac halts_split :=
  repeat match goal with
    | |- halts (Ret _) => apply halts_ret
    | |- halts (Throw _) => apply halts_throw
    | |- halts (gets _) => apply halts_gets
    | |- halts (modify _) => apply halts_modify
    | |- halts (await _) => apply halts_await
    | |- halts (GetRouter _) => apply halts_get_router; intros; cbv beta
    | |- halts (PutRouter _ _) => apply halts_put_router
    | |- halts (Await _ _) => apply halts_await_any; intros; cbv beta
    | |- halts (bind _ _) => apply halts_bind; [|intros]
    | |- halts (try_catch _ _) => apply halts_try_catch; [|intros]
    | |- halts (match ?x with _ => _ end) => destruct x
    | |- halts (let '(_, _) := ?x in _) => destruct x
    | |- halts (rewrite_effect _ _ _ _ _ _ _ _) =>
        unfold rewrite_effect, parseRelativeUrl_or_throw
    | _ => progress cbv zeta
    end.

Section LoadingFacts.
Context `{BuildEnv} `{RouteUtils} `{UrlUtils}.
Local Open Scope proc_scope.


(** [fetchComponent] stores a new cancel closure in [clc] and waits for the
    page to load.  When its closure was not called in the meantime, it
    returns the page that loaded, or throws the error of the load, and
    empties [clc] in both cases if its closure is still the one in [clc];
    a closure stored there by a later load is left in place. *)
Theorem fetchComponent_not_cancelled (route : string) (r : Router) :
  exists k,
    run (fetchComponent route) r
    = (set_clc (Some (length (cancelFlags r)))
         (set_cancelFlags (cancelFlags r ++ [false]) r),
       Waiting (LoadPage route) k)
    /\ forall answer r2,
         is_cancelled (length (cancelFlags r)) r2 = false ->
         run (k answer) r2
         = (if bool_decide (clc r2 = Some (length (cancelFlags r)))
            then set_clc None r2 else r2,
            match answer with
            | Fulfilled res => Returned res
            | Rejected e => Threw e
            end).
Proof.
  eexists. split; [reflexivity|].
  intros [res|e] r2 Hflag; cbn; rewrite Hflag; cbn;
    destruct (bool_decide (clc r2 = Some (length (cancelFlags r)))); reflexivity.
Qed.

(** [_getData] stores a new cancel closure in [clc] and waits for the data.
    When the data arrive, [clc] is emptied if the closure is still the one
    in it, and the data are returned unless the closure was called, in
    which case a cancellation is thrown.  When getting the data fails, the
    error is passed on and [clc] is left as it is, with the closure still
    in it if no later load replaced it. *)
Theorem router_getData_outcomes {A : Type} (w : Wait (Settled A)) (r : Router) :
  exists k,
    run (_getData (await w)) r
    = (set_clc (Some (length (cancelFlags r)))
         (set_cancelFlags (cancelFlags r ++ [false]) r),
       Waiting w k)
    /\ (forall a r2,
          exists s,
            run (k (Fulfilled a)) r2
            = (if bool_decide (clc r2 = Some (length (cancelFlags r)))
               then set_clc None r2 else r2, s)
            /\ if is_cancelled (length (cancelFlags r)) r2
               then exists e, s = Threw e /\ cancelled e = true
               else s = Returned a)
    /\ (forall e r2, run (k (Rejected e)) r2 = (r2, Threw e)).
Proof.
  eexists. split; [reflexivity|]. split; [|reflexivity].
  intros a r2. cbn.
  destruct (bool_decide (clc r2 = Some (length (cancelFlags r)))); cbn;
    unfold is_cancelled; cbn;
    destruct (default false (cancelFlags r2 !! length (cancelFlags r)));
    eexists; (split; [reflexivity|]); eauto.
Qed.

End LoadingFacts.

(** ** What getRouteInfo leaves in the component cache and the data cache *)

Section RouteInfoFacts.
Context `{BuildEnv} `{RouteUtils} `{UrlUtils}.
Local Open Scope proc_scope.

Lemma wp_bind_on_return {A B} (p : Proc A) (f : A -> Proc B) (P : Router -> B -> Prop) r :
  (forall a r', wp (f a) (on_return P) r') -> wp (bind p f) (on_return P) r.
Proof.
  intros Hf. apply wp_bind, wp_trivial. intros r' [a|e| |X w k]; cbn; auto.
Qed.

Lemma assoc_set_field name v fields : assoc name (set_field name v fields) = Some v.
Proof.
  unfold set_field. case_bool_decide as Hin.
  - induction fields as [|[k x] fields IH]; cbn in *; [by destruct Hin|].
    destruct (String.eqb name k) eqn:Hk.
    + apply String.eqb_eq in Hk as <-. rewrite String.eqb_refl. cbn.
      by rewrite String.eqb_refl.
    + rewrite String.eqb_sym, Hk. cbn. rewrite Hk. by apply IH.
  - induction fields as [|[k x] fields IH]; cbn in *; [by rewrite String.eqb_refl|].
    destruct (String.eqb name k) eqn:Hk; [by destruct Hin; eauto|]. by apply IH.
Qed.

(** Whenever [getRouteInfo] returns a route info that it has resolved (it
    came neither from the shallow shortcut nor from the error handling),
    whatever the awaited operations answered: the route info is stored in
    [components] under the route, it carries the route, the resolved [as]
    and the query, and its props are an object whose [pageProps] is an
    object. *)
Theorem getRouteInfo_stores_info (a : GetRouteInfoArgs) (v : RouteInfoVars) (r : Router) :
  wp (getRouteInfo_finish a v)
    (on_return (fun r' res =>
       exists info fields pageProps,
         res = InfoResult info
         /\ components r' !! var_route v = Some info
         /\ ri_route info = Some (var_route v)
         /\ ri_resolvedAs info = Some (var_resolvedAs v)
         /\ ri_query info = Some (var_query v)
         /\ ri_props info = Some (VObj fields)
         /\ assoc "pageProps" fields = Some (VObj pageProps))) r.
Proof.
  unfold getRouteInfo_finish.
  destruct (_ || _); [by apply wp_bind_on_return|].
  do 7 (apply wp_bind_on_return; intros).
  match goal with |- wp (bind (set_prop ?props _ _) _) _ _ => destruct props end;
    try done.
  cbn. eexists _, _, _. split; [done|]. rewrite lookup_insert_eq.
  split; [done|]. do 4 (split; [done|]). apply assoc_set_field.
Qed.

Lemma fetchNextData_background_sdc p w :
  sdc (fetchNextData p BackgroundCache w).1 = sdc w.
Proof.
  unfold fetchNextData. destruct (_ && _); [done|].
  by destruct (cache_of BackgroundCache w !! _).
Qed.

(** Only bust the data cache for SSP routes: whenever [getRouteInfo]
    returns a resolved route info of a page with [getServerSideProps] that
    is not a server component page, and the data URL of the middleware
    request is not empty, the data cache of the router has no entry for
    that URL, whatever the awaited operations answered. *)
Theorem getRouteInfo_busts_ssp_cache (a : GetRouteInfoArgs) (v : RouteInfoVars)
    (r : Router) :
  wp (getRouteInfo_finish a v)
    (on_return (fun r' res =>
       forall info,
         res = InfoResult info ->
         is_true (ri_N_SSP info) = true -> is_true (ri_N_RSC info) = false ->
         dataHref (var_fetchNextDataParams v) <> "" ->
         sdc (data r') !! absoluteHref (dataHref (var_fetchNextDataParams v)) = None)) r.
Proof.
  unfold getRouteInfo_finish.
  destruct (_ || _); [by apply wp_bind_on_return|].
  apply wp_bind_on_return. intros routeInfo r1.
  apply wp_bind_on_return. intros _ r2.
  apply wp_bind_on_return. intros props r3.
  destruct (is_true (ri_N_RSC routeInfo)) eqn:Hrsc.
  { (* the result has the marks of [routeInfo] *)
    do 4 (apply wp_bind_on_return; intros).
    match goal with |- wp (bind (set_prop ?props _ _) _) _ _ => destruct props end;
      try done.
    cbn. intros info [= <-]. cbn. unfold is_true in *. congruence. }
  destruct (is_true (ri_N_SSP routeInfo)) eqn:Hssp; cycle 1.
  { do 4 (apply wp_bind_on_return; intros).
    match goal with |- wp (bind (set_prop ?props _ _) _) _ _ => destruct props end;
      try done.
    cbn. intros info [= <-]. cbn. unfold is_true in *. congruence. }
  destruct (String.eqb (dataHref (var_fetchNextDataParams v)) "") eqn:Hhref.
  { apply String.eqb_eq in Hhref.
    do 4 (apply wp_bind_on_return; intros).
    match goal with |- wp (bind (set_prop ?props _ _) _) _ _ => destruct props end;
      try done.
    cbn. intros info _ _ _ Hne. done. }
  cbn [andb negb bind modify wp].
  set (key := absoluteHref (dataHref (var_fetchNextDataParams v))).
  assert (Hgone : sdc (data (delete_sdc key r3)) !! key = None).
  { unfold delete_sdc. cbn. apply lookup_delete_eq. }
  apply wp_gets_bind.
  match goal with
  | |- context [if ?c then bind (fetchNextData_call _ _) _ else _] => destruct c
  end; cbn.
  - unfold fetchNextData_call. cbn.
    match goal with
    | |- context [fetchNextData ?p BackgroundCache ?w] =>
        pose proof (fetchNextData_background_sdc p w) as Hsdc;
        destruct (fetchNextData p BackgroundCache w) as [w1 promise]
    end.
    cbn in Hsdc |- *.
    destruct props; try done. cbn. intros info _ _ _ _. by rewrite Hsdc.
  - destruct props; try done. cbn. intros info _ _ _ _. exact Hgone.
Qed.

End RouteInfoFacts.
